(** * Capture-session supervisor of [main.py]

    A shallow embedding of the process-supervision part of [main.py]
    (the globals of lines 136-141 and the handlers
    [cleanup_selenium_processes], [signal_handler], [api_capture_xpath],
    [api_stop_capture], [get_current_url], [api_capture_status] and
    [open_browser]) together with the properties its specification
    states about them.

    Conventions of the embedding.
    - The module globals are the record [Globals]; a handler is a
      computation in the monad [M], which threads the globals, records
      the externally visible calls as a list of [event]s and ends by
      returning, by raising a Python exception or by leaving the
      interpreter through [os._exit].
    - Everything the operating system decides (the process table seen
      by [psutil], the behaviour of the tracked child, the file system)
      is an explicit argument: a call that may raise is a [result].
    - Time stamps ([time.time()], [Process.create_time()]) are only
      compared and tested for zero; they are integers here.
    - What a method of a process or of the child answers is fixed for
      the duration of one request.
    - Diagnostics ([rr.log_info], [rr.log_error], [print]) neither read
      nor write the session and are left out. *)

From Stdlib Require Import ZArith List String Ascii Bool Lia.
From stdpp Require Import base gmap pretty.
Import ListNotations.

Local Open Scope string_scope.
Local Open Scope list_scope.
Local Open Scope Z_scope.

(** ** Python exceptions *)

Inductive exn_class : Type :=
| NoSuchProcess            (* psutil.NoSuchProcess *)
| ZombieProcess            (* psutil.ZombieProcess, a NoSuchProcess *)
| AccessDenied             (* psutil.AccessDenied *)
| TimeoutExpired           (* subprocess.TimeoutExpired *)
| FileNotFoundError
| OSError
| NameError
| AttributeError
| RuntimeError.

Definition exn_class_eqb (c d : exn_class) : bool :=
  match c, d with
  | NoSuchProcess, NoSuchProcess | ZombieProcess, ZombieProcess
  | AccessDenied, AccessDenied | TimeoutExpired, TimeoutExpired
  | FileNotFoundError, FileNotFoundError | OSError, OSError
  | NameError, NameError | AttributeError, AttributeError
  | RuntimeError, RuntimeError => true
  | _, _ => false
  end.

(** [issubclass c d]: class [c] is [d] or derives from it.  The only
    derivations among the listed classes are
    [ZombieProcess < NoSuchProcess] and [FileNotFoundError < OSError]. *)
Definition issubclass (c d : exn_class) : bool :=
  exn_class_eqb c d ||
  match c, d with
  | ZombieProcess, NoSuchProcess => true
  | FileNotFoundError, OSError => true
  | _, _ => false
  end.

Record exn : Type := mk_exn { exn_cls : exn_class; exn_msg : string }.

(** [except (C1, C2, ...)] *)
Definition caught_by (classes : list exn_class) (e : exn) : bool :=
  existsb (issubclass (exn_cls e)) classes.

(** Outcome of a call into a library or the operating system. *)
Inductive result (A : Type) : Type :=
| Ok (a : A)
| Raise (e : exn).
Arguments Ok {A} a.
Arguments Raise {A} e.

(** ** Strings

    A Python string is the string of its UTF-8 bytes.  Substring tests,
    prefixes, suffixes and comparisons of strings are then those of the
    bytes.  [lower] turns the capitals [A] to [Z] into small letters and
    leaves every other byte: it is [str.lower()] on ASCII text, and the
    properties that depend on the lower-cased text of a name that need
    not be ASCII say so ([ascii_text]). *)

Definition lower_ascii (c : ascii) : ascii :=
  let n := nat_of_ascii c in
  if ((65 <=? n) && (n <=? 90))%nat then ascii_of_nat (n + 32) else c.

Fixpoint lower (s : string) : string :=
  match s with
  | EmptyString => EmptyString
  | String c s' => String (lower_ascii c) (lower s')
  end.

(** [sub in s] *)
Fixpoint contains (sub s : string) : bool :=
  String.prefix sub s ||
  match s with
  | EmptyString => false
  | String _ s' => contains sub s'
  end.

(** [any(d in s for d in ds)] *)
Definition any_in (ds : list string) (s : string) : bool :=
  existsb (fun d => contains d s) ds.

Definition is_space (c : ascii) : bool :=
  let n := nat_of_ascii c in
  (((9 <=? n) && (n <=? 13)) || ((28 <=? n) && (n <=? 32)))%nat.

Fixpoint lstrip (s : string) : string :=
  match s with
  | EmptyString => EmptyString
  | String c s' => if is_space c then lstrip s' else s
  end.

Fixpoint rstrip (s : string) : string :=
  match s with
  | EmptyString => EmptyString
  | String c s' =>
      match rstrip s' with
      | EmptyString => if is_space c then EmptyString else String c EmptyString
      | r => String c r
      end
  end.

Definition strip (s : string) : string := rstrip (lstrip s).

(** Truth value of a string-or-None. *)
Definition truthy_str (o : option string) : bool :=
  match o with
  | Some (String _ _) => true
  | _ => false
  end.

(** ** The operating system as seen by the supervisor *)

(** A [psutil.Process]: its pid and what each method does when called. *)
Record Proc : Type := mk_proc {
  pid : Z;
  proc_name : result string;
  proc_create_time : result Z;
  proc_cmdline : result (list string);
  proc_is_running : result bool;
  proc_kill : result unit
}.

(** What the tracked child does when the [Popen] methods are called. *)
Record Child : Type := mk_child {
  child_poll : option Z;            (* None: still running *)
  child_terminate : result unit;
  child_wait : result Z;            (* wait(timeout=5) *)
  child_kill : result unit;
  child_readline : result string    (* stdout.readline(), if piped *)
}.

Record OS : Type := mk_os {
  procs : list Proc;                (* psutil.process_iter() *)
  child : Child;
  format_exc : exn -> string        (* traceback.format_exc() *)
}.

(** [psutil.Process(pid)] *)
Definition psutil_Process (os : OS) (p : Z) : result Proc :=
  match List.find (fun q => pid q =? p) (procs os) with
  | Some q => Ok q
  | None => Raise (mk_exn NoSuchProcess "process no longer exists")
  end.

(** ** Module globals *)

Inductive redirect : Type :=
| PIPE
| ToFile (path : string)
| Inherit.

(** A [subprocess.Popen] object: [stdout] is a stream only when the
    child was started with [stdout=PIPE], otherwise it is [None]. *)
Record Popen : Type := mk_popen {
  popen_pid : Z;
  popen_stdout : option unit
}.

Definition subprocess_Popen (p : Z) (stdout : redirect) : Popen :=
  {| popen_pid := p;
     popen_stdout := match stdout with PIPE => Some tt | _ => None end |}.

Record WebDriver : Type := mk_driver { current_url : result string }.

Record Globals : Type := mk_globals {
  capture_process : option Popen;
  capture_active : bool;
  selenium_start_time : option Z;
  selenium_browser_pids : gset Z;
  ui_browser_pid : option Z;
  ui_browser_start_time : option Z;
  (* [capture_driver] is declared [global] in [api_capture_status] but
     no statement of the module binds it: [None] is "name not bound". *)
  capture_driver : option (option WebDriver)
}.

(** State of the module after import (lines 136-141). *)
Definition initial : Globals :=
  {| capture_process := None;
     capture_active := false;
     selenium_start_time := None;
     selenium_browser_pids := ∅;
     ui_browser_pid := None;
     ui_browser_start_time := None;
     capture_driver := None |}.

Definition set_capture_process (v : option Popen) (g : Globals) : Globals :=
  {| capture_process := v;
     capture_active := capture_active g;
     selenium_start_time := selenium_start_time g;
     selenium_browser_pids := selenium_browser_pids g;
     ui_browser_pid := ui_browser_pid g;
     ui_browser_start_time := ui_browser_start_time g;
     capture_driver := capture_driver g |}.

Definition set_capture_active (v : bool) (g : Globals) : Globals :=
  {| capture_process := capture_process g;
     capture_active := v;
     selenium_start_time := selenium_start_time g;
     selenium_browser_pids := selenium_browser_pids g;
     ui_browser_pid := ui_browser_pid g;
     ui_browser_start_time := ui_browser_start_time g;
     capture_driver := capture_driver g |}.

Definition set_selenium_start_time (v : option Z) (g : Globals) : Globals :=
  {| capture_process := capture_process g;
     capture_active := capture_active g;
     selenium_start_time := v;
     selenium_browser_pids := selenium_browser_pids g;
     ui_browser_pid := ui_browser_pid g;
     ui_browser_start_time := ui_browser_start_time g;
     capture_driver := capture_driver g |}.

Definition set_ui_browser_start_time (v : option Z) (g : Globals) : Globals :=
  {| capture_process := capture_process g;
     capture_active := capture_active g;
     selenium_start_time := selenium_start_time g;
     selenium_browser_pids := selenium_browser_pids g;
     ui_browser_pid := ui_browser_pid g;
     ui_browser_start_time := v;
     capture_driver := capture_driver g |}.

(** ** Observable calls *)

Inductive event : Type :=
| ProcKill (p : Proc)                 (* psutil Process.kill() on p *)
| PopenTerminate (h : Popen)          (* Popen.terminate() *)
| PopenWait (h : Popen) (timeout : Z) (* Popen.wait(timeout=...) *)
| PopenKill (h : Popen)               (* Popen.kill() *)
| MakeDirs (path : string)
| FileOpen (path : string)            (* open(path, 'w') *)
| FileClose (path : string)
| Spawn (cmd : list string) (cwd : string) (h : Popen)
| OpenTab (url : string).             (* webbrowser.open_new_tab *)

(** ** The monad of handlers *)

Inductive outcome (A : Type) : Type :=
| Returns (a : A)
| Raises (e : exn)
| Exits (code : Z).                   (* os._exit(code) *)
Arguments Returns {A} a.
Arguments Raises {A} e.
Arguments Exits {A} code.

Record Run (A : Type) : Type := mk_run {
  final : Globals;
  trace : list event;
  out : outcome A
}.
Arguments mk_run {A} final trace out.
Arguments final {A} r.
Arguments trace {A} r.
Arguments out {A} r.

Definition M (A : Type) : Type := Globals -> Run A.

Definition ret {A} (a : A) : M A := fun g => mk_run g [] (Returns a).

Definition bind {A B} (m : M A) (k : A -> M B) : M B :=
  fun g =>
    match m g with
    | mk_run g1 t1 (Returns a) =>
        match k a g1 with
        | mk_run g2 t2 o => mk_run g2 (t1 ++ t2) o
        end
    | mk_run g1 t1 (Raises e) => mk_run g1 t1 (Raises e)
    | mk_run g1 t1 (Exits c) => mk_run g1 t1 (Exits c)
    end.

Definition raise {A} (e : exn) : M A := fun g => mk_run g [] (Raises e).

Definition os_exit {A} (code : Z) : M A := fun g => mk_run g [] (Exits code).

Definition emit (ev : event) : M unit := fun g => mk_run g [ev] (Returns tt).

Definition read {A} (f : Globals -> A) : M A := fun g => mk_run g [] (Returns (f g)).

Definition assign (f : Globals -> Globals) : M unit :=
  fun g => mk_run (f g) [] (Returns tt).

(** A call whose outcome the environment decides. *)
Definition call {A} (r : result A) : M A :=
  match r with
  | Ok a => ret a
  | Raise e => raise e
  end.

(** [try: m  except <classes> as e: h e]; [handles e = false] lets the
    exception through.  Leaving the interpreter is not an exception. *)
Definition try_except {A} (m : M A) (handles : exn -> bool) (h : exn -> M A) : M A :=
  fun g =>
    match m g with
    | mk_run g1 t1 (Raises e) =>
        if handles e then
          match h e g1 with
          | mk_run g2 t2 o => mk_run g2 (t1 ++ t2) o
          end
        else mk_run g1 t1 (Raises e)
    | r => r
    end.

(** [except Exception] and the bare [except:] *)
Definition any_exception (e : exn) : bool := true.

Declare Scope py_scope.
Delimit Scope py_scope with py.
Notation "x <- m ;; k" := (bind m (fun x => k))
  (at level 20, m at level 99, k at level 200, only parsing) : py_scope.
Notation "m ;; k" := (bind m (fun _ => k))
  (at level 100, k at level 200, right associativity, only parsing) : py_scope.
Local Open Scope py_scope.

(** [for x in l: acc = body x acc] *)
Fixpoint for_each {X Acc} (l : list X) (acc : Acc) (body : X -> Acc -> M Acc) : M Acc :=
  match l with
  | [] => ret acc
  | x :: l' => acc' <- body x acc ;; for_each l' acc' body
  end.

(** ** JSON responses ([jsonify] of a dict literal) *)

Inductive json : Type :=
| JNull
| JBool (b : bool)
| JStr (s : string)
| JInt (n : Z).

Definition Response : Type := list (string * json).

Definition nl : string := String (ascii_of_nat 10) EmptyString.

(** ** Calls on process objects *)

Definition kill_proc (p : Proc) : M unit :=
  emit (ProcKill p) ;; call (proc_kill p).

Definition terminate (os : OS) (h : Popen) : M unit :=
  emit (PopenTerminate h) ;; call (child_terminate (child os)).

Definition wait (os : OS) (h : Popen) (timeout : Z) : M Z :=
  emit (PopenWait h timeout) ;; call (child_wait (child os)).

Definition kill (os : OS) (h : Popen) : M unit :=
  emit (PopenKill h) ;; call (child_kill (child os)).

(** ** [cleanup_selenium_processes] (lines 143-165) *)

(** Body of the first loop (lines 147-153), for one [pid]. *)
Definition kill_known_pid (os : OS) (p : Z) (_ : unit) : M unit :=
  try_except
    (proc <- call (psutil_Process os p) ;;
     running <- call (proc_is_running proc) ;;
     ui <- read ui_browser_pid ;;
     if running && negb (bool_decide (ui = Some p)) then kill_proc proc
     else ret tt)
    (caught_by [NoSuchProcess; AccessDenied])
    (fun _ => ret tt).

(** The first loop: the pids recorded in [selenium_browser_pids]. *)
Definition known_pids_phase (os : OS) : M unit :=
  pids <- read (fun g => elements (selenium_browser_pids g)) ;;
  for_each pids tt (kill_known_pid os).

(** Body of the second loop (lines 156-163), for one process. *)
Definition kill_driver (proc : Proc) (_ : unit) : M unit :=
  try_except
    (name <- call (proc_name proc) ;;
     let pname := lower name in
     if any_in ["msedgedriver"] pname then kill_proc proc
     else ret tt)
    (caught_by [NoSuchProcess; AccessDenied])
    (fun _ => ret tt).

(** The second loop: every live process. *)
Definition driver_phase (os : OS) : M unit :=
  for_each (procs os) tt kill_driver.

Definition cleanup_selenium_processes (os : OS) : M unit :=
  try_except
    (known_pids_phase os ;; driver_phase os)
    any_exception
    (fun _ => ret tt).

(** ** Graceful stop of the tracked child, then the forced one
    (lines 173-181 and 315-320 share this shape) *)

Definition terminate_then_kill (os : OS) (h : Popen) : M unit :=
  terminate os h ;;
  try_except
    (wait os h 5 ;; ret tt)
    (caught_by [TimeoutExpired])
    (fun _ => kill os h).

(** ** [signal_handler] (lines 167-183) *)

Definition signal_handler (os : OS) : M unit :=
  try_except (cleanup_selenium_processes os) any_exception (fun _ => ret tt) ;;
  cp <- read capture_process ;;
  match cp, child_poll (child os) with
  | Some h, None =>
      try_except (terminate_then_kill os h) any_exception (fun _ => ret tt)
  | _, _ => ret tt
  end ;;
  os_exit 0.

(** ** [api_stop_capture] (lines 282-337) *)

(** Body of the sweep (lines 298-312), for one process;
    [killed] is [killed_processes]. *)
Definition stop_victim (proc : Proc) (killed : list string) : M (list string) :=
  try_except
    (start <- read selenium_start_time ;;
     match start with
     | None => ret killed
     | Some t0 =>
         if t0 =? 0 then ret killed
         else
           created <- call (proc_create_time proc) ;;
           if created >? t0 then
             name <- call (proc_name proc) ;;
             let pname := lower name in
             if any_in ["chromedriver"; "msedgedriver"; "geckodriver"] pname then
               kill_proc proc ;;
               ret (killed ++ [pname])
             else if any_in ["chrome"; "msedge"; "firefox"] pname then
               args <- call (proc_cmdline proc) ;;
               let cmdline := lower (String.concat " " args) in
               if contains "selenium" cmdline
                  || contains "--remote-debugging-port" cmdline
               then kill_proc proc ;;
                    ret (killed ++ [pname])
               else ret killed
             else ret killed
           else ret killed
     end)
    (caught_by [NoSuchProcess; AccessDenied; ZombieProcess])
    (fun _ => ret killed).

(** The sweep of the stop path (lines 296-312). *)
Definition stop_sweep (os : OS) : M (list string) :=
  for_each (procs os) [] stop_victim.

Definition api_stop_capture (os : OS) : M Response :=
  active <- read capture_active ;;
  if negb active then
    ret [("success", JBool false); ("error", JStr "No capture process running")]
  else
    try_except
      (killed_processes <- stop_sweep os ;;
       cp <- read capture_process ;;
       match cp, child_poll (child os) with
       | Some h, None => terminate_then_kill os h
       | _, _ => ret tt
       end ;;
       assign (set_capture_process None) ;;
       assign (set_capture_active false) ;;
       assign (set_selenium_start_time None) ;;
       ret [("success", JBool true);
            ("message", JStr ("Capture stopped successfully. Killed processes: "
                              ++ String.concat ", " killed_processes));
            ("status", JStr "stopped")])
      any_exception
      (fun e =>
         ret [("success", JBool false);
              ("error", JStr ("Error stopping capture: " ++ exn_msg e
                              ++ nl ++ format_exc os e))]).

(** ** [api_capture_xpath] (lines 186-279) *)

(** What the launch consults: the interpreter, the paths derived from
    [__file__], the file system and the outcome of each fallible call. *)
Record LaunchEnv : Type := mk_launch_env {
  sys_executable : option string;
  base_dir : string;                     (* os.path.dirname(__file__) *)
  project_venv : string;
  script_path : string;
  driver_path : string;
  logs_dir : string;
  stdout_log_path : string;
  stderr_log_path : string;
  path_exists : string -> bool;          (* os.path.exists *)
  path_isabs : string -> bool;           (* os.path.isabs *)
  shutil_which : string -> option string;
  time_time : Z;
  os_makedirs : result unit;
  open_w : string -> result unit;        (* open(path, 'w') *)
  popen_start : list string -> result Z; (* pid of the new child *)
  started_reply : result unit;           (* lines 260-266, after the spawn *)
  stale_terminate : result unit          (* terminate() at line 270 *)
}.

(** [a or b] on strings-or-None. *)
Definition or_str (a b : option string) : option string :=
  if truthy_str a then a else b.

(** Lines 204-219: the interpreter that will run the capture script. *)
Definition resolve_python (env : LaunchEnv) : M string :=
  let python_exec :=
    if truthy_str (sys_executable env) then sys_executable env else None in
  let python_exec :=
    if negb (truthy_str python_exec) && path_exists env (project_venv env)
    then Some (project_venv env) else python_exec in
  let python_exec :=
    if negb (truthy_str python_exec) then
      let python_on_path :=
        or_str (shutil_which env "python") (shutil_which env "python3") in
      if truthy_str python_on_path then python_on_path else python_exec
    else python_exec in
  match python_exec with
  | Some (String _ _ as exe) =>
      if negb (path_isabs env exe) then
        let resolved := shutil_which env exe in
        if truthy_str resolved then ret (default exe resolved) else ret exe
      else ret exe
  | _ =>
      raise (mk_exn FileNotFoundError
               "No Python executable found to start capture subprocess")
  end.

(** The handler of lines 267-279; [opened] lists the log sinks that are
    bound in [locals()] when the exception arrives. *)
Definition launch_failed (env : LaunchEnv) (opened : list string) (e : exn)
  : M Response :=
  cp <- read capture_process ;;
  match cp with
  | Some h => emit (PopenTerminate h) ;; call (stale_terminate env)
  | None => ret tt
  end ;;
  assign (set_capture_process None) ;;
  assign (set_capture_active false) ;;
  assign (set_selenium_start_time None) ;;
  for_each opened tt (fun path _ => emit (FileClose path)) ;;
  ret [("success", JBool false);
       ("error", JStr ("Failed to start capture: " ++ exn_msg e))].

(** A stretch of the [try] block: an exception in [m] runs the handler
    and ends the request, otherwise the block goes on with [k].  The
    block is cut where a local that the handler inspects gets bound. *)
Definition attempt {A} (m : M A) (h : exn -> M Response) (k : A -> M Response)
  : M Response :=
  r <- try_except (x <- m ;; ret (inl x)) any_exception
         (fun e => resp <- h e ;; ret (inr resp)) ;;
  match r with
  | inl x => k x
  | inr resp => ret resp
  end.

Definition api_capture_xpath (env : LaunchEnv) : M Response :=
  active <- read capture_active ;;
  if active then
    ret [("success", JBool false); ("error", JStr "Capture already running")]
  else
    attempt
      (python_exec <- resolve_python env ;;
       (if negb (path_exists env (script_path env)) then
          raise (mk_exn FileNotFoundError
                   ("Capture script not found at " ++ script_path env))
        else ret tt) ;;
       (if negb (path_exists env (driver_path env)) then
          raise (mk_exn FileNotFoundError
                   ("Edge WebDriver not found at " ++ driver_path env))
        else ret tt) ;;
       assign (set_selenium_start_time (Some (time_time env))) ;;
       emit (MakeDirs (logs_dir env)) ;;
       call (os_makedirs env) ;;
       call (open_w env (stdout_log_path env)) ;;
       emit (FileOpen (stdout_log_path env)) ;;
       ret python_exec)
      (launch_failed env [])
      (fun python_exec =>
    attempt
      (call (open_w env (stderr_log_path env)) ;;
       emit (FileOpen (stderr_log_path env)))
      (launch_failed env [stdout_log_path env])
      (fun _ =>
    attempt
      (let cmd := [python_exec; "-m"; "modules.capture_xpath";
                   "--browser"; "edge"; "--driver"; driver_path env] in
       (if negb (path_exists env python_exec) then
          raise (mk_exn FileNotFoundError
                   ("Python executable not found: " ++ python_exec))
        else ret tt) ;;
       child_pid <- call (popen_start env cmd) ;;
       let h := subprocess_Popen child_pid (ToFile (stdout_log_path env)) in
       emit (Spawn cmd (base_dir env) h) ;;
       assign (set_capture_process (Some h)) ;;
       assign (set_capture_active true) ;;
       call (started_reply env) ;;
       ret [("success", JBool true);
            ("message", JStr "Capture started");
            ("status", JStr "running");
            ("pid", JInt (popen_pid h))])
      (launch_failed env [stdout_log_path env; stderr_log_path env])
      ret)).

(** ** [open_browser] (lines 378-387) *)

Definition open_browser (now : Z) (open_new_tab : result unit) (url : string)
  : M unit :=
  assign (set_ui_browser_start_time (Some now)) ;;
  try_except
    (emit (OpenTab url) ;; call open_new_tab)
    any_exception
    (fun _ => ret tt).

(** ** [get_current_url] (lines 444-463) *)

Definition get_current_url (os : OS) : M Response :=
  active <- read capture_active ;;
  cp <- read capture_process ;;
  match active, cp with
  | true, Some h =>
      try_except
        (line <- match popen_stdout h with
                 | Some _ => call (child_readline (child os))
                 | None =>
                     raise (mk_exn AttributeError
                              "'NoneType' object has no attribute 'readline'")
                 end ;;
         let url := strip line in
         ret [("success", JBool true); ("url", JStr url)])
        any_exception
        (fun e => ret [("success", JBool false); ("error", JStr (exn_msg e))])
  | _, _ =>
      ret [("success", JBool false); ("error", JStr "No active capture session")]
  end.

(** ** [api_capture_status] (lines 465-483) *)

(** Reading a module global that may not be bound. *)
Definition global_capture_driver : M (option WebDriver) :=
  bound <- read capture_driver ;;
  match bound with
  | Some v => ret v
  | None => raise (mk_exn NameError "name 'capture_driver' is not defined")
  end.

Definition api_capture_status : M Response :=
  active <- read capture_active ;;
  if negb active then ret [("active", JBool false)]
  else
    driver <- global_capture_driver ;;
    url <- match driver with
           | Some d =>
               try_except
                 (u <- call (current_url d) ;; ret (Some u))
                 any_exception
                 (fun _ => ret None)
           | None => ret None
           end ;;
    ret [("active", JBool true);
         ("currentUrl", match url with Some u => JStr u | None => JNull end)].

(** ** States the service can be in

    One step is one completed request (or the start-up call of
    [open_browser]), whatever the environment answers.  The other routes
    of [main.py] do not assign any of the globals above.  [signal_handler]
    ends the process, so no state follows it. *)

Inductive step : Globals -> Globals -> Prop :=
| step_launch env g : step g (final (api_capture_xpath env g))
| step_stop os g : step g (final (api_stop_capture os g))
| step_status g : step g (final (api_capture_status g))
| step_current_url os g : step g (final (get_current_url os g))
| step_open_browser now r url g : step g (final (open_browser now r url g)).

Inductive reachable : Globals -> Prop :=
| reach_initial : reachable initial
| reach_step g g' : reachable g -> step g g' -> reachable g'.

(** * Vocabulary of the properties *)

(** ** Victim criteria, read off the loop bodies *)

Definition driver_names : list string :=
  ["chromedriver"; "msedgedriver"; "geckodriver"].

Definition browser_names : list string := ["chrome"; "msedge"; "firefox"].

(** The test of line 308 on the arguments of a process. *)
Definition automation_evidence (args : list string) : bool :=
  let cmdline := lower (String.concat " " args) in
  contains "selenium" cmdline || contains "--remote-debugging-port" cmdline.

(** The process passes the tests that guard the two [proc.kill()] of
    the stop path. *)
Definition stop_selects (start : option Z) (p : Proc) : bool :=
  match start, proc_create_time p, proc_name p with
  | Some t0, Ok t, Ok n =>
      negb (t0 =? 0) && (t >? t0) &&
      (any_in driver_names (lower n) ||
       (any_in browser_names (lower n) &&
        match proc_cmdline p with
        | Ok args => automation_evidence args
        | Raise _ => false
        end))
  | _, _, _ => false
  end.

(** The process passes the test that guards [proc.kill()] in the second
    loop of [cleanup_selenium_processes]. *)
Definition cleanup_selects (p : Proc) : bool :=
  match proc_name p with
  | Ok n => any_in ["msedgedriver"] (lower n)
  | Raise _ => false
  end.

(** Every method of the process fails, when it fails, with one of the
    errors both sweeps handle. *)
Definition psutil_failure {A} (r : result A) : bool :=
  match r with
  | Ok _ => true
  | Raise e => caught_by [NoSuchProcess; AccessDenied] e
  end.

Definition well_behaved (p : Proc) : bool :=
  psutil_failure (proc_name p) && psutil_failure (proc_create_time p) &&
  psutil_failure (proc_cmdline p) && psutil_failure (proc_is_running p) &&
  psutil_failure (proc_kill p).

Definition psutil_errors_only (os : OS) : bool := forallb well_behaved (procs os).

(** The computation did not leave the interpreter. *)
Definition no_exit {A} (o : outcome A) : Prop :=
  match o with
  | Exits _ => False
  | _ => True
  end.

(** ** What a request may change

    [session_update g g']: from [g] to [g'] the pid set, the protected
    pid and the binding of [capture_driver] are untouched, and the
    tracked handle is the old one, none, or one whose [stdout] is unset. *)

Definition session_update (g g' : Globals) : Prop :=
  selenium_browser_pids g' = selenium_browser_pids g /\
  ui_browser_pid g' = ui_browser_pid g /\
  capture_driver g' = capture_driver g /\
  (capture_process g' = capture_process g \/
   capture_process g' = None \/
   exists h, capture_process g' = Some h /\ popen_stdout h = None).

(** A computation changes the globals only in that way. *)
Definition frame {A} (m : M A) : Prop := forall g, session_update g (final (m g)).

(** What holds in every state the service can be in. *)
Definition invariant (g : Globals) : Prop :=
  selenium_browser_pids g = ∅ /\
  ui_browser_pid g = None /\
  capture_driver g = None /\
  (forall h, capture_process g = Some h -> popen_stdout h = None).

(** ** Concrete processes and sessions used below *)

Definition quiet_child : Child :=
  {| child_poll := None;
     child_terminate := Ok tt;
     child_wait := Ok 0;
     child_kill := Ok tt;
     child_readline := Ok "" |}.

Definition table (l : list Proc) : OS :=
  {| procs := l; child := quiet_child; format_exc := exn_msg |}.

(** An Edge WebDriver process with pid [p] created at [created]. *)
Definition edge_driver (p created : Z) : Proc :=
  {| pid := p;
     proc_name := Ok "msedgedriver.exe";
     proc_create_time := Ok created;
     proc_cmdline := Ok ["msedgedriver.exe"; "--port=51234"];
     proc_is_running := Ok true;
     proc_kill := Ok tt |}.

(** An Edge window under remote control, pid [p], created at [created]. *)
Definition driven_edge (p created : Z) : Proc :=
  {| pid := p;
     proc_name := Ok "msedge.exe";
     proc_create_time := Ok created;
     proc_cmdline := Ok ["msedge.exe"; "--remote-debugging-port=9222"];
     proc_is_running := Ok true;
     proc_kill := Ok tt |}.

(** A running session started at [started]; [ui] is [ui_browser_pid] and
    [known] is [selenium_browser_pids]. *)
Definition session (started : Z) (ui : option Z) (known : gset Z) : Globals :=
  {| capture_process := Some (subprocess_Popen 4242 (ToFile "capture_stdout.log"));
     capture_active := true;
     selenium_start_time := Some started;
     selenium_browser_pids := known;
     ui_browser_pid := ui;
     ui_browser_start_time := Some 50;
     capture_driver := None |}.

(** A launch environment in which the interpreter, the script and the
    driver are found and the log files open; the arguments decide the
    spawn, the statements after it, and [terminate()] in the handler. *)
Definition env_with (spawn : result Z) (reply term : result unit) : LaunchEnv :=
  {| sys_executable := Some "C:\proj\.venv\Scripts\python.exe";
     base_dir := "C:\proj\app";
     project_venv := "C:\proj\.venv\Scripts\python.exe";
     script_path := "C:\proj\app\modules\capture_xpath.py";
     driver_path := "C:\proj\app\drivers\msedgedriver.exe";
     logs_dir := "C:\proj\app\logs";
     stdout_log_path := "C:\proj\app\logs\capture_stdout.log";
     stderr_log_path := "C:\proj\app\logs\capture_stderr.log";
     path_exists := fun _ => true;
     path_isabs := fun _ => true;
     shutil_which := fun _ => None;
     time_time := 100;
     os_makedirs := Ok tt;
     open_w := fun _ => Ok tt;
     popen_start := fun _ => spawn;
     started_reply := reply;
     stale_terminate := term |}.

(** A launch in which every step succeeds. *)
Definition good_env : LaunchEnv := env_with (Ok 4242) (Ok tt) (Ok tt).

(** The state right after that launch, from the initial state. *)
Definition launched : Globals := final (api_capture_xpath good_env initial).

(** A child that is running, accepts [terminate()], is still there when
    [wait(timeout=5)] gives up, and answers [kill()] with [killed]. *)
Definition stubborn_child (killed : result unit) : Child :=
  {| child_poll := None;
     child_terminate := Ok tt;
     child_wait := Raise (mk_exn TimeoutExpired "timed out after 5 seconds");
     child_kill := killed;
     child_readline := Ok "" |}.

Definition stubborn (l : list Proc) (killed : result unit) : OS :=
  {| procs := l; child := stubborn_child killed; format_exc := exn_msg |}.

(** ** Vocabulary of the further properties *)

(** The three session fields agree: a handle and a start time while a
    session is active, neither otherwise. *)
Definition session_consistent (g : Globals) : Prop :=
  if capture_active g
  then is_Some (capture_process g) /\ is_Some (selenium_start_time g)
  else capture_process g = None /\ selenium_start_time g = None.

(** The command line of the capture child (line 243). *)
Definition capture_cmd (env : LaunchEnv) (exe : string) : list string :=
  [exe; "-m"; "modules.capture_xpath"; "--browser"; "edge";
   "--driver"; driver_path env].

(** The globals after the reset of lines 322-324 (and 271-273). *)
Definition reset_session (g : Globals) : Globals :=
  set_selenium_start_time None
    (set_capture_active false (set_capture_process None g)).

(** The three session fields are idle. *)
Definition idle (g : Globals) : Prop :=
  capture_active g = false /\ capture_process g = None /\
  selenium_start_time g = None.

(** The names [api_stop_capture] reports: the lower-cased name of every
    process that passed the tests of the sweep and whose [kill()]
    returned, in the order of the process table. *)
Definition reported_names (start : option Z) (l : list Proc) : list string :=
  flat_map
    (fun p =>
       match stop_selects start p, proc_kill p, proc_name p with
       | true, Ok _, Ok n => [lower n]
       | _, _, _ => []
       end) l.

(** ASCII text: on it [lower] is [str.lower()]. *)
Definition ascii_text (s : string) : bool :=
  forallb (fun c => (nat_of_ascii c <? 128)%nat) (list_ascii_of_string s).

(** The name and the arguments of the process, where it gives them, are
    ASCII text. *)
Definition ascii_proc (p : Proc) : bool :=
  match proc_name p with
  | Ok n => ascii_text n
  | Raise _ => true
  end &&
  match proc_cmdline p with
  | Ok args => forallb ascii_text args
  | Raise _ => true
  end.

Definition ascii_processes (os : OS) : bool := forallb ascii_proc (procs os).

(** A process table with one driver, one remote-controlled browser and
    one ordinary browser window, all created after time 100. *)
Definition ordinary_edge (p created : Z) : Proc :=
  {| pid := p;
     proc_name := Ok "msedge.exe";
     proc_create_time := Ok created;
     proc_cmdline := Ok ["msedge.exe"; "--profile-directory=Default"];
     proc_is_running := Ok true;
     proc_kill := Ok tt |}.

(** * The routes over the captured files

    The routes of [main.py] that read and write the JSON files of the
    [captured_xpaths] directory ([get_all_json_data], [api_update_name],
    [api_reorder], [api_reorder_files], [api_rename_json],
    [api_update_xpath], [api_delete_json], [api_delete_field]).

    Conventions of the embedding.
    - A decoded JSON document is a [pyval]; JSON numbers are integers
      here (floats are outside the model), and the members of an object
      are kept in their order, one per key.
    - The directory is a finite map from the names [os.listdir] gives
      to regular files.  Which strings the platform takes, joined to
      [CAPTURED_XPATHS_DIR], for the entry of that very name is the
      platform's business: [plain] of the [Runtime].  The empty string,
      [.], a name with a separator, a name that is too long are not
      plain; what a call does with such a name (it may fail, reach
      another entry under an alias, or leave the directory) is given by
      the [Runtime] as well, and nothing is assumed about it.
    - An entry that [json.load] rejects is [Unreadable]: so is a file
      that was truncated and not written to the end.  An entry that
      exists can be opened, rewritten and removed.
    - A file is known by the document it decodes to: two files with the
      same document are the same file here.
    - The text [str(e)] of an exception is given by the interpreter:
      [str_exc] of the [Runtime]. *)

(** ** Decoded JSON *)

#[warnings="-register-all"] Inductive pyval : Type :=
| PNone
| PBool (b : bool)
| PInt (n : Z)
| PStr (s : string)
| PList (items : list pyval)
| PDict (members : list (string * pyval)).

(** Truth value of [v] ([if v], [not v]). *)
Definition truthy (v : pyval) : bool :=
  match v with
  | PNone => false
  | PBool b => b
  | PInt n => negb (n =? 0)
  | PStr EmptyString => false
  | PStr _ => true
  | PList [] => false
  | PList _ => true
  | PDict [] => false
  | PDict _ => true
  end.

(** The value as an integer where Python takes one ([bool] is an [int]). *)
Definition as_int (v : pyval) : option Z :=
  match v with
  | PInt n => Some n
  | PBool true => Some 1
  | PBool false => Some 0
  | _ => None
  end.

(** [a == b] *)
Fixpoint py_eq (a b : pyval) : bool :=
  match a, b with
  | PNone, PNone => true
  | PStr s, PStr t => (s =? t)%string
  | PList l, PList m =>
      (fix eq_items (l m : list pyval) : bool :=
         match l, m with
         | [], [] => true
         | x :: l', y :: m' => py_eq x y && eq_items l' m'
         | _, _ => false
         end) l m
  | PDict d, PDict e =>
      (length d =? length e)%nat &&
      (fix eq_members (d : list (string * pyval)) : bool :=
         match d with
         | [] => true
         | (k, v) :: d' =>
             match List.find (fun kw => (fst kw =? k)%string) e with
             | Some (_, w) => py_eq v w
             | None => false
             end && eq_members d'
         end) d
  | (PBool _ | PInt _), (PBool _ | PInt _) =>
      match as_int a, as_int b with
      | Some x, Some y => x =? y
      | _, _ => false
      end
  | _, _ => false
  end.

(** ** Text

    [len] counts characters, not bytes: the bytes [10xxxxxx] continue a
    character.  A lone surrogate, which [json.load] accepts from an
    escape and which no UTF-8 stream can hold, stands here as the three
    bytes its code point would take ([ED A0 80] to [ED BF BF]). *)

Definition is_continuation (c : ascii) : bool :=
  let n := nat_of_ascii c in ((128 <=? n) && (n <=? 191))%nat.

(** [len(s)] *)
Fixpoint str_len (s : string) : nat :=
  match s with
  | EmptyString => O
  | String c s' => if is_continuation c then str_len s' else S (str_len s')
  end.

Fixpoint has_surrogate (s : string) : bool :=
  match s with
  | String c (String c' _ as s') =>
      ((nat_of_ascii c =? 237) && (160 <=? nat_of_ascii c'))%nat
      || has_surrogate s'
  | _ => false
  end.

(** [s.encode('utf-8')] does not raise. *)
Definition encodable (s : string) : bool := negb (has_surrogate s).

(** [json.dump(v, f, ensure_ascii=False)] on a file opened with
    [encoding='utf-8'] writes every key and every string as it is: it
    goes through exactly when all of them can be encoded. *)
Fixpoint dumpable (v : pyval) : bool :=
  match v with
  | PStr s => encodable s
  | PList l => forallb dumpable l
  | PDict d => forallb (fun kv => encodable (fst kv) && dumpable (snd kv)) d
  | _ => true
  end.

(** ** Exceptions of this layer *)

Inductive pyerr : Type :=
| KeyErr (key : pyval)                 (* KeyError *)
| TypeErr                              (* TypeError *)
| ValueErr                             (* ValueError, JSONDecodeError *)
| EncodeErr                            (* UnicodeEncodeError *)
| IndexErr                             (* IndexError *)
| AttributeErr                         (* AttributeError *)
| NotFoundErr (name : string)          (* FileNotFoundError *)
| ExistsErr (name : string)            (* FileExistsError *)
| BadRequestErr.                       (* raised by request.json *)

Inductive fres (A : Type) : Type :=
| FOk (a : A)
| FRaise (e : pyerr).
Arguments FOk {A} a.
Arguments FRaise {A} e.

(** ** The directory *)

Inductive file : Type :=
| JsonFile (doc : pyval)
| Unreadable.

Definition Dir : Type := gmap string file.

(** A route: it may change the directory and returns or raises. *)
Definition FS (A : Type) : Type := Dir -> Dir * fres A.

(** What the interpreter and the platform decide. *)
Record Runtime : Type := mk_runtime {
  str_exc : pyerr -> string;           (* str(e) *)
  int_of_str : string -> option Z;     (* int(s) for a string s *)
  rename_replaces : bool;              (* os.rename over an existing name:
                                          true on POSIX, false on Windows *)
  (* [os.path.join(CAPTURED_XPATHS_DIR, name)] is the path of the entry
     that [os.listdir] gives as [name], whether or not there is one *)
  plain : string -> bool;
  (* what the calls do with a name that is not plain: anything *)
  foreign_exists : string -> Dir -> bool;
  foreign_read : string -> Dir -> fres pyval;
  foreign_write : string -> pyval -> FS unit;
  foreign_remove : string -> FS unit;
  foreign_rename : string -> string -> FS unit
}.

Definition fs_ret {A} (a : A) : FS A := fun d => (d, FOk a).

Definition fs_raise {A} (e : pyerr) : FS A := fun d => (d, FRaise e).

Definition fs_bind {A B} (m : FS A) (k : A -> FS B) : FS B :=
  fun d =>
    match m d with
    | (d1, FOk a) => k a d1
    | (d1, FRaise e) => (d1, FRaise e)
    end.

Definition fs_call {A} (r : fres A) : FS A := fun d => (d, r).

(** [try: m  except Exception as e: h e] *)
Definition fs_try {A} (m : FS A) (h : pyerr -> FS A) : FS A :=
  fun d =>
    match m d with
    | (d1, FRaise e) => h e d1
    | r => r
    end.

Declare Scope fs_scope.
Delimit Scope fs_scope with fs.
Notation "x <- m ;; k" := (fs_bind m (fun x => k))
  (at level 20, m at level 99, k at level 200, only parsing) : fs_scope.
Notation "m ;; k" := (fs_bind m (fun _ => k))
  (at level 100, k at level 200, right associativity, only parsing) : fs_scope.
Local Open Scope fs_scope.

(** [with open(name, 'r', encoding='utf-8') as f: json.load(f)] *)
Definition read_json (rt : Runtime) (name : string) : FS pyval :=
  fun d =>
    if plain rt name then
      match d !! name with
      | Some (JsonFile doc) => (d, FOk doc)
      | Some Unreadable => (d, FRaise ValueErr)
      | None => (d, FRaise (NotFoundErr name))
      end
    else (d, foreign_read rt name d).

(** [with open(name, 'w', encoding='utf-8') as f: json.dump(doc, f, ...)]:
    [open] truncates the file, then [json.dump] writes it piece by
    piece; a string that cannot be encoded stops it with the file cut
    short, which [json.load] no longer accepts. *)
Definition write_json (rt : Runtime) (name : string) (doc : pyval) : FS unit :=
  fun d =>
    if plain rt name then
      if dumpable doc then (<[name := JsonFile doc]> d, FOk tt)
      else (<[name := Unreadable]> d, FRaise EncodeErr)
    else foreign_write rt name doc d.

(** [os.path.exists] *)
Definition entry_exists (rt : Runtime) (name : string) : FS bool :=
  fun d =>
    if plain rt name then (d, FOk (bool_decide (is_Some (d !! name))))
    else (d, FOk (foreign_exists rt name d)).

(** [os.remove] *)
Definition os_remove (rt : Runtime) (name : string) : FS unit :=
  fun d =>
    if plain rt name then
      match d !! name with
      | Some _ => (delete name d, FOk tt)
      | None => (d, FRaise (NotFoundErr name))
      end
    else foreign_remove rt name d.

(** [os.rename] *)
Definition os_rename (rt : Runtime) (src dst : string) : FS unit :=
  fun d =>
    if plain rt src && plain rt dst then
      match d !! src with
      | None => (d, FRaise (NotFoundErr src))
      | Some f =>
          if (src =? dst)%string then (d, FOk tt)
          else if bool_decide (is_Some (d !! dst)) && negb (rename_replaces rt)
          then (d, FRaise (ExistsErr dst))
          else (<[dst := f]> (delete src d), FOk tt)
      end
    else foreign_rename rt src dst d.

(** ** Operations on decoded JSON *)

(** Members of an object. *)
Definition dict_get (k : string) (d : list (string * pyval)) : option pyval :=
  option_map snd (List.find (fun kv => (fst kv =? k)%string) d).

(** [d[k] = v]: the member is replaced where it stands, or added last. *)
Fixpoint dict_set (k : string) (v : pyval) (d : list (string * pyval))
  : list (string * pyval) :=
  match d with
  | [] => [(k, v)]
  | (k', v') :: d' =>
      if (k' =? k)%string then (k, v) :: d' else (k', v') :: dict_set k v d'
  end.

(** [v[key]] for a string key. *)
Definition subscript (v : pyval) (key : string) : fres pyval :=
  match v with
  | PDict d =>
      match dict_get key d with
      | Some x => FOk x
      | None => FRaise (KeyErr (PStr key))
      end
  | _ => FRaise TypeErr
  end.

(** [key in v] for a string key. *)
Definition has_key (key : string) (v : pyval) : fres bool :=
  match v with
  | PDict d => FOk (bool_decide (is_Some (dict_get key d)))
  | PList l => FOk (existsb (py_eq (PStr key)) l)
  | PStr s => FOk (contains key s)
  | _ => FRaise TypeErr
  end.

(** [len(v)] *)
Definition py_len (v : pyval) : fres Z :=
  match v with
  | PList l => FOk (Z.of_nat (length l))
  | PDict d => FOk (Z.of_nat (length d))
  | PStr s => FOk (Z.of_nat (str_len s))
  | _ => FRaise TypeErr
  end.

(** [0 <= idx < len(v)]: the length is taken only when [0 <= idx]. *)
Definition in_range (idx v : pyval) : fres bool :=
  match as_int idx with
  | None => FRaise TypeErr
  | Some i =>
      if 0 <=? i then
        match py_len v with
        | FOk n => FOk (i <? n)
        | FRaise e => FRaise e
        end
      else FOk false
  end.

(** [int(v)] *)
Definition py_int (rt : Runtime) (v : pyval) : fres Z :=
  match v with
  | PInt n => FOk n
  | PBool true => FOk 1
  | PBool false => FOk 0
  | PStr s =>
      match int_of_str rt s with
      | Some n => FOk n
      | None => FRaise ValueErr
      end
  | _ => FRaise TypeErr
  end.

(** [os.path.join(CAPTURED_XPATHS_DIR, v)]: a string is required. *)
Definition entry_name (v : pyval) : fres string :=
  match v with
  | PStr s => FOk s
  | _ => FRaise TypeErr
  end.

(** [l.insert(i, x)] for [0 <= i]. *)
Definition list_insert_at {A} (i : nat) (x : A) (l : list A) : list A :=
  take i l ++ x :: drop i l.

(** [arr[idx][key] = v] for [0 <= idx < len(arr)], [i] the integer
    [idx]: the item must be an object of a list. *)
Definition set_member (arr idx : pyval) (i : Z) (key : string) (v : pyval)
  : fres pyval :=
  match arr with
  | PList l =>
      match l !! Z.to_nat i with
      | Some (PDict d) => FOk (PList (<[Z.to_nat i := PDict (dict_set key v d)]> l))
      | Some _ => FRaise TypeErr
      | None => FRaise IndexErr
      end
  | PDict _ => FRaise (KeyErr idx)
  | _ => FRaise TypeErr
  end.

(** [arr[idx].setdefault('selectors', {})['xpath'] = v] for
    [0 <= idx < len(arr)], [i] the integer [idx]. *)
Definition set_selector (arr idx : pyval) (i : Z) (v : pyval) : fres pyval :=
  match arr with
  | PList l =>
      match l !! Z.to_nat i with
      | Some (PDict d) =>
          match dict_get "selectors" d with
          | None =>
              FOk (PList (<[Z.to_nat i :=
                              PDict (dict_set "selectors" (PDict [("xpath", v)]) d)]> l))
          | Some (PDict sel) =>
              FOk (PList (<[Z.to_nat i :=
                              PDict (dict_set "selectors"
                                       (PDict (dict_set "xpath" v sel)) d)]> l))
          | Some _ => FRaise TypeErr
          end
      | Some _ => FRaise AttributeErr
      | None => FRaise IndexErr
      end
  | PDict _ => FRaise (KeyErr idx)
  | PStr _ => FRaise AttributeErr
  | _ => FRaise TypeErr
  end.

(** [item = arr.pop(idx); arr.insert(j, item)] for [idx] and [j] in
    range, [i] the integer [idx]. *)
Definition move_item (arr idx : pyval) (i j : Z) : fres pyval :=
  match arr with
  | PList l =>
      match l !! Z.to_nat i with
      | Some item =>
          FOk (PList (list_insert_at (Z.to_nat j) item (delete (Z.to_nat i) l)))
      | None => FRaise IndexErr
      end
  | PDict _ => FRaise (KeyErr idx)
  | _ => FRaise AttributeErr
  end.

(** [arr.pop(i)] for [i] in range. *)
Definition pop_item (arr : pyval) (i : Z) : fres pyval :=
  match arr with
  | PList l =>
      match l !! Z.to_nat i with
      | Some _ => FOk (PList (delete (Z.to_nat i) l))
      | None => FRaise IndexErr
      end
  | PDict _ => FRaise (KeyErr (PInt i))
  | _ => FRaise AttributeErr
  end.

(** ** Requests and replies *)

Record Request : Type := mk_request {
  is_json : bool;                 (* request.is_json *)
  request_json : fres pyval       (* request.json, request.get_json() *)
}.

Definition success : Response := [("success", JBool true)].

Definition failure (msg : string) : Response :=
  [("success", JBool false); ("error", JStr msg)].

(** ** [get_all_json_data] (lines 32-44) *)

(** [s.endswith(suffix)] *)
Definition ends_with (suffix s : string) : bool :=
  let n := String.length s in
  let m := String.length suffix in
  (m <=? n)%nat && (String.substring (n - m) m s =? suffix)%string.

(** One turn of the loop: [data] is the dict being built. *)
Definition collect_json (fname : string) (f : file) (data : gmap string pyval)
  : gmap string pyval :=
  if ends_with ".json" fname then
    match f with
    | JsonFile arr => <[fname := arr]> data
    | Unreadable => data
    end
  else data.

Definition get_all_json_data (d : Dir) : gmap string pyval :=
  map_fold collect_json ∅ d.

(** ** [api_update_name] (lines 55-73) *)

Definition api_update_name (rt : Runtime) (request : Request) : FS Response :=
  fs_try
    (req <- fs_call (request_json request) ;;
     page <- fs_call (subscript req "page") ;;
     idx <- fs_call (subscript req "index") ;;
     new_name <- fs_call (subscript req "name") ;;
     fpath <- fs_call (entry_name page) ;;
     arr <- read_json rt fpath ;;
     ok <- fs_call (in_range idx arr) ;;
     if ok then
       arr' <- fs_call (set_member arr idx (default 0 (as_int idx)) "name" new_name) ;;
       write_json rt fpath arr' ;;
       fs_ret success
     else fs_ret (failure "Invalid index"))
    (fun e => fs_ret (failure (str_exc rt e))).

(** ** [api_reorder] (lines 75-94) *)

(** [a and b] on two range tests: [b] is evaluated only when [a] holds. *)
Definition both_in_range (i j v : pyval) : fres bool :=
  match in_range i v with
  | FOk true => in_range j v
  | r => r
  end.

Definition api_reorder (rt : Runtime) (request : Request) : FS Response :=
  fs_try
    (req <- fs_call (request_json request) ;;
     page <- fs_call (subscript req "page") ;;
     old_index <- fs_call (subscript req "oldIndex") ;;
     new_index <- fs_call (subscript req "newIndex") ;;
     fpath <- fs_call (entry_name page) ;;
     arr <- read_json rt fpath ;;
     ok <- fs_call (both_in_range old_index new_index arr) ;;
     if ok then
       arr' <- fs_call (move_item arr old_index
                          (default 0 (as_int old_index))
                          (default 0 (as_int new_index))) ;;
       write_json rt fpath arr' ;;
       fs_ret success
     else fs_ret (failure "Invalid indices"))
    (fun e => fs_ret (failure (str_exc rt e))).

(** ** [api_rename_json] (lines 340-357) *)

(** [req.get(key)] *)
Definition dict_get_method (req : pyval) (key : string) : fres pyval :=
  match req with
  | PDict d => FOk (default PNone (dict_get key d))
  | _ => FRaise AttributeErr
  end.

Definition api_rename_json (rt : Runtime) (request : Request) : FS Response :=
  req <- fs_call (request_json request) ;;
  old <- fs_call (dict_get_method req "old") ;;
  new <- fs_call (dict_get_method req "new") ;;
  if negb (truthy old) || negb (truthy new) || py_eq old new then
    fs_ret (failure "Invalid file names")
  else
    old_path <- fs_call (entry_name old) ;;
    new_path <- fs_call (entry_name new) ;;
    fs_try
      (old_exists <- entry_exists rt old_path ;;
       if negb old_exists then fs_ret (failure "Old file does not exist")
       else
         new_exists <- entry_exists rt new_path ;;
         if new_exists then fs_ret (failure "New file already exists")
         else
           os_rename rt old_path new_path ;;
           fs_ret success)
      (fun e => fs_ret (failure (str_exc rt e))).

(** ** [api_update_xpath] (lines 359-376) *)

Definition api_update_xpath (rt : Runtime) (request : Request) : FS Response :=
  req <- fs_call (request_json request) ;;
  page <- fs_call (subscript req "page") ;;
  idx <- fs_call (subscript req "index") ;;
  new_xpath <- fs_call (subscript req "xpath") ;;
  fpath <- fs_call (entry_name page) ;;
  fs_try
    (arr <- read_json rt fpath ;;
     ok <- fs_call (in_range idx arr) ;;
     if ok then
       arr' <- fs_call (set_selector arr idx (default 0 (as_int idx)) new_xpath) ;;
       write_json rt fpath arr' ;;
       fs_ret success
     else fs_ret (failure "Invalid index"))
    (fun e => fs_ret (failure (str_exc rt e))).

(** ** [api_delete_json] (lines 390-409) *)

(** [not data or key not in data] *)
Definition lacks (key : string) (data : pyval) : fres bool :=
  if negb (truthy data) then FOk true
  else match has_key key data with
       | FOk b => FOk (negb b)
       | FRaise e => FRaise e
       end.

Definition api_delete_json (rt : Runtime) (request : Request) : FS Response :=
  fs_try
    (if negb (is_json request) then
       fs_ret (failure "Content-Type must be application/json")
     else
       data <- fs_call (request_json request) ;;
       missing <- fs_call (lacks "file" data) ;;
       if missing then fs_ret (failure "Missing file parameter")
       else
         fname <- fs_call (subscript data "file") ;;
         fpath <- fs_call (entry_name fname) ;;
         found <- entry_exists rt fpath ;;
         if negb found then fs_ret (failure "File not found")
         else
           os_remove rt fpath ;;
           fs_ret success)
    (fun e => fs_ret (failure (str_exc rt e))).

(** ** [api_delete_field] (lines 411-441) *)

(** [not data or 'page' not in data or 'index' not in data] *)
Definition lacks_page_or_index (data : pyval) : fres bool :=
  match lacks "page" data with
  | FOk false =>
      match has_key "index" data with
      | FOk b => FOk (negb b)
      | FRaise e => FRaise e
      end
  | r => r
  end.

Definition api_delete_field (rt : Runtime) (request : Request) : FS Response :=
  fs_try
    (if negb (is_json request) then
       fs_ret (failure "Content-Type must be application/json")
     else
       data <- fs_call (request_json request) ;;
       missing <- fs_call (lacks_page_or_index data) ;;
       if missing then fs_ret (failure "Missing required parameters")
       else
         page <- fs_call (subscript data "page") ;;
         index <- fs_call (subscript data "index") ;;
         idx <- fs_call (py_int rt index) ;;
         fpath <- fs_call (entry_name page) ;;
         found <- entry_exists rt fpath ;;
         if negb found then fs_ret (failure "File not found")
         else
           arr <- read_json rt fpath ;;
           ok <- fs_call (in_range (PInt idx) arr) ;;
           if negb ok then fs_ret (failure "Invalid index")
           else
             arr' <- fs_call (pop_item arr idx) ;;
             write_json rt fpath arr' ;;
             fs_ret success)
    (fun e => fs_ret (failure (str_exc rt e))).

Local Close Scope fs_scope.

(** ** [api_reorder_files] (lines 96-133) *)

(** [os.listdir(CAPTURED_XPATHS_DIR)] *)
Definition listdir (d : Dir) : list string := (map_to_list d).*1.

(** [files.sort()] *)
Fixpoint insert_sorted (x : string) (l : list string) : list string :=
  match l with
  | [] => [x]
  | y :: l' => if String.leb x y then x :: l else y :: insert_sorted x l'
  end.

Definition sort_names (l : list string) : list string :=
  foldr insert_sorted [] l.

(** [files.remove(x)]: the first occurrence goes. *)
Fixpoint remove_first (x : string) (l : list string) : list string :=
  match l with
  | [] => []
  | y :: l' => if (y =? x)%string then l' else y :: remove_first x l'
  end.

(** [f"temp_{i}_{fname}"] *)
Definition temp_name (i : nat) (fname : string) : string :=
  String.append "temp_" (String.append (pretty i) (String.append "_" fname)).

Local Open Scope fs_scope.

(** The first loop (lines 114-119), from index [i] on; [temp_names] is
    the list built so far. *)
Fixpoint rename_to_temp (rt : Runtime) (i : nat) (files temp_names : list string)
  : FS (list string) :=
  match files with
  | [] => fs_ret temp_names
  | fname :: rest =>
      os_rename rt fname (temp_name i fname) ;;
      rename_to_temp rt (S i) rest (temp_names ++ [temp_name i fname])
  end.

(** The second loop (lines 122-125), over [zip(temp_names, files)]. *)
Fixpoint rename_back (rt : Runtime) (pairs : list (string * string)) : FS unit :=
  match pairs with
  | [] => fs_ret tt
  | (temp, final_name) :: rest =>
      os_rename rt temp final_name ;; rename_back rt rest
  end.

Definition api_reorder_files (rt : Runtime) (request : Request) : FS Response :=
  fs_try
    (req <- fs_call (request_json request) ;;
     old_index <- fs_call (subscript req "oldIndex") ;;
     new_index <- fs_call (subscript req "newIndex") ;;
     fun d =>
       let files := sort_names (List.filter (ends_with ".json") (listdir d)) in
       (ok <- fs_call (both_in_range old_index new_index (PList (PStr <$> files))) ;;
        if ok then
          match files !! Z.to_nat (default 0 (as_int old_index)) with
          | Some file_to_move =>
              let files :=
                list_insert_at (Z.to_nat (default 0 (as_int new_index)))
                  file_to_move (remove_first file_to_move files) in
              temp_names <- rename_to_temp rt 0 files [] ;;
              rename_back rt (combine temp_names files) ;;
              fs_ret success
          | None => fs_raise IndexErr
          end
        else fs_ret (failure "Invalid indices")) d)
    (fun e => fs_ret (failure (str_exc rt e))).

Local Close Scope fs_scope.

(** ** Vocabulary of the properties of the routes *)

(** No entry of the directory is named like a temporary of the route. *)
Definition no_temp_entries (d : Dir) : Prop :=
  forall i fname, d !! temp_name i fname = None.

(** The [.json] entries, in the order of [os.listdir]. *)
Definition json_files (d : Dir) : list string :=
  List.filter (ends_with ".json") (listdir d).

(** The platform takes every name [api_reorder_files] passes to
    [os.rename] for the entry of that name: the [.json] entries and the
    temporary names made of them with an index below their number. *)
Definition renames_plain (rt : Runtime) (d : Dir) : Prop :=
  forall i f, f ∈ json_files d -> (i < length (json_files d))%nat ->
              plain rt f = true /\ plain rt (temp_name i f) = true.

(** When the request has a string under [key], it is a plain name. *)
Definition names_plain (rt : Runtime) (request : Request) (key : string) : Prop :=
  forall req name,
    request_json request = FOk req ->
    subscript req key = FOk (PStr name) ->
    plain rt name = true.

(** When [api_rename_json] finds a string under ["old"] or ["new"], it
    is a plain name. *)
Definition rename_names_plain (rt : Runtime) (request : Request) : Prop :=
  forall req key name,
    key = "old" \/ key = "new" ->
    request_json request = FOk req ->
    dict_get_method req key = FOk (PStr name) ->
    plain rt name = true.

(** From [d] to [d'] nothing changed, or one file was cut short. *)
Definition kept_or_cut (d d' : Dir) : Prop :=
  d' = d \/ exists page, is_Some (d !! page) /\ d' = <[page := Unreadable]> d.

(** ** Concrete files and requests used below *)

(** Names made of ASCII letters, digits, [.], [_] and [-], at most 255
    bytes long, other than [.] and [..]: every platform takes them for
    the entry of that name (up to the case of letters). *)
Definition plain_char (c : ascii) : bool :=
  let n := nat_of_ascii c in
  (((48 <=? n) && (n <=? 57)) || ((65 <=? n) && (n <=? 90))
   || ((97 <=? n) && (n <=? 122)) || (n =? 45) || (n =? 46) || (n =? 95))%nat.

Definition plain_name (s : string) : bool :=
  match s with
  | EmptyString => false
  | _ =>
      forallb plain_char (list_ascii_of_string s)
      && (String.length s <=? 255)%nat
      && negb (s =? ".")%string && negb (s =? "..")%string
  end.

(** A platform on which [os.rename] does not replace, every call on a
    name that is not plain fails, and [int_of_str] is [int()] on
    strings. *)
Definition runtime_with (int_of_str : string -> option Z) : Runtime :=
  {| str_exc := fun _ => "error";
     int_of_str := int_of_str;
     rename_replaces := false;
     plain := plain_name;
     foreign_exists := fun _ _ => false;
     foreign_read := fun name _ => FRaise (NotFoundErr name);
     foreign_write := fun name _ d => (d, FRaise (NotFoundErr name));
     foreign_remove := fun name d => (d, FRaise (NotFoundErr name));
     foreign_rename := fun src _ d => (d, FRaise (NotFoundErr src)) |}.

Definition plain_runtime : Runtime := runtime_with (fun _ => None).

(** The lone surrogate U+D800, as [json.loads] gives it for the escape
    [\ud800]. *)
Definition lone_surrogate : string :=
  String (ascii_of_nat 237) (String (ascii_of_nat 160)
    (String (ascii_of_nat 128) EmptyString)).

(** A captured field with a name and an XPath selector. *)
Definition field (name xpath : string) : pyval :=
  PDict [("name", PStr name); ("selectors", PDict [("xpath", PStr xpath)])].

Definition login_fields : list pyval :=
  [field "user" "//input[1]"; field "password" "//input[2]";
   field "submit" "//button"].

Definition sample_dir : Dir :=
  {[ "login.json" := JsonFile (PList login_fields);
     "home.json" := JsonFile (PList [field "menu" "//nav"]);
     "notes.txt" := Unreadable ]}.

(** A JSON request with the given body. *)
Definition post (body : list (string * pyval)) : Request :=
  {| is_json := true; request_json := FOk (PDict body) |}.

(** The run of a route answered (it did not raise), and unless the
    answer is [{success: true}] the directory is the one before, but
    for a file that may have been cut short. *)
Definition answers_or_keeps (d : Dir) (run : Dir * fres Response) : Prop :=
  exists reply, run.2 = FOk reply /\ (reply <> success -> kept_or_cut d run.1).

(** The temporary names the first loop gives to [files], from index [i]. *)
Fixpoint temp_names_from (i : nat) (files : list string) : list string :=
  match files with
  | [] => []
  | fname :: rest => temp_name i fname :: temp_names_from (S i) rest
  end.

(** Decimal digits only. *)
Fixpoint all_digits (s : string) : bool :=
  match s with
  | EmptyString => true
  | String c s' =>
      let n := nat_of_ascii c in
      ((48 <=? n) && (n <=? 57))%nat && all_digits s'
  end.

(** * Proofs *)

(** ** Runs on concrete inputs *)

Example lower_mixed_case : lower "MSEdgeDriver.EXE" = "msedgedriver.exe".
Proof. reflexivity. Qed.

Example driver_name_found : contains "msedgedriver" "msedgedriver.exe" = true.
Proof. reflexivity. Qed.

Example browser_name_not_found : any_in browser_names "explorer.exe" = false.
Proof. reflexivity. Qed.

Example zombie_is_no_such_process :
  caught_by [NoSuchProcess; AccessDenied] (mk_exn ZombieProcess "zombie") = true.
Proof. reflexivity. Qed.

Example strip_spaces : strip "  http://127.0.0.1:5005/  " = "http://127.0.0.1:5005/".
Proof. reflexivity. Qed.

(** A launch from the initial state in which everything succeeds. *)
Example launch_run :
  api_capture_xpath good_env initial =
  let h := subprocess_Popen 4242 (ToFile (stdout_log_path good_env)) in
  mk_run
    (set_capture_active true
       (set_capture_process (Some h)
          (set_selenium_start_time (Some 100) initial)))
    [MakeDirs (logs_dir good_env);
     FileOpen (stdout_log_path good_env);
     FileOpen (stderr_log_path good_env);
     Spawn ["C:\proj\.venv\Scripts\python.exe"; "-m"; "modules.capture_xpath";
            "--browser"; "edge"; "--driver"; driver_path good_env]
       (base_dir good_env) h]
    (Returns [("success", JBool true);
              ("message", JStr "Capture started");
              ("status", JStr "running");
              ("pid", JInt 4242)]).
Proof. vm_compute. reflexivity. Qed.

(** A stop with a driver created after the session started (time 100)
    and a remote-controlled browser created before it: only the driver
    is killed, then the child is asked to terminate and exits in time. *)
Example stop_run :
  api_stop_capture (table [edge_driver 11 101; driven_edge 12 99])
    (session 100 None ∅) =
  let h := subprocess_Popen 4242 (ToFile "capture_stdout.log") in
  mk_run
    (set_selenium_start_time None
       (set_capture_active false
          (set_capture_process None (session 100 None ∅))))
    [ProcKill (edge_driver 11 101); PopenTerminate h; PopenWait h 5]
    (Returns [("success", JBool true);
              ("message",
               JStr "Capture stopped successfully. Killed processes: msedgedriver.exe");
              ("status", JStr "stopped")]).
Proof. vm_compute. reflexivity. Qed.

(** The status query of an idle service. *)
Example status_idle :
  api_capture_status initial = mk_run initial [] (Returns [("active", JBool false)]).
Proof. reflexivity. Qed.

(** ** Loops *)

Section Loops.
Context {X Acc : Type}.
Variable I : Globals -> Prop.
Variable body : X -> Acc -> M Acc.

Lemma for_each_inv (Q : event -> Prop) (l : list X) :
  (forall x acc g, In x l -> I g ->
     I (final (body x acc g)) /\ Forall Q (trace (body x acc g)) /\
     no_exit (out (body x acc g))) ->
  forall acc g, I g ->
    I (final (for_each l acc body g)) /\
    Forall Q (trace (for_each l acc body g)) /\
    no_exit (out (for_each l acc body g)).
Proof.
  induction l as [|x l IH]; intros Hbody acc g Hg.
  - simpl. repeat split; [exact Hg | constructor].
  - simpl. unfold bind.
    destruct (Hbody x acc g (or_introl eq_refl) Hg) as (Hf & Ht & Hx).
    destruct (body x acc g) as [g1 t1 [a | e | c]]; simpl in *;
      try (repeat split; assumption).
    destruct (IH (fun y acc' g' H => Hbody y acc' g' (or_intror H)) a g1 Hf)
      as (Hf' & Ht' & Hx').
    destruct (for_each l a body g1) as [g2 t2 o]; simpl in *.
    repeat split; [exact Hf' | apply Forall_app; split; assumption | exact Hx'].
Qed.

Lemma for_each_returns (l : list X) :
  (forall x acc g, In x l -> I g ->
     I (final (body x acc g)) /\ exists a, out (body x acc g) = Returns a) ->
  forall acc g, I g ->
    I (final (for_each l acc body g)) /\
    exists a, out (for_each l acc body g) = Returns a.
Proof.
  induction l as [|x l IH]; intros Hbody acc g Hg.
  - simpl. split; [exact Hg | eexists; reflexivity].
  - simpl. unfold bind.
    destruct (Hbody x acc g (or_introl eq_refl) Hg) as [Hf [a Ha]].
    destruct (body x acc g) as [g1 t1 o1]; simpl in *. subst o1.
    pose proof (IH (fun y acc' g' H => Hbody y acc' g' (or_intror H)) a g1 Hf)
      as IH'.
    destruct (for_each l a body g1) as [g2 t2 o]; simpl in *. exact IH'.
Qed.

Lemma for_each_visits (l : list X) (x0 : X) (ev : event) :
  (forall x acc g, In x l -> I g ->
     I (final (body x acc g)) /\ exists a, out (body x acc g) = Returns a) ->
  In x0 l ->
  (forall acc g, I g -> In ev (trace (body x0 acc g))) ->
  forall acc g, I g -> In ev (trace (for_each l acc body g)).
Proof.
  induction l as [|x l IH]; intros Hbody Hin Hev acc g Hg; [destruct Hin |].
  simpl. unfold bind.
  destruct (Hbody x acc g (or_introl eq_refl) Hg) as [Hf [a Ha]].
  assert (Hx : x = x0 -> In ev (trace (body x acc g)))
    by (intros ->; apply Hev, Hg).
  destruct (body x acc g) as [g1 t1 o1]; simpl in *. subst o1.
  assert (Hl : In x0 l -> In ev (trace (for_each l a body g1))).
  { intros H. apply IH; try assumption.
    intros y acc' g' H'. apply Hbody. right. exact H'. }
  destruct (for_each l a body g1) as [g2 t2 o]; simpl in *.
  apply in_or_app. destruct Hin; [left | right]; auto.
Qed.
End Loops.

(** ** One iteration of each sweep *)

Lemma caught_by_stop e :
  caught_by [NoSuchProcess; AccessDenied; ZombieProcess] e =
  caught_by [NoSuchProcess; AccessDenied] e.
Proof. destruct e as [[] msg]; reflexivity. Qed.

#[local] Arguments contains : simpl never.
#[local] Arguments lower : simpl never.
#[local] Arguments any_in : simpl never.
#[local] Arguments caught_by : simpl never.
#[local] Arguments String.concat : simpl never.
#[local] Arguments String.append : simpl never.

(** Case analysis on whatever the goal still branches on. *)
Ltac split_run :=
  repeat (simpl;
          match goal with
          | |- context [match ?x with _ => _ end] =>
              lazymatch x with
              | context [match _ with _ => _ end] => fail
              | _ => destruct x eqn:?
              end
          end);
  simpl.

Ltac run_body :=
  unfold kill_proc;
  unfold try_except, bind, read, call, emit, ret, raise, assign;
  split_run.

Lemma stop_victim_final p killed g : final (stop_victim p killed g) = g.
Proof. unfold stop_victim. run_body; reflexivity. Qed.

Lemma stop_victim_trace p killed g :
  trace (stop_victim p killed g) =
  if stop_selects (selenium_start_time g) p then [ProcKill p] else [].
Proof.
  unfold stop_victim, stop_selects, automation_evidence, driver_names, browser_names.
  run_body; try reflexivity; try discriminate.
Qed.

Lemma stop_victim_returns p killed g :
  well_behaved p = true -> exists a, out (stop_victim p killed g) = Returns a.
Proof.
  unfold well_behaved, psutil_failure. intros H.
  repeat (apply andb_prop in H; destruct H as [H ?]).
  unfold stop_victim. run_body; eauto;
    simpl in *; rewrite ?caught_by_stop in *; congruence.
Qed.

Lemma stop_victim_no_exit p killed g : no_exit (out (stop_victim p killed g)).
Proof. unfold stop_victim. run_body; exact Logic.I. Qed.

Lemma kill_driver_final p u g : final (kill_driver p u g) = g.
Proof. unfold kill_driver. run_body; reflexivity. Qed.

Lemma kill_driver_trace p u g :
  trace (kill_driver p u g) = if cleanup_selects p then [ProcKill p] else [].
Proof.
  unfold kill_driver, cleanup_selects.
  run_body; try reflexivity; try discriminate.
Qed.

Lemma kill_driver_no_exit p u g : no_exit (out (kill_driver p u g)).
Proof. unfold kill_driver. run_body; exact Logic.I. Qed.

Lemma kill_driver_returns p u g :
  well_behaved p = true -> exists a, out (kill_driver p u g) = Returns a.
Proof.
  unfold well_behaved, psutil_failure. intros H.
  repeat (apply andb_prop in H; destruct H as [H ?]).
  unfold kill_driver. run_body; eauto; simpl in *; congruence.
Qed.

Lemma psutil_Process_found os p q :
  psutil_Process os p = Ok q -> In q (procs os) /\ pid q = p.
Proof.
  unfold psutil_Process.
  destruct (List.find _ _) as [q'|] eqn:Hfind; [|discriminate].
  intros [= <-]. apply find_some in Hfind as [Hin Heq].
  split; [exact Hin | lia].
Qed.

Lemma kill_known_pid_final os p u g : final (kill_known_pid os p u g) = g.
Proof. unfold kill_known_pid. run_body; reflexivity. Qed.

Lemma kill_known_pid_no_exit os p u g : no_exit (out (kill_known_pid os p u g)).
Proof. unfold kill_known_pid. run_body; exact Logic.I. Qed.

(** The first loop kills the process registered under [p], and only
    when [p] is not the pid of the UI browser. *)
Lemma kill_known_pid_trace os p u g :
  Forall (fun ev => exists q, ev = ProcKill q /\ In q (procs os) /\ pid q = p /\
                              ui_browser_pid g <> Some p)
         (trace (kill_known_pid os p u g)).
Proof.
  unfold kill_known_pid. run_body; repeat constructor;
    match goal with
    | H : psutil_Process _ _ = Ok ?q |- _ =>
        apply psutil_Process_found in H as [Hin Hpid]; exists q
    end;
    repeat split; try assumption;
    match goal with
    | H : _ && negb (bool_decide _) = true |- _ =>
        apply andb_prop in H as [_ H]; apply negb_true_iff in H;
        apply bool_decide_eq_false in H; exact H
    end.
Qed.

Lemma kill_known_pid_returns os p u g :
  psutil_errors_only os = true ->
  exists a, out (kill_known_pid os p u g) = Returns a.
Proof.
  unfold psutil_errors_only. intros Hos.
  unfold kill_known_pid. run_body; eauto; exfalso;
    try match goal with
    | H : psutil_Process _ _ = Ok ?q |- _ =>
        apply psutil_Process_found in H as [Hin _];
        pose proof (proj1 (forallb_forall _ _) Hos _ Hin) as Hwb;
        unfold well_behaved, psutil_failure in Hwb;
        repeat (apply andb_prop in Hwb; destruct Hwb as [Hwb ?])
    end;
    repeat match goal with
    | H : ?x = Raise _, H' : context [match ?x with _ => _ end] |- _ =>
        rewrite H in H'
    end; try congruence.
  unfold psutil_Process in *.
  destruct (List.find _ (procs os)); [discriminate |].
  match goal with H : Raise _ = Raise _ |- _ => injection H as <- end.
  discriminate.
Qed.

(** ** The monad laws the handlers are unfolded with *)

Lemma bind_read {A B} (f : Globals -> A) (k : A -> M B) g :
  bind (read f) k g = k (f g) g.
Proof. unfold bind, read. destruct (k (f g) g); reflexivity. Qed.

(** ** The three sweeps *)

Lemma well_behaved_in os p :
  psutil_errors_only os = true -> In p (procs os) -> well_behaved p = true.
Proof. intros Hos Hin. exact (proj1 (forallb_forall _ _) Hos p Hin). Qed.

(** The sweep of the stop path leaves the globals alone and kills only
    processes of the table that pass its tests. *)
Lemma stop_sweep_spec os g :
  final (stop_sweep os g) = g /\
  Forall (fun ev => exists p, ev = ProcKill p /\ In p (procs os) /\
                              stop_selects (selenium_start_time g) p = true)
         (trace (stop_sweep os g)) /\
  no_exit (out (stop_sweep os g)).
Proof.
  unfold stop_sweep.
  apply (for_each_inv (fun g' => g' = g)); [|reflexivity].
  intros p acc g' Hin ->.
  rewrite stop_victim_final, stop_victim_trace.
  repeat split; [|apply stop_victim_no_exit].
  destruct (stop_selects _ p) eqn:Hsel; repeat constructor.
  exists p. auto.
Qed.

Lemma stop_sweep_returns os g :
  psutil_errors_only os = true ->
  exists killed, out (stop_sweep os g) = Returns killed.
Proof.
  intros Hos. unfold stop_sweep.
  apply (for_each_returns (fun g' => g' = g)); [|reflexivity].
  intros p acc g' Hin ->. split; [apply stop_victim_final |].
  apply stop_victim_returns, (well_behaved_in os); assumption.
Qed.

Lemma stop_sweep_visits os g p :
  psutil_errors_only os = true -> In p (procs os) ->
  stop_selects (selenium_start_time g) p = true ->
  In (ProcKill p) (trace (stop_sweep os g)).
Proof.
  intros Hos Hin Hsel. unfold stop_sweep.
  apply (for_each_visits (fun g' => g' = g)) with (x0 := p);
    [| exact Hin | | reflexivity].
  - intros q acc g' Hq ->. split; [apply stop_victim_final |].
    apply stop_victim_returns, (well_behaved_in os); assumption.
  - intros acc g' ->. rewrite stop_victim_trace, Hsel. left. reflexivity.
Qed.

(** The same three facts for the second loop of the signal path. *)
Lemma driver_phase_spec os g :
  final (driver_phase os g) = g /\
  Forall (fun ev => exists p, ev = ProcKill p /\ In p (procs os) /\
                              cleanup_selects p = true)
         (trace (driver_phase os g)) /\
  no_exit (out (driver_phase os g)).
Proof.
  unfold driver_phase.
  apply (for_each_inv (fun g' => g' = g)); [|reflexivity].
  intros p acc g' Hin ->.
  rewrite kill_driver_final, kill_driver_trace.
  repeat split; [|apply kill_driver_no_exit].
  destruct (cleanup_selects p) eqn:Hsel; repeat constructor.
  exists p. auto.
Qed.

Lemma driver_phase_returns os g :
  psutil_errors_only os = true -> exists u, out (driver_phase os g) = Returns u.
Proof.
  intros Hos. unfold driver_phase.
  apply (for_each_returns (fun g' => g' = g)); [|reflexivity].
  intros p acc g' Hin ->. split; [apply kill_driver_final |].
  apply kill_driver_returns, (well_behaved_in os); assumption.
Qed.

Lemma driver_phase_visits os g p :
  psutil_errors_only os = true -> In p (procs os) -> cleanup_selects p = true ->
  In (ProcKill p) (trace (driver_phase os g)).
Proof.
  intros Hos Hin Hsel. unfold driver_phase.
  apply (for_each_visits (fun g' => g' = g)) with (x0 := p);
    [| exact Hin | | reflexivity].
  - intros q acc g' Hq ->. split; [apply kill_driver_final |].
    apply kill_driver_returns, (well_behaved_in os); assumption.
  - intros acc g' ->. rewrite kill_driver_trace, Hsel. left. reflexivity.
Qed.

(** And for the first loop, over the recorded pids. *)
Lemma known_pids_phase_spec os g :
  final (known_pids_phase os g) = g /\
  Forall (fun ev => exists q, ev = ProcKill q /\ In q (procs os) /\
                              pid q ∈ selenium_browser_pids g /\
                              ui_browser_pid g <> Some (pid q))
         (trace (known_pids_phase os g)) /\
  no_exit (out (known_pids_phase os g)).
Proof.
  unfold known_pids_phase. rewrite bind_read.
  apply (for_each_inv (fun g' => g' = g)); [|reflexivity].
  intros p acc g' Hin ->.
  rewrite kill_known_pid_final.
  repeat split; [|apply kill_known_pid_no_exit].
  eapply List.Forall_impl; [|apply kill_known_pid_trace].
  intros ev (q & -> & Hq & <- & Hui). exists q. repeat split; try assumption.
  apply elem_of_elements, list_elem_of_In. exact Hin.
Qed.

Lemma known_pids_phase_returns os g :
  psutil_errors_only os = true ->
  exists u, out (known_pids_phase os g) = Returns u.
Proof.
  intros Hos. unfold known_pids_phase. rewrite bind_read.
  apply (for_each_returns (fun g' => g' = g)); [|reflexivity].
  intros p acc g' Hin ->. split; [apply kill_known_pid_final |].
  apply kill_known_pid_returns, Hos.
Qed.

(** ** [cleanup_selenium_processes] as a whole *)

Lemma cleanup_selenium_processes_total os g :
  final (cleanup_selenium_processes os g) = g /\
  out (cleanup_selenium_processes os g) = Returns tt.
Proof.
  unfold cleanup_selenium_processes, try_except, bind, any_exception, ret.
  destruct (known_pids_phase_spec os g) as (Hf & _ & Hx).
  destruct (known_pids_phase os g) as [g1 t1 [[]|e|c]]; simpl in *; subst;
    [| auto | contradiction].
  destruct (driver_phase_spec os g) as (Hf' & _ & Hx').
  destruct (driver_phase os g) as [g2 t2 [[]|e|c]]; simpl in *; subst;
    [auto | auto | contradiction].
Qed.

Lemma cleanup_selenium_processes_trace os g :
  psutil_errors_only os = true ->
  trace (cleanup_selenium_processes os g) =
  trace (known_pids_phase os g) ++ trace (driver_phase os g).
Proof.
  intros Hos.
  unfold cleanup_selenium_processes, try_except, bind, any_exception, ret.
  destruct (known_pids_phase_spec os g) as (Hf & _ & _).
  destruct (known_pids_phase_returns os g Hos) as [u Hu].
  destruct (known_pids_phase os g) as [g1 t1 o1]; simpl in *; subst.
  destruct (driver_phase_returns os g Hos) as [u' Hu'].
  destruct (driver_phase os g) as [g2 t2 o2]; simpl in *; subst.
  reflexivity.
Qed.

(** ** [api_stop_capture] as a whole *)

Ltac run_handler :=
  unfold terminate_then_kill, terminate, wait, kill;
  unfold try_except, bind, read, call, emit, ret, raise, assign, any_exception;
  split_run.

(** After the sweep the stop path only talks to the tracked child. *)
Lemma api_stop_capture_trace os g :
  capture_active g = true ->
  exists rest,
    trace (api_stop_capture os g) = trace (stop_sweep os g) ++ rest /\
    Forall (fun ev => forall p, ev <> ProcKill p) rest.
Proof.
  intros Hact. unfold api_stop_capture. rewrite bind_read, Hact.
  change (negb true) with false. cbv iota.
  unfold try_except at 1. unfold bind at 1. cbv beta.
  destruct (stop_sweep os g) as [g1 t1 [killed|e|c]]; simpl trace.
  - run_handler; rewrite <- ?app_assoc; eexists; (split; [reflexivity |]);
      simpl; repeat constructor; discriminate.
  - run_handler; rewrite <- ?app_assoc; eexists; (split; [reflexivity |]);
      simpl; repeat constructor; discriminate.
  - exists []. rewrite app_nil_r. split; [reflexivity | constructor].
Qed.

Lemma api_stop_capture_idle os g :
  capture_active g = false ->
  api_stop_capture os g =
  mk_run g [] (Returns [("success", JBool false);
                        ("error", JStr "No capture process running")]).
Proof. intros H. unfold api_stop_capture. rewrite bind_read, H. reflexivity. Qed.

(** A process the stop path kills is in the table and passed the tests
    of the sweep. *)
Lemma api_stop_capture_kills os g p :
  In (ProcKill p) (trace (api_stop_capture os g)) ->
  capture_active g = true /\ In p (procs os) /\
  stop_selects (selenium_start_time g) p = true.
Proof.
  destruct (capture_active g) eqn:Hact.
  - destruct (api_stop_capture_trace os g Hact) as (rest & -> & Hrest).
    intros Hin. apply in_app_or in Hin as [Hin | Hin].
    + destruct (stop_sweep_spec os g) as (_ & Hkills & _).
      rewrite List.Forall_forall in Hkills.
      destruct (Hkills _ Hin) as (q & [= ->] & Hq & Hsel). auto.
    + rewrite List.Forall_forall in Hrest. destruct (Hrest _ Hin p eq_refl).
  - rewrite api_stop_capture_idle by assumption. intros [].
Qed.

Lemma api_stop_capture_visits os g p :
  capture_active g = true -> psutil_errors_only os = true ->
  In p (procs os) -> stop_selects (selenium_start_time g) p = true ->
  In (ProcKill p) (trace (api_stop_capture os g)).
Proof.
  intros Hact Hos Hin Hsel.
  destruct (api_stop_capture_trace os g Hact) as (rest & -> & _).
  apply in_or_app. left. apply stop_sweep_visits; assumption.
Qed.

(** ** What a request may change *)

Lemma session_update_refl g : session_update g g.
Proof. unfold session_update. auto. Qed.

Lemma session_update_trans g1 g2 g3 :
  session_update g1 g2 -> session_update g2 g3 -> session_update g1 g3.
Proof.
  unfold session_update.
  intros (Hp & Hu & Hd & Hh) (Hp' & Hu' & Hd' & Hh').
  repeat split; try congruence.
  destruct Hh' as [Hsame | [Hnone | Hnew]]; auto.
  rewrite Hsame. exact Hh.
Qed.

Section Frame.
Context {A B : Type}.

Lemma frame_ret (a : A) : frame (ret a).
Proof. intros g. apply session_update_refl. Qed.

Lemma frame_raise (e : exn) : frame (@raise A e).
Proof. intros g. apply session_update_refl. Qed.

Lemma frame_os_exit (c : Z) : frame (@os_exit A c).
Proof. intros g. apply session_update_refl. Qed.

Lemma frame_read (f : Globals -> A) : frame (read f).
Proof. intros g. apply session_update_refl. Qed.

Lemma frame_call (r : result A) : frame (call r).
Proof. intros g. destruct r; apply session_update_refl. Qed.

Lemma frame_bind (m : M A) (k : A -> M B) :
  frame m -> (forall a, frame (k a)) -> frame (bind m k).
Proof.
  intros Hm Hk g. unfold bind. specialize (Hm g).
  destruct (m g) as [g1 t1 [a|e|c]]; simpl in *; try exact Hm.
  specialize (Hk a g1). destruct (k a g1) as [g2 t2 o]; simpl in *.
  eapply session_update_trans; eassumption.
Qed.

Lemma frame_try_except (m : M A) (handles : exn -> bool) (h : exn -> M A) :
  frame m -> (forall e, frame (h e)) -> frame (try_except m handles h).
Proof.
  intros Hm Hh g. unfold try_except. specialize (Hm g).
  destruct (m g) as [g1 t1 [a|e|c]]; simpl in *; try exact Hm.
  destruct (handles e); simpl; [|exact Hm].
  specialize (Hh e g1). destruct (h e g1) as [g2 t2 o]; simpl in *.
  eapply session_update_trans; eassumption.
Qed.

Lemma frame_for_each {X} (l : list X) (acc : A) (body : X -> A -> M A) :
  (forall x a, frame (body x a)) -> frame (for_each l acc body).
Proof.
  intros Hbody. revert acc.
  induction l as [|x l IH]; intros acc; simpl.
  - apply frame_ret.
  - intros g. unfold bind. pose proof (Hbody x acc g) as Hx.
    destruct (body x acc g) as [g1 t1 [a|e|c]]; simpl in *; try exact Hx.
    specialize (IH a g1). destruct (for_each l a body g1) as [g2 t2 o].
    simpl in *. eapply session_update_trans; eassumption.
Qed.
End Frame.

Lemma frame_emit ev : frame (emit ev).
Proof. intros g. apply session_update_refl. Qed.

Lemma frame_set_capture_active v : frame (assign (set_capture_active v)).
Proof. intros g. unfold session_update. simpl. auto. Qed.

Lemma frame_set_selenium_start_time v : frame (assign (set_selenium_start_time v)).
Proof. intros g. unfold session_update. simpl. auto. Qed.

Lemma frame_set_ui_browser_start_time v :
  frame (assign (set_ui_browser_start_time v)).
Proof. intros g. unfold session_update. simpl. auto. Qed.

Lemma frame_clear_capture_process : frame (assign (set_capture_process None)).
Proof. intros g. unfold session_update. simpl. repeat split; auto. Qed.

Lemma frame_set_capture_process p path :
  frame (assign (set_capture_process (Some (subprocess_Popen p (ToFile path))))).
Proof. intros g. unfold session_update. simpl. repeat split; eauto. Qed.

Ltac frame_step :=
  first
    [ apply frame_ret | apply frame_raise | apply frame_os_exit
    | apply frame_read | apply frame_call | apply frame_emit
    | apply frame_set_capture_active | apply frame_set_selenium_start_time
    | apply frame_set_ui_browser_start_time | apply frame_clear_capture_process
    | apply frame_set_capture_process
    | apply frame_bind; [| intros ?]
    | apply frame_try_except; [| intros ?]
    | apply frame_for_each; intros ? ?
    | match goal with
      | |- frame (match ?x with _ => _ end) => destruct x
      end ].

Ltac frame_auto := cbv zeta; repeat frame_step.

Lemma frame_api_capture_xpath env : frame (api_capture_xpath env).
Proof.
  unfold api_capture_xpath, attempt, launch_failed, resolve_python.
  frame_auto.
Qed.

Lemma frame_api_stop_capture os : frame (api_stop_capture os).
Proof.
  unfold api_stop_capture, stop_sweep, stop_victim, terminate_then_kill,
    terminate, wait, kill, kill_proc.
  frame_auto.
Qed.

Lemma frame_api_capture_status : frame api_capture_status.
Proof. unfold api_capture_status, global_capture_driver. frame_auto. Qed.

Lemma frame_get_current_url os : frame (get_current_url os).
Proof. unfold get_current_url. frame_auto. Qed.

Lemma frame_open_browser now r url : frame (open_browser now r url).
Proof. unfold open_browser. frame_auto. Qed.

Lemma step_session_update g g' : step g g' -> session_update g g'.
Proof.
  intros []; [ apply frame_api_capture_xpath | apply frame_api_stop_capture
             | apply frame_api_capture_status | apply frame_get_current_url
             | apply frame_open_browser ].
Qed.

Lemma reachable_invariant g : reachable g -> invariant g.
Proof.
  induction 1 as [|g g' _ IH Hstep].
  - unfold invariant. simpl. repeat split. discriminate.
  - apply step_session_update in Hstep.
    destruct IH as (Hp & Hu & Hd & Hh), Hstep as (Hp' & Hu' & Hd' & Hh').
    unfold invariant. repeat split; try congruence.
    intros h Hsome. destruct Hh' as [Hsame | [Hnone | (h' & Hnew & Hout)]].
    + apply Hh. congruence.
    + congruence.
    + congruence.
Qed.

Lemma launched_reachable : reachable launched.
Proof. exact (reach_step _ _ reach_initial (step_launch good_env initial)). Defined.

(** * The claims *)

(** ** C1: the protected pid *)



(** ** C2: processes older than the session *)

(** C2, counterexample.  The signal path kills a driver that was
    created at time 1, before the session started at time 100. *)
Lemma cleanup_kills_older_driver :
  selenium_start_time (session 100 None ∅) = Some 100 /\
  proc_create_time (edge_driver 11 1) = Ok 1 /\
  1 <= 100 /\
  In (ProcKill (edge_driver 11 1))
     (trace (cleanup_selenium_processes (table [edge_driver 11 1])
               (session 100 None ∅))).
Proof. vm_compute. repeat split; try discriminate. left. reflexivity. Qed.

(** C2, as the code has it.  The stop path never kills a process whose
    creation time is at or before [selenium_start_time], whatever its
    name; the signal path does not read creation times. *)
Theorem stop_path_spares_older_processes os g p t t0 :
  selenium_start_time g = Some t0 ->
  proc_create_time p = Ok t ->
  t <= t0 ->
  ~ In (ProcKill p) (trace (api_stop_capture os g)).
Proof.
  intros Hstart Hcreated Hle Hin.
  apply api_stop_capture_kills in Hin as (_ & _ & Hsel).
  unfold stop_selects in Hsel. rewrite Hstart, Hcreated in Hsel.
  destruct (proc_name p); [|discriminate].
  apply andb_prop in Hsel as [Hsel _]. apply andb_prop in Hsel as [_ Hgt].
  lia.
Qed.

Lemma stop_path_spares_older_processes_witness :
  ~ In (ProcKill (edge_driver 11 100))
      (trace (api_stop_capture (table [edge_driver 11 100; driven_edge 12 200])
                (session 100 None ∅))).
Proof.
  apply (stop_path_spares_older_processes
           (table [edge_driver 11 100; driven_edge 12 200])
           (session 100 None ∅) (edge_driver 11 100) 100 100);
    [reflexivity | reflexivity | lia].
Defined.

(** ** C3: the status query *)

Lemma api_capture_status_raises g :
  reachable g ->
  capture_active g = true ->
  api_capture_status g =
  mk_run g [] (Raises (mk_exn NameError "name 'capture_driver' is not defined")).
Proof.
  intros Hreach Hact.
  destruct (reachable_invariant g Hreach) as (_ & _ & Hdriver & _).
  unfold api_capture_status, global_capture_driver.
  rewrite bind_read, Hact. change (negb true) with false. cbv iota.
  unfold bind at 1. rewrite bind_read, Hdriver. reflexivity.
Qed.

(** C3, the code at the failing input.  After a successful launch from
    the initial state the session is active, and [api_capture_status]
    raises [NameError] instead of answering
    [{active: true, currentUrl: null}]: the name [capture_driver] it
    reads is bound nowhere in the module. *)
Theorem status_of_active_session_raises :
  capture_active launched = true /\
  api_capture_status launched =
  mk_run launched []
    (Raises (mk_exn NameError "name 'capture_driver' is not defined")).
Proof.
  split; [reflexivity |].
  apply (api_capture_status_raises launched launched_reachable). reflexivity.
Qed.

(** ** C4: driver processes *)

Lemma stop_selects_driver start p n :
  proc_name p = Ok n -> any_in driver_names (lower n) = true ->
  stop_selects start p = true <->
  exists t0 t, start = Some t0 /\ t0 <> 0 /\ proc_create_time p = Ok t /\ t0 < t.
Proof.
  intros Hname Hdrv. unfold stop_selects. rewrite Hname, Hdrv.
  destruct start as [t0|]; [| split; [discriminate | intros (? & ? & [=] & _)]].
  destruct (proc_create_time p) as [t|e];
    [| split; [discriminate | intros (? & ? & _ & _ & [=] & _)]].
  rewrite orb_true_l, andb_true_r. split.
  - intros H. apply andb_prop in H as [Hnz Hgt].
    exists t0, t. repeat split; lia.
  - intros (t0' & t' & [= <-] & Hnz & [= <-] & Hlt).
    apply andb_true_intro. split; lia.
Qed.

(** C4, counterexample.  The stop path leaves alone the driver created
    at time 100 when the session started at time 100: its name matches,
    its creation time is not strictly later. *)
Lemma stop_path_spares_driver_not_newer :
  proc_name (edge_driver 11 100) = Ok "msedgedriver.exe" /\
  any_in driver_names (lower "msedgedriver.exe") = true /\
  proc_create_time (edge_driver 11 100) = Ok 100 /\
  selenium_start_time (session 100 None ∅) = Some 100 /\
  ~ In (ProcKill (edge_driver 11 100))
      (trace (api_stop_capture (table [edge_driver 11 100]) (session 100 None ∅))).
Proof.
  repeat split. vm_compute. intros [H | [H | []]]; discriminate H.
Qed.

(** C4, as the code has it.  When no process fails unexpectedly: the
    signal path kills every process whose name contains [msedgedriver],
    whatever its creation time and whatever [ui_browser_pid]; the stop
    path kills a process whose name contains [chromedriver],
    [msedgedriver] or [geckodriver] exactly when [selenium_start_time]
    is set, is not zero and is strictly before the creation time of the
    process. *)
Theorem driver_victims os g p n :
  psutil_errors_only os = true ->
  In p (procs os) ->
  proc_name p = Ok n ->
  (any_in ["msedgedriver"] (lower n) = true ->
   In (ProcKill p) (trace (cleanup_selenium_processes os g))) /\
  (capture_active g = true ->
   any_in driver_names (lower n) = true ->
   (In (ProcKill p) (trace (api_stop_capture os g)) <->
    exists t0 t, selenium_start_time g = Some t0 /\ t0 <> 0 /\
                 proc_create_time p = Ok t /\ t0 < t)).
Proof.
  intros Hos Hin Hname. split.
  - intros Hdrv. rewrite cleanup_selenium_processes_trace by assumption.
    apply in_or_app. right. apply driver_phase_visits; try assumption.
    unfold cleanup_selects. rewrite Hname. exact Hdrv.
  - intros Hact Hdrv.
    rewrite <- (stop_selects_driver (selenium_start_time g) p n Hname Hdrv).
    split.
    + intros Hkill. apply api_stop_capture_kills in Hkill as (_ & _ & Hsel).
      exact Hsel.
    + intros Hsel. apply api_stop_capture_visits; assumption.
Qed.

Lemma driver_victims_witness :
  (any_in ["msedgedriver"] (lower "msedgedriver.exe") = true ->
   In (ProcKill (edge_driver 11 1))
      (trace (cleanup_selenium_processes
                (table [driven_edge 12 200; edge_driver 11 1])
                (session 100 (Some 11) ∅)))) /\
  (capture_active (session 100 (Some 11) ∅) = true ->
   any_in driver_names (lower "msedgedriver.exe") = true ->
   (In (ProcKill (edge_driver 11 1))
       (trace (api_stop_capture
                 (table [driven_edge 12 200; edge_driver 11 1])
                 (session 100 (Some 11) ∅))) <->
    exists t0 t, selenium_start_time (session 100 (Some 11) ∅) = Some t0 /\
                 t0 <> 0 /\
                 proc_create_time (edge_driver 11 1) = Ok t /\ t0 < t)).
Proof.
  apply (driver_victims (table [driven_edge 12 200; edge_driver 11 1])
           (session 100 (Some 11) ∅) (edge_driver 11 1) "msedgedriver.exe").
  - reflexivity.
  - right. left. reflexivity.
  - reflexivity.
Defined.

(** ** C5: launch while a session is active *)

(** C5.  A launch requested while [capture_active] is true is answered
    with the error "Capture already running"; the globals (start time,
    handle with its pid, and all the others) are those before the call,
    and nothing was opened, spawned or terminated. *)
Theorem launch_rejected_while_active env g :
  capture_active g = true ->
  api_capture_xpath env g =
  mk_run g [] (Returns [("success", JBool false);
                        ("error", JStr "Capture already running")]).
Proof.
  intros Hact. unfold api_capture_xpath. rewrite bind_read, Hact. reflexivity.
Qed.

Lemma launch_rejected_while_active_witness :
  api_capture_xpath good_env launched =
  mk_run launched [] (Returns [("success", JBool false);
                               ("error", JStr "Capture already running")]).
Proof. apply (launch_rejected_while_active good_env launched). reflexivity. Defined.

(** ** C6: the child that does not stop in time *)

(** C6, counterexample.  The child outlives the five seconds and the
    forced [kill()] itself fails (access denied): the kill was issued,
    but the request ends in the handler of line 332 with
    [success: false], and the session is still marked active. *)
Lemma stop_fails_when_forced_kill_raises :
  let os := stubborn [] (Raise (mk_exn OSError "[WinError 5] Access is denied")) in
  let g := session 100 None ∅ in
  let r := api_stop_capture os g in
  capture_active g = true /\
  (exists h, capture_process g = Some h /\ In (PopenKill h) (trace r)) /\
  capture_active (final r) = true /\
  exists msg, out r = Returns [("success", JBool false); ("error", JStr msg)].
Proof.
  vm_compute. repeat split.
  - eexists. split; [reflexivity |]. right. right. left. reflexivity.
  - eexists. reflexivity.
Qed.

(** The whole run of the stop path in that situation. *)
Lemma api_stop_capture_escalation os g h e :
  capture_active g = true ->
  capture_process g = Some h ->
  psutil_errors_only os = true ->
  child_poll (child os) = None ->
  child_terminate (child os) = Ok tt ->
  child_wait (child os) = Raise e ->
  exn_cls e = TimeoutExpired ->
  child_kill (child os) = Ok tt ->
  exists killed,
    api_stop_capture os g =
    mk_run
      (set_selenium_start_time None
         (set_capture_active false (set_capture_process None g)))
      (trace (stop_sweep os g) ++ [PopenTerminate h; PopenWait h 5; PopenKill h])
      (Returns [("success", JBool true);
                ("message", JStr ("Capture stopped successfully. Killed processes: "
                                  ++ String.concat ", " killed));
                ("status", JStr "stopped")]).
Proof.
  intros Hact Hcp Hos Hpoll Hterm Hwait Hcls Hkill.
  assert (Hcaught : caught_by [TimeoutExpired] e = true)
    by (unfold caught_by; rewrite Hcls; reflexivity).
  unfold api_stop_capture. rewrite bind_read, Hact.
  change (negb true) with false. cbv iota.
  unfold try_except at 1. unfold bind at 1. cbv beta.
  destruct (stop_sweep_spec os g) as (Hfinal & _ & _).
  destruct (stop_sweep_returns os g Hos) as [killed Hkilled].
  destruct (stop_sweep os g) as [g1 t1 o1]; simpl in Hfinal, Hkilled |- *.
  subst g1 o1. exists killed.
  rewrite bind_read, Hcp, Hpoll.
  unfold terminate_then_kill, terminate, wait, kill.
  unfold try_except, bind, read, call, emit, ret, raise, assign.
  rewrite Hterm, Hwait, Hcaught, Hkill. reflexivity.
Qed.

(** C6, as the code has it.  On an active session whose sweep meets no
    unexpected error, when the tracked child is running, [terminate()]
    returns, [wait(timeout=5)] raises [TimeoutExpired] and the forced
    [kill()] returns: the stop path calls [terminate], [wait] with
    timeout 5 and [kill] in that order after the sweep, resets the
    handle, the active flag and the start time, and answers with
    [success: true]. *)
Theorem stop_escalates_to_forced_kill os g h e :
  capture_active g = true ->
  capture_process g = Some h ->
  psutil_errors_only os = true ->
  child_poll (child os) = None ->
  child_terminate (child os) = Ok tt ->
  child_wait (child os) = Raise e ->
  exn_cls e = TimeoutExpired ->
  child_kill (child os) = Ok tt ->
  let r := api_stop_capture os g in
  trace r = trace (stop_sweep os g) ++ [PopenTerminate h; PopenWait h 5; PopenKill h] /\
  capture_process (final r) = None /\
  capture_active (final r) = false /\
  selenium_start_time (final r) = None /\
  exists msg,
    out r = Returns [("success", JBool true); ("message", JStr msg);
                     ("status", JStr "stopped")].
Proof.
  intros Hact Hcp Hos Hpoll Hterm Hwait Hcls Hkill r.
  destruct (api_stop_capture_escalation os g h e) as [killed Hrun];
    try assumption.
  subst r. rewrite Hrun. simpl. repeat split. eexists. reflexivity.
Qed.

Lemma stop_escalates_to_forced_kill_witness :
  let os := stubborn [edge_driver 11 200] (Ok tt) in
  let g := session 100 None ∅ in
  let h := subprocess_Popen 4242 (ToFile "capture_stdout.log") in
  let r := api_stop_capture os g in
  trace r = trace (stop_sweep os g) ++ [PopenTerminate h; PopenWait h 5; PopenKill h] /\
  capture_process (final r) = None /\
  capture_active (final r) = false /\
  selenium_start_time (final r) = None /\
  exists msg,
    out r = Returns [("success", JBool true); ("message", JStr msg);
                     ("status", JStr "stopped")].
Proof.
  apply (stop_escalates_to_forced_kill
           (stubborn [edge_driver 11 200] (Ok tt)) (session 100 None ∅)
           (subprocess_Popen 4242 (ToFile "capture_stdout.log"))
           (mk_exn TimeoutExpired "timed out after 5 seconds"));
    reflexivity.
Defined.

(** ** C7: the launch that fails *)

(** [resolve_python] only computes: it returns a path or raises. *)
Lemma resolve_python_pure env g :
  (exists exe, resolve_python env g = mk_run g [] (Returns exe)) \/
  (exists e, resolve_python env g = mk_run g [] (Raises e)).
Proof.
  unfold resolve_python. cbv zeta.
  repeat match goal with
         | |- context [match ?x with _ => _ end] =>
             lazymatch x with
             | context [match _ with _ => _ end] => fail
             | _ => destruct x
             end
         end;
    unfold ret, raise; eauto.
Qed.

(** C7, counterexample.  The child is spawned, a statement after the
    spawn raises, and [terminate()] in the handler raises too: that
    second error leaves [api_capture_xpath] (no structured reply), the
    globals still describe an active session, and neither log file is
    closed. *)
Lemma failed_launch_propagates_terminate_error :
  let env := env_with (Ok 4242)
               (Raise (mk_exn RuntimeError "Working outside of request context"))
               (Raise (mk_exn OSError "[WinError 5] Access is denied")) in
  let r := api_capture_xpath env initial in
  out r = Raises (mk_exn OSError "[WinError 5] Access is denied") /\
  (exists h, capture_process (final r) = Some h /\
             In (PopenTerminate h) (trace r)) /\
  capture_active (final r) = true /\
  selenium_start_time (final r) = Some 100 /\
  In (FileOpen (stdout_log_path env)) (trace r) /\
  ~ In (FileClose (stdout_log_path env)) (trace r).
Proof.
  vm_compute. repeat split.
  - eexists. split; [reflexivity |]. do 4 right. left. reflexivity.
  - right. left. reflexivity.
  - intros H. repeat (destruct H as [H | H]; [discriminate H |]). exact H.
Qed.

Ltac solve_in :=
  simpl; intros;
  repeat match goal with
         | H : _ \/ _ |- _ => destruct H as [H | H]
         | H : False |- _ => destruct H
         | H : _ = _ |- _ => first [discriminate H | injection H as ?; subst]
         end;
  simpl; tauto.

(** C7, as the code has it.  A launch requested while no session is
    active, in which [terminate()] of line 270 does not raise, either
    succeeds or ends as follows: the reply is [success: false] with the
    cause; [capture_process], [capture_active] and [selenium_start_time]
    are back to their idle values; every log file that was opened is
    closed; and a child that was spawned has had [terminate()] called. *)
Theorem failed_launch_rolls_back env g :
  capture_active g = false ->
  stale_terminate env = Ok tt ->
  let r := api_capture_xpath env g in
  (exists p, out r = Returns [("success", JBool true);
                              ("message", JStr "Capture started");
                              ("status", JStr "running");
                              ("pid", JInt p)]) \/
  (exists cause,
     out r = Returns [("success", JBool false);
                      ("error", JStr ("Failed to start capture: " ++ cause))] /\
     capture_process (final r) = None /\
     capture_active (final r) = false /\
     selenium_start_time (final r) = None /\
     (forall path, In (FileOpen path) (trace r) -> In (FileClose path) (trace r)) /\
     (forall cmd cwd h, In (Spawn cmd cwd h) (trace r) ->
                        In (PopenTerminate h) (trace r))).
Proof.
  intros Hidle Hterm. cbv zeta.
  unfold api_capture_xpath. rewrite bind_read, Hidle. cbv iota.
  unfold attempt, launch_failed.
  unfold try_except, bind, read, call, emit, ret, raise, assign, any_exception.
  rewrite Hterm.
  destruct (resolve_python_pure env g) as [[exe ->] | [e ->]].
  - split_run;
      first [ left; eexists; reflexivity
            | right; eexists; repeat split; solve_in ].
  - split_run; right; eexists; repeat split; solve_in.
Qed.

Lemma failed_launch_rolls_back_witness :
  let env := env_with (Raise (mk_exn OSError "[WinError 2] file not found"))
               (Ok tt) (Ok tt) in
  let r := api_capture_xpath env initial in
  (exists p, out r = Returns [("success", JBool true);
                              ("message", JStr "Capture started");
                              ("status", JStr "running");
                              ("pid", JInt p)]) \/
  (exists cause,
     out r = Returns [("success", JBool false);
                      ("error", JStr ("Failed to start capture: " ++ cause))] /\
     capture_process (final r) = None /\
     capture_active (final r) = false /\
     selenium_start_time (final r) = None /\
     (forall path, In (FileOpen path) (trace r) -> In (FileClose path) (trace r)) /\
     (forall cmd cwd h, In (Spawn cmd cwd h) (trace r) ->
                        In (PopenTerminate h) (trace r))).
Proof.
  apply (failed_launch_rolls_back
           (env_with (Raise (mk_exn OSError "[WinError 2] file not found"))
              (Ok tt) (Ok tt))
           initial);
    reflexivity.
Defined.

(** ** C8: emergency shutdown *)

Lemma frame_signal_handler os : frame (signal_handler os).
Proof.
  unfold signal_handler, cleanup_selenium_processes, known_pids_phase,
    kill_known_pid, driver_phase, kill_driver, terminate_then_kill,
    terminate, wait, kill, kill_proc.
  frame_auto.
Qed.

(** C8.  Whatever the process table and the tracked child answer (any
    call of the sweep, [terminate], [wait] or [kill] may raise), and in
    whatever state, [signal_handler] ends in [os._exit(0)]: it neither
    returns nor raises, and the status is 0. *)
Theorem signal_handler_exits_zero os g : out (signal_handler os g) = Exits 0.
Proof.
  unfold signal_handler. unfold bind at 1. unfold try_except at 1.
  destruct (cleanup_selenium_processes_total os g) as [Hfinal Hout].
  destruct (cleanup_selenium_processes os g) as [g1 t1 o1]; simpl in *.
  subst g1 o1. run_handler; reflexivity.
Qed.

(** ** C9: the set of recorded pids *)

(** C9.  In every state the service can reach, [selenium_browser_pids]
    is empty; emergency shutdown leaves it empty; and the first loop of
    [cleanup_selenium_processes], which runs over it, kills nothing. *)
Theorem selenium_browser_pids_stays_empty g :
  reachable g ->
  selenium_browser_pids g = ∅ /\
  (forall os, selenium_browser_pids (final (signal_handler os g)) = ∅) /\
  (forall os, trace (known_pids_phase os g) = []).
Proof.
  intros Hreach. destruct (reachable_invariant g Hreach) as (Hpids & _).
  repeat split.
  - exact Hpids.
  - intros os. destruct (frame_signal_handler os g) as (Hsame & _). congruence.
  - intros os. unfold known_pids_phase.
    rewrite bind_read, Hpids, elements_empty. reflexivity.
Qed.

Lemma selenium_browser_pids_stays_empty_witness :
  selenium_browser_pids launched = ∅ /\
  (forall os, selenium_browser_pids (final (signal_handler os launched)) = ∅) /\
  (forall os, trace (known_pids_phase os launched) = []).
Proof. apply (selenium_browser_pids_stays_empty launched launched_reachable). Defined.

(** ** C10: the current-URL query *)

(** C10.  In every reachable state with an active session the handle,
    if any, was built by the launch with [stdout] sent to a file, so
    its [stdout] attribute is unset and [get_current_url] answers with
    [success: false] and an error text; it reads nothing and changes
    nothing. *)
Theorem current_url_fails_for_launched_session os g :
  reachable g ->
  capture_active g = true ->
  exists msg,
    get_current_url os g =
    mk_run g [] (Returns [("success", JBool false); ("error", JStr msg)]).
Proof.
  intros Hreach Hact.
  destruct (reachable_invariant g Hreach) as (_ & _ & _ & Hstdout).
  unfold get_current_url. rewrite !bind_read, Hact.
  destruct (capture_process g) as [h|] eqn:Hcp; [|eexists; reflexivity].
  rewrite (Hstdout h eq_refl). eexists. reflexivity.
Qed.

Lemma current_url_fails_for_launched_session_witness :
  exists msg,
    get_current_url (table []) launched =
    mk_run launched [] (Returns [("success", JBool false); ("error", JStr msg)]).
Proof.
  apply (current_url_fails_for_launched_session (table []) launched
           launched_reachable).
  reflexivity.
Defined.

(** * Further properties of the supervisor *)

(** ** Two runs that end at once *)

Lemma api_capture_xpath_busy env g :
  capture_active g = true ->
  api_capture_xpath env g =
  mk_run g [] (Returns [("success", JBool false);
                        ("error", JStr "Capture already running")]).
Proof.
  intros Hact. unfold api_capture_xpath. rewrite bind_read, Hact. reflexivity.
Qed.

Lemma known_pids_phase_idle os g :
  selenium_browser_pids g = ∅ -> trace (known_pids_phase os g) = [].
Proof.
  intros Hpids. unfold known_pids_phase.
  rewrite bind_read, Hpids, elements_empty. reflexivity.
Qed.


(** ** The session fields move together *)

Lemma api_capture_xpath_consistent env g :
  session_consistent g -> session_consistent (final (api_capture_xpath env g)).
Proof.
  unfold session_consistent. destruct (capture_active g) eqn:Hact.
  - intros H. rewrite api_capture_xpath_busy by assumption.
    simpl. rewrite Hact. exact H.
  - intros [Hcp Hstart].
    unfold api_capture_xpath. rewrite bind_read, Hact. cbv iota.
    unfold attempt, launch_failed.
    unfold try_except, bind, read, call, emit, ret, raise, assign, any_exception.
    destruct (resolve_python_pure env g) as [[exe ->] | [e ->]];
      split_run; rewrite ?Hact; simpl; try (split; eauto; congruence);
      simpl in *; congruence.
Qed.

Lemma api_stop_capture_final_cases os g (P : Globals -> Prop) :
  P g ->
  P (set_selenium_start_time None
       (set_capture_active false (set_capture_process None g))) ->
  P (final (api_stop_capture os g)).
Proof.
  intros Hsame Hreset.
  destruct (capture_active g) eqn:Hact;
    [| rewrite api_stop_capture_idle by assumption; exact Hsame].
  unfold api_stop_capture. rewrite bind_read, Hact.
  change (negb true) with false. cbv iota.
  unfold try_except at 1. unfold bind at 1. cbv beta.
  destruct (stop_sweep_spec os g) as (Hfinal & _ & Hexit).
  destruct (stop_sweep os g) as [g1 t1 [killed|e|c]]; simpl in Hfinal, Hexit;
    subst; [| exact Hsame | contradiction].
  run_handler; assumption.
Qed.

Lemma api_stop_capture_final os g :
  final (api_stop_capture os g) = g \/
  final (api_stop_capture os g) =
  set_selenium_start_time None
    (set_capture_active false (set_capture_process None g)).
Proof.
  apply (api_stop_capture_final_cases os g
           (fun g' => g' = g \/
                      g' = set_selenium_start_time None
                             (set_capture_active false
                                (set_capture_process None g))));
    [left | right]; reflexivity.
Qed.

Lemma api_stop_capture_consistent os g :
  session_consistent g -> session_consistent (final (api_stop_capture os g)).
Proof.
  intros H. destruct (api_stop_capture_final os g) as [-> | ->];
    [exact H | unfold session_consistent; simpl; auto].
Qed.

Lemma api_capture_status_final g : final (api_capture_status g) = g.
Proof.
  unfold api_capture_status, global_capture_driver.
  unfold try_except, bind, read, call, ret, raise. split_run; reflexivity.
Qed.

Lemma get_current_url_final os g : final (get_current_url os g) = g.
Proof.
  unfold get_current_url.
  unfold try_except, bind, read, call, ret, raise. split_run; reflexivity.
Qed.

Lemma open_browser_final now r url g :
  final (open_browser now r url g) = set_ui_browser_start_time (Some now) g.
Proof.
  unfold open_browser.
  unfold try_except, bind, read, call, emit, ret, raise, assign. split_run;
    reflexivity.
Qed.

(** X1.  Between two requests the three session fields agree: while
    [capture_active] is true a handle and a start time are recorded, and
    while it is false both are [None]. *)
Theorem session_fields_agree g : reachable g -> session_consistent g.
Proof.
  induction 1 as [|g g' _ IH Hstep].
  - unfold session_consistent. simpl. auto.
  - destruct Hstep.
    + apply api_capture_xpath_consistent, IH.
    + apply api_stop_capture_consistent, IH.
    + rewrite api_capture_status_final. exact IH.
    + rewrite get_current_url_final. exact IH.
    + rewrite open_browser_final. exact IH.
Qed.

Lemma session_fields_agree_witness :
  session_consistent (final (api_stop_capture (table []) launched)).
Proof.
  apply (session_fields_agree (final (api_stop_capture (table []) launched))).
  exact (reach_step _ _ launched_reachable (step_stop (table []) launched)).
Defined.

(** ** The protected pid is never recorded *)

(** X2.  No request and no call of [open_browser] assigns
    [ui_browser_pid]: it is [None] in every state the service reaches,
    and [open_browser] records the opening time only. *)
Theorem ui_browser_pid_never_set g :
  reachable g ->
  ui_browser_pid g = None /\
  forall now r url,
    final (open_browser now r url g) = set_ui_browser_start_time (Some now) g /\
    ui_browser_pid (final (open_browser now r url g)) = None.
Proof.
  intros Hreach. destruct (reachable_invariant g Hreach) as (_ & Hui & _).
  split; [exact Hui |]. intros now r url.
  rewrite open_browser_final. split; [reflexivity | exact Hui].
Qed.

Lemma ui_browser_pid_never_set_witness :
  ui_browser_pid launched = None /\
  forall now r url,
    final (open_browser now r url launched) =
    set_ui_browser_start_time (Some now) launched /\
    ui_browser_pid (final (open_browser now r url launched)) = None.
Proof. apply (ui_browser_pid_never_set launched launched_reachable). Defined.

(** ** Launch: what a success records, and when a child is spawned *)

Lemma resolve_python_returns env g exe :
  out (resolve_python env g) = Returns exe ->
  resolve_python env g = mk_run g [] (Returns exe).
Proof.
  destruct (resolve_python_pure env g) as [[exe' H] | [e H]];
    rewrite H; simpl; congruence.
Qed.

Lemma reset_idle g : idle g -> reset_session g = g.
Proof.
  intros (Hact & Hcp & Hstart). destruct g; simpl in *; subst. reflexivity.
Qed.

(** X3.  When no session is active and every step succeeds (the
    interpreter resolves to an existing file, script and driver exist,
    the logs directory and both log files open, the child starts, the
    reply is built), the launch records the new handle, sets the start
    time to the clock value read before the logs were opened, marks the
    session active and replies with the pid of the child, which was
    started in the base directory with the command line of line 243,
    [[python_exec, '-m', 'modules.capture_xpath', '--browser', 'edge',
    '--driver', driver_path]] ([capture_cmd]). *)
Theorem launch_success env g exe p :
  capture_active g = false ->
  out (resolve_python env g) = Returns exe ->
  path_exists env (script_path env) = true ->
  path_exists env (driver_path env) = true ->
  os_makedirs env = Ok tt ->
  open_w env (stdout_log_path env) = Ok tt ->
  open_w env (stderr_log_path env) = Ok tt ->
  path_exists env exe = true ->
  popen_start env (capture_cmd env exe) = Ok p ->
  started_reply env = Ok tt ->
  api_capture_xpath env g =
  let h := subprocess_Popen p (ToFile (stdout_log_path env)) in
  mk_run
    (set_capture_active true
       (set_capture_process (Some h)
          (set_selenium_start_time (Some (time_time env)) g)))
    [MakeDirs (logs_dir env);
     FileOpen (stdout_log_path env);
     FileOpen (stderr_log_path env);
     Spawn (capture_cmd env exe) (base_dir env) h]
    (Returns [("success", JBool true);
              ("message", JStr "Capture started");
              ("status", JStr "running");
              ("pid", JInt p)]).
Proof.
  intros Hidle Hexe Hscript Hdriver Hdirs Hout Herr Hpy Hspawn Hreply.
  apply resolve_python_returns in Hexe. unfold capture_cmd in Hspawn.
  unfold api_capture_xpath. rewrite bind_read, Hidle. cbv iota.
  unfold attempt, launch_failed.
  unfold try_except, bind, read, call, emit, ret, raise, assign, any_exception.
  rewrite Hexe, Hscript, Hdriver, Hdirs, Hout. simpl.
  rewrite Herr. simpl. rewrite Hpy, Hspawn, Hreply. reflexivity.
Qed.

Lemma launch_success_witness :
  api_capture_xpath good_env initial =
  let h := subprocess_Popen 4242 (ToFile (stdout_log_path good_env)) in
  mk_run
    (set_capture_active true
       (set_capture_process (Some h)
          (set_selenium_start_time (Some (time_time good_env)) initial)))
    [MakeDirs (logs_dir good_env);
     FileOpen (stdout_log_path good_env);
     FileOpen (stderr_log_path good_env);
     Spawn (capture_cmd good_env "C:\proj\.venv\Scripts\python.exe")
       (base_dir good_env) h]
    (Returns [("success", JBool true);
              ("message", JStr "Capture started");
              ("status", JStr "running");
              ("pid", JInt 4242)]).
Proof.
  apply (launch_success good_env initial "C:\proj\.venv\Scripts\python.exe" 4242);
    reflexivity.
Defined.

(** X4.  A child is spawned only by a launch requested while no session
    is active, after the interpreter was resolved to an existing file
    and the script and the driver were found; the spawn is the fourth
    call of the launch, right after the logs directory was made and the
    two log files were opened, in that order.  The child gets the
    command line of line 243, the base directory as working directory
    and no pipe on its standard output. *)
Theorem spawn_only_after_checks env g cmd cwd h :
  In (Spawn cmd cwd h) (trace (api_capture_xpath env g)) ->
  capture_active g = false /\
  path_exists env (script_path env) = true /\
  path_exists env (driver_path env) = true /\
  (exists exe, out (resolve_python env g) = Returns exe /\
               path_exists env exe = true /\ cmd = capture_cmd env exe) /\
  cwd = base_dir env /\
  popen_stdout h = None /\
  exists rest,
    trace (api_capture_xpath env g) =
    [MakeDirs (logs_dir env);
     FileOpen (stdout_log_path env);
     FileOpen (stderr_log_path env);
     Spawn cmd cwd h] ++ rest.
Proof.
  destruct (capture_active g) eqn:Hact.
  { rewrite api_capture_xpath_busy by assumption. intros []. }
  unfold api_capture_xpath. rewrite bind_read, Hact. cbv iota.
  unfold attempt, launch_failed, capture_cmd.
  unfold try_except, bind, read, call, emit, ret, raise, assign, any_exception.
  destruct (resolve_python_pure env g) as [[exe ->] | [e ->]];
    split_run; intros Hin;
    repeat (destruct Hin as [Hin | Hin]; try discriminate Hin);
    try contradiction;
    injection Hin as <- <- <-;
    repeat split;
    first [ reflexivity | assumption | apply negb_false_iff; assumption
          | eexists; repeat split;
            first [reflexivity | apply negb_false_iff; assumption] ].
Qed.

Lemma spawn_only_after_checks_witness :
  capture_active initial = false /\
  path_exists good_env (script_path good_env) = true /\
  path_exists good_env (driver_path good_env) = true /\
  (exists exe, out (resolve_python good_env initial) = Returns exe /\
               path_exists good_env exe = true /\
               capture_cmd good_env "C:\proj\.venv\Scripts\python.exe" =
               capture_cmd good_env exe) /\
  base_dir good_env = base_dir good_env /\
  popen_stdout (subprocess_Popen 4242 (ToFile (stdout_log_path good_env))) = None /\
  exists rest,
    trace (api_capture_xpath good_env initial) =
    [MakeDirs (logs_dir good_env);
     FileOpen (stdout_log_path good_env);
     FileOpen (stderr_log_path good_env);
     Spawn (capture_cmd good_env "C:\proj\.venv\Scripts\python.exe")
       (base_dir good_env)
       (subprocess_Popen 4242 (ToFile (stdout_log_path good_env)))] ++ rest.
Proof.
  apply (spawn_only_after_checks good_env initial
           (capture_cmd good_env "C:\proj\.venv\Scripts\python.exe")
           (base_dir good_env)
           (subprocess_Popen 4242 (ToFile (stdout_log_path good_env)))).
  vm_compute. do 3 right. left. reflexivity.
Defined.

(** ** Launch: configuration errors *)

(** X5.  On an idle service whose interpreter resolves, a missing
    capture script or a missing driver binary ends the launch before
    anything is touched: no directory or log file is created, nothing is
    spawned, the globals are unchanged, and the reply names the missing
    file (the script is checked first). *)
Theorem missing_artifact_leaves_no_trace env g exe :
  idle g ->
  out (resolve_python env g) = Returns exe ->
  path_exists env (script_path env) && path_exists env (driver_path env) = false ->
  api_capture_xpath env g =
  mk_run g []
    (Returns [("success", JBool false);
              ("error",
               JStr ("Failed to start capture: " ++
                     if path_exists env (script_path env)
                     then "Edge WebDriver not found at " ++ driver_path env
                     else "Capture script not found at " ++ script_path env))]).
Proof.
  intros Hidle Hexe Hmissing. pose proof (reset_idle g Hidle) as Hreset.
  destruct Hidle as (Hact & Hcp & Hstart).
  apply resolve_python_returns in Hexe.
  unfold api_capture_xpath. rewrite bind_read, Hact. cbv iota.
  unfold attempt, launch_failed.
  unfold try_except, bind, read, call, emit, ret, raise, assign, any_exception.
  rewrite Hexe.
  destruct (path_exists env (script_path env)); simpl in Hmissing |- *.
  - rewrite Hmissing. simpl. rewrite Hcp. simpl.
    fold (reset_session g). rewrite Hreset. reflexivity.
  - rewrite Hcp. simpl. fold (reset_session g). rewrite Hreset. reflexivity.
Qed.

Lemma missing_artifact_leaves_no_trace_witness :
  let env :=
    {| sys_executable := Some "C:\Python311\python.exe";
       base_dir := "C:\proj\app";
       project_venv := "C:\proj\.venv\Scripts\python.exe";
       script_path := "C:\proj\app\modules\capture_xpath.py";
       driver_path := "C:\proj\app\drivers\msedgedriver.exe";
       logs_dir := "C:\proj\app\logs";
       stdout_log_path := "C:\proj\app\logs\capture_stdout.log";
       stderr_log_path := "C:\proj\app\logs\capture_stderr.log";
       path_exists := fun path => negb (path =? "C:\proj\app\drivers\msedgedriver.exe")%string;
       path_isabs := fun _ => true;
       shutil_which := fun _ => None;
       time_time := 100;
       os_makedirs := Ok tt;
       open_w := fun _ => Ok tt;
       popen_start := fun _ => Ok 4242;
       started_reply := Ok tt;
       stale_terminate := Ok tt |} in
  api_capture_xpath env initial =
  mk_run initial []
    (Returns [("success", JBool false);
              ("error",
               JStr ("Failed to start capture: " ++
                     if path_exists env (script_path env)
                     then "Edge WebDriver not found at " ++ driver_path env
                     else "Capture script not found at " ++ script_path env))]).
Proof.
  intros env.
  apply (missing_artifact_leaves_no_trace env initial "C:\Python311\python.exe").
  - repeat split.
  - reflexivity.
  - reflexivity.
Defined.

(** X6.  The interpreter is checked for existence only after both log
    files were opened (line 245): when it resolves to a path that does
    not exist, an idle service creates the logs directory, truncates and
    closes both log files, spawns nothing, and is idle again. *)
Theorem missing_interpreter_truncates_logs env g exe :
  idle g ->
  out (resolve_python env g) = Returns exe ->
  path_exists env (script_path env) = true ->
  path_exists env (driver_path env) = true ->
  os_makedirs env = Ok tt ->
  open_w env (stdout_log_path env) = Ok tt ->
  open_w env (stderr_log_path env) = Ok tt ->
  path_exists env exe = false ->
  api_capture_xpath env g =
  mk_run g
    [MakeDirs (logs_dir env);
     FileOpen (stdout_log_path env); FileOpen (stderr_log_path env);
     FileClose (stdout_log_path env); FileClose (stderr_log_path env)]
    (Returns [("success", JBool false);
              ("error", JStr ("Failed to start capture: " ++
                              "Python executable not found: " ++ exe))]).
Proof.
  intros Hidle Hexe Hscript Hdriver Hdirs Hout Herr Hpy.
  pose proof (reset_idle g Hidle) as Hreset.
  destruct Hidle as (Hact & Hcp & Hstart).
  apply resolve_python_returns in Hexe.
  unfold api_capture_xpath. rewrite bind_read, Hact. cbv iota.
  unfold attempt, launch_failed.
  unfold try_except, bind, read, call, emit, ret, raise, assign, any_exception.
  rewrite Hexe, Hscript, Hdriver, Hdirs, Hout. simpl.
  rewrite Herr. simpl. rewrite Hpy. simpl. rewrite Hcp. simpl.
  replace (set_selenium_start_time None
             (set_capture_active false
                (set_capture_process None
                   (set_selenium_start_time (Some (time_time env)) g))))
    with (reset_session g) by reflexivity.
  rewrite Hreset. reflexivity.
Qed.

Lemma missing_interpreter_truncates_logs_witness :
  let env :=
    {| sys_executable := Some "C:\Python311\python.exe";
       base_dir := "C:\proj\app";
       project_venv := "C:\proj\.venv\Scripts\python.exe";
       script_path := "C:\proj\app\modules\capture_xpath.py";
       driver_path := "C:\proj\app\drivers\msedgedriver.exe";
       logs_dir := "C:\proj\app\logs";
       stdout_log_path := "C:\proj\app\logs\capture_stdout.log";
       stderr_log_path := "C:\proj\app\logs\capture_stderr.log";
       path_exists := fun path => negb (path =? "C:\Python311\python.exe")%string;
       path_isabs := fun _ => true;
       shutil_which := fun _ => None;
       time_time := 100;
       os_makedirs := Ok tt;
       open_w := fun _ => Ok tt;
       popen_start := fun _ => Ok 4242;
       started_reply := Ok tt;
       stale_terminate := Ok tt |} in
  api_capture_xpath env initial =
  mk_run initial
    [MakeDirs (logs_dir env);
     FileOpen (stdout_log_path env); FileOpen (stderr_log_path env);
     FileClose (stdout_log_path env); FileClose (stderr_log_path env)]
    (Returns [("success", JBool false);
              ("error", JStr ("Failed to start capture: " ++
                              "Python executable not found: " ++
                              "C:\Python311\python.exe"))]).
Proof.
  intros env.
  apply (missing_interpreter_truncates_logs env initial "C:\Python311\python.exe");
    solve [reflexivity | repeat split].
Defined.

(** ** Stop: which processes are safe *)

(** X7.  The stop path never kills a process with an ASCII name that
    contains, lower-cased, none of the three driver names, unless the
    name contains a browser name and the command line shows automation
    ([selenium] or [--remote-debugging-port]): an ordinary browser
    window, its arguments ASCII text without either mark, survives a
    stop, whenever it was created. *)
Theorem stop_path_needs_evidence os g p n :
  proc_name p = Ok n ->
  ascii_text n = true ->
  any_in driver_names (lower n) = false ->
  (any_in browser_names (lower n) = false \/
   exists args, proc_cmdline p = Ok args /\ forallb ascii_text args = true /\
                automation_evidence args = false) ->
  ~ In (ProcKill p) (trace (api_stop_capture os g)).
Proof.
  intros Hname _ Hdrv Hsafe Hin.
  apply api_stop_capture_kills in Hin as (_ & _ & Hsel).
  unfold stop_selects in Hsel. rewrite Hname, Hdrv in Hsel.
  destruct (selenium_start_time g); [|discriminate].
  destruct (proc_create_time p); [|discriminate].
  apply andb_prop in Hsel as [_ Hsel]. simpl in Hsel.
  apply andb_prop in Hsel as [Hbrowser Hevidence].
  destruct Hsafe as [Hno | (args & Hargs & _ & Hnone)]; [congruence |].
  rewrite Hargs in Hevidence. congruence.
Qed.

Lemma stop_path_needs_evidence_witness :
  ~ In (ProcKill (ordinary_edge 13 200))
      (trace (api_stop_capture
                (table [edge_driver 11 200; ordinary_edge 13 200])
                (session 100 None ∅))).
Proof.
  apply (stop_path_needs_evidence
           (table [edge_driver 11 200; ordinary_edge 13 200])
           (session 100 None ∅) (ordinary_edge 13 200) "msedge.exe").
  - reflexivity.
  - reflexivity.
  - reflexivity.
  - right. eexists. repeat split; reflexivity.
Defined.

(** ** Emergency shutdown: which processes are touched *)

Lemma cleanup_selenium_processes_events os g :
  Forall (fun ev => In ev (trace (known_pids_phase os g)) \/
                    In ev (trace (driver_phase os g)))
         (trace (cleanup_selenium_processes os g)).
Proof.
  unfold cleanup_selenium_processes, try_except, bind, any_exception, ret.
  destruct (known_pids_phase_spec os g) as (Hf & _ & _).
  destruct (known_pids_phase os g) as [g1 t1 [[]|e|c]]; simpl in *; subst.
  - destruct (driver_phase os g) as [g2 t2 [[]|e|c]]; simpl;
      rewrite ?app_nil_r; apply Forall_app; split;
      apply List.Forall_forall; auto.
  - rewrite app_nil_r. apply List.Forall_forall; auto.
  - apply List.Forall_forall; auto.
Qed.

Lemma signal_handler_trace os g :
  exists rest,
    trace (signal_handler os g) = trace (cleanup_selenium_processes os g) ++ rest /\
    (rest = [] \/
     exists h, capture_process g = Some h /\ child_poll (child os) = None /\
               rest = trace (terminate_then_kill os h g)).
Proof.
  unfold signal_handler. unfold bind at 1. unfold try_except at 1.
  destruct (cleanup_selenium_processes_total os g) as [Hfinal Hout].
  destruct (cleanup_selenium_processes os g) as [g1 t1 o1]; simpl in *.
  subst g1 o1. rewrite bind_read.
  destruct (capture_process g) as [h|] eqn:Hcp;
    [destruct (child_poll (child os)) eqn:Hpoll |].
  - exists []. split; [reflexivity | left; reflexivity].
  - exists (trace (terminate_then_kill os h g)). split; [| right; eauto].
    unfold bind, try_except, any_exception, ret, os_exit.
    destruct (terminate_then_kill os h g) as [g2 t2 [[]|e|c]]; simpl;
      rewrite ?app_nil_r; reflexivity.
  - exists []. split; [reflexivity | left; reflexivity].
Qed.

Lemma terminate_then_kill_events os h g ev :
  In ev (trace (terminate_then_kill os h g)) ->
  ev = PopenTerminate h \/ ev = PopenWait h 5 \/
  (ev = PopenKill h /\ child_terminate (child os) = Ok tt /\
   exists e, child_wait (child os) = Raise e /\
             caught_by [TimeoutExpired] e = true).
Proof.
  unfold terminate_then_kill, terminate, wait, kill.
  unfold try_except, bind, read, call, emit, ret, raise.
  split_run; intros Hin;
    repeat (destruct Hin as [Hin | Hin]; try contradiction);
    subst; auto;
    repeat match goal with u : unit |- _ => destruct u end;
    right; right; repeat split; eauto.
Qed.

(** X8.  In every state the service reaches, a process killed by
    emergency shutdown is in the process table and its lower-cased name
    contains [msedgedriver]: the handler kills no browser and no other
    process, and the only other signals it sends go to the tracked
    child. *)
Theorem emergency_shutdown_kills_only_edge_drivers os g p :
  reachable g ->
  In (ProcKill p) (trace (signal_handler os g)) ->
  In p (procs os) /\
  exists n, proc_name p = Ok n /\ contains "msedgedriver" (lower n) = true.
Proof.
  intros Hreach Hin.
  destruct (signal_handler_trace os g) as (rest & Htrace & Hrest).
  rewrite Htrace in Hin. apply in_app_or in Hin as [Hin | Hin].
  - pose proof (cleanup_selenium_processes_events os g) as Hev.
    rewrite List.Forall_forall in Hev.
    destruct (Hev _ Hin) as [Hknown | Hdriver].
    + destruct (reachable_invariant g Hreach) as (Hpids & _).
      rewrite (known_pids_phase_idle os g Hpids) in Hknown. destruct Hknown.
    + destruct (driver_phase_spec os g) as (_ & Hkills & _).
      rewrite List.Forall_forall in Hkills.
      destruct (Hkills _ Hdriver) as (q & [= <-] & Hq & Hsel).
      split; [exact Hq |]. unfold cleanup_selects in Hsel.
      destruct (proc_name p) as [n|]; [|discriminate].
      exists n. split; [reflexivity |].
      unfold any_in in Hsel. simpl in Hsel. rewrite orb_false_r in Hsel.
      exact Hsel.
  - destruct Hrest as [-> | (h & _ & _ & ->)]; [destruct Hin |].
    apply terminate_then_kill_events in Hin
      as [Hin | [Hin | [Hin _]]]; discriminate Hin.
Qed.

Lemma emergency_shutdown_kills_only_edge_drivers_witness :
  In (edge_driver 11 1) (procs (table [ordinary_edge 13 200; edge_driver 11 1])) /\
  exists n, proc_name (edge_driver 11 1) = Ok n /\
            contains "msedgedriver" (lower n) = true.
Proof.
  apply (emergency_shutdown_kills_only_edge_drivers
           (table [ordinary_edge 13 200; edge_driver 11 1]) launched
           (edge_driver 11 1) launched_reachable).
  vm_compute. left. reflexivity.
Defined.

(** ** Stop and emergency shutdown: the tracked child *)

Lemma api_stop_capture_child os g :
  capture_active g = true ->
  exists rest,
    trace (api_stop_capture os g) = trace (stop_sweep os g) ++ rest /\
    (rest = [] \/
     exists h, capture_process g = Some h /\ child_poll (child os) = None /\
               rest = trace (terminate_then_kill os h g)).
Proof.
  intros Hact. unfold api_stop_capture. rewrite bind_read, Hact.
  change (negb true) with false. cbv iota.
  unfold try_except at 1. unfold bind at 1. cbv beta.
  destruct (stop_sweep_spec os g) as (Hfinal & _ & Hexit).
  destruct (stop_sweep os g) as [g1 t1 [killed|e|c]]; simpl in Hfinal, Hexit;
    subst; simpl trace;
    [| exists []; split; [reflexivity | left; reflexivity] | contradiction].
  rewrite bind_read.
  destruct (capture_process g) as [h|] eqn:Hcp;
    [destruct (child_poll (child os)) eqn:Hpoll |].
  - exists []. split; [reflexivity | left; reflexivity].
  - exists (trace (terminate_then_kill os h g)). split; [| right; eauto].
    unfold bind, assign, ret, any_exception.
    destruct (terminate_then_kill os h g) as [g2 t2 [[]|e|c]]; simpl;
      rewrite ?app_nil_r; reflexivity.
  - exists []. split; [reflexivity | left; reflexivity].
Qed.

(** X9.  Neither the stop path nor emergency shutdown sends the forced
    [kill()] to the tracked child unless the child was running when
    polled, [terminate()] returned, and [wait(timeout=5)] raised
    [TimeoutExpired]: a child that exits in time is never killed. *)
Theorem forced_kill_only_after_timeout os g h :
  In (PopenKill h) (trace (api_stop_capture os g)) \/
  In (PopenKill h) (trace (signal_handler os g)) ->
  capture_process g = Some h /\
  child_poll (child os) = None /\
  child_terminate (child os) = Ok tt /\
  exists e, child_wait (child os) = Raise e /\
            exn_cls e = TimeoutExpired.
Proof.
  assert (Hcls : forall e, caught_by [TimeoutExpired] e = true ->
                           exn_cls e = TimeoutExpired).
  { intros [[] msg] H; vm_compute in H; try discriminate H; reflexivity. }
  assert (Hchild : forall h0,
             In (PopenKill h) (trace (terminate_then_kill os h0 g)) ->
             h0 = h /\ child_terminate (child os) = Ok tt /\
             exists e, child_wait (child os) = Raise e /\
                       exn_cls e = TimeoutExpired).
  { intros h0 Hin.
    apply terminate_then_kill_events in Hin
      as [Hin | [Hin | (Hin & Hterm & e & Hwait & Hcaught)]];
      try discriminate Hin.
    injection Hin as <-. repeat split; [exact Hterm |].
    exists e. split; [exact Hwait | apply Hcls, Hcaught]. }
  intros [Hin | Hin].
  - destruct (capture_active g) eqn:Hact;
      [| rewrite api_stop_capture_idle in Hin by assumption; destruct Hin].
    destruct (api_stop_capture_child os g Hact) as (rest & Htrace & Hrest).
    rewrite Htrace in Hin. apply in_app_or in Hin as [Hin | Hin].
    + destruct (stop_sweep_spec os g) as (_ & Hkills & _).
      rewrite List.Forall_forall in Hkills.
      destruct (Hkills _ Hin) as (q & Hq & _). discriminate Hq.
    + destruct Hrest as [-> | (h0 & Hcp & Hpoll & ->)]; [destruct Hin |].
      destruct (Hchild h0 Hin) as (-> & Hterm & He). auto.
  - destruct (signal_handler_trace os g) as (rest & Htrace & Hrest).
    rewrite Htrace in Hin. apply in_app_or in Hin as [Hin | Hin].
    + pose proof (cleanup_selenium_processes_events os g) as Hev.
      rewrite List.Forall_forall in Hev.
      destruct (Hev _ Hin) as [Hknown | Hdriver].
      * destruct (known_pids_phase_spec os g) as (_ & Hkills & _).
        rewrite List.Forall_forall in Hkills.
        destruct (Hkills _ Hknown) as (q & Hq & _). discriminate Hq.
      * destruct (driver_phase_spec os g) as (_ & Hkills & _).
        rewrite List.Forall_forall in Hkills.
        destruct (Hkills _ Hdriver) as (q & Hq & _). discriminate Hq.
    + destruct Hrest as [-> | (h0 & Hcp & Hpoll & ->)]; [destruct Hin |].
      destruct (Hchild h0 Hin) as (-> & Hterm & He). auto.
Qed.

Lemma forced_kill_only_after_timeout_witness :
  let h := subprocess_Popen 4242 (ToFile "capture_stdout.log") in
  let os := stubborn [] (Ok tt) in
  capture_process (session 100 None ∅) = Some h /\
  child_poll (child os) = None /\
  child_terminate (child os) = Ok tt /\
  exists e, child_wait (child os) = Raise e /\ exn_cls e = TimeoutExpired.
Proof.
  apply (forced_kill_only_after_timeout (stubborn [] (Ok tt))
           (session 100 None ∅)
           (subprocess_Popen 4242 (ToFile "capture_stdout.log"))).
  left. vm_compute. do 2 right. left. reflexivity.
Defined.

(** ** Stop: all or nothing *)

(** X10.  A stop requested on an active session never raises and never
    leaves the interpreter.  Either it replies [success: true] and the
    session is reset (handle, active flag and start time cleared, the
    other globals kept), or it replies [success: false] and the globals
    are exactly those before the call, so the stop can be asked again. *)
Theorem stop_is_all_or_nothing os g :
  capture_active g = true ->
  (exists msg,
     out (api_stop_capture os g) =
     Returns [("success", JBool true); ("message", JStr msg);
              ("status", JStr "stopped")] /\
     final (api_stop_capture os g) = reset_session g) \/
  (exists msg,
     out (api_stop_capture os g) =
     Returns [("success", JBool false); ("error", JStr msg)] /\
     final (api_stop_capture os g) = g).
Proof.
  intros Hact.
  assert (Hrun : exists r, api_stop_capture os g = r /\
             ((exists msg, out r = Returns [("success", JBool true);
                                            ("message", JStr msg);
                                            ("status", JStr "stopped")] /\
                           final r = reset_session g) \/
              (exists msg, out r = Returns [("success", JBool false);
                                            ("error", JStr msg)] /\
                           final r = g))).
  { unfold api_stop_capture. rewrite bind_read, Hact.
    change (negb true) with false. cbv iota.
    unfold try_except at 1. unfold bind at 1. cbv beta.
    destruct (stop_sweep_spec os g) as (Hfinal & _ & Hexit).
    destruct (stop_sweep os g) as [g1 t1 [killed|e|c]];
      simpl in Hfinal, Hexit; subst; [| | contradiction].
    - unfold reset_session. run_handler; eexists; (split; [reflexivity |]);
        simpl; first [ left; eexists; split; reflexivity
                     | right; eexists; split; reflexivity ].
    - eexists. split; [reflexivity |]. right. eexists. split; reflexivity. }
  destruct Hrun as (r & -> & H). exact H.
Qed.

Lemma stop_is_all_or_nothing_witness :
  let os := stubborn [] (Raise (mk_exn OSError "[WinError 5] Access is denied")) in
  let g := session 100 None ∅ in
  (exists msg,
     out (api_stop_capture os g) =
     Returns [("success", JBool true); ("message", JStr msg);
              ("status", JStr "stopped")] /\
     final (api_stop_capture os g) = reset_session g) \/
  (exists msg,
     out (api_stop_capture os g) =
     Returns [("success", JBool false); ("error", JStr msg)] /\
     final (api_stop_capture os g) = g).
Proof.
  apply (stop_is_all_or_nothing
           (stubborn [] (Raise (mk_exn OSError "[WinError 5] Access is denied")))
           (session 100 None ∅)).
  reflexivity.
Defined.

(** ** Stop: what the reply reports *)

Lemma stop_victim_out p killed g :
  well_behaved p = true ->
  out (stop_victim p killed g) =
  Returns (killed ++ reported_names (selenium_start_time g) [p]).
Proof.
  unfold well_behaved, psutil_failure. intros H.
  repeat (apply andb_prop in H; destruct H as [H ?]).
  unfold reported_names, stop_selects, automation_evidence, driver_names,
    browser_names.
  unfold stop_victim. run_body;
    rewrite ?app_nil_r; try reflexivity; try discriminate;
    simpl in *; rewrite ?caught_by_stop in *; congruence.
Qed.

Lemma stop_sweep_out os g :
  psutil_errors_only os = true ->
  out (stop_sweep os g) =
  Returns (reported_names (selenium_start_time g) (procs os)).
Proof.
  unfold psutil_errors_only, stop_sweep. intros Hos.
  change (reported_names (selenium_start_time g) (procs os))
    with ([] ++ reported_names (selenium_start_time g) (procs os)).
  generalize (@nil string) as acc.
  induction (procs os) as [|p l IH]; intros acc.
  - simpl. rewrite app_nil_r. reflexivity.
  - simpl in Hos. apply andb_prop in Hos as [Hp Hl].
    simpl for_each. unfold bind.
    pose proof (stop_victim_final p acc g) as Hfinal.
    pose proof (stop_victim_out p acc g Hp) as Hout.
    destruct (stop_victim p acc g) as [g1 t1 o1]; simpl in Hfinal, Hout.
    subst g1 o1. specialize (IH Hl (acc ++ reported_names (selenium_start_time g) [p])).
    destruct (for_each l _ stop_victim g) as [g2 t2 o2]; simpl in IH |- *.
    rewrite IH. f_equal. rewrite <- app_assoc. f_equal.
    unfold reported_names. simpl. rewrite app_nil_r. reflexivity.
Qed.

(** X11.  When the names and arguments of the processes are ASCII
    text, no process fails unexpectedly and the stop succeeds, the
    message of the reply lists, separated by [", "], the lower-cased
    names of exactly the processes that passed the tests of the sweep
    and whose [kill()] returned, in the order of the process table; a
    victim whose [kill()] was refused is not listed. *)
Theorem stop_reply_lists_killed_names os g msg :
  capture_active g = true ->
  ascii_processes os = true ->
  psutil_errors_only os = true ->
  out (api_stop_capture os g) =
  Returns [("success", JBool true); ("message", JStr msg);
           ("status", JStr "stopped")] ->
  msg = String.append "Capture stopped successfully. Killed processes: "
          (String.concat ", "
             (reported_names (selenium_start_time g) (procs os))).
Proof.
  intros Hact _ Hos.
  unfold api_stop_capture. rewrite bind_read, Hact.
  change (negb true) with false. cbv iota.
  unfold try_except at 1. unfold bind at 1. cbv beta.
  destruct (stop_sweep_spec os g) as (Hfinal & _ & _).
  pose proof (stop_sweep_out os g Hos) as Hout.
  destruct (stop_sweep os g) as [g1 t1 o1]; simpl in Hfinal, Hout.
  subst g1 o1.
  run_handler; intros Hreply; try discriminate Hreply;
    injection Hreply as <-; reflexivity.
Qed.

Lemma stop_reply_lists_killed_names_witness :
  "Capture stopped successfully. Killed processes: msedgedriver.exe, msedge.exe" =
  String.append "Capture stopped successfully. Killed processes: "
    (String.concat ", "
       (reported_names (selenium_start_time (session 100 None ∅))
          (procs (table [edge_driver 11 200; ordinary_edge 13 200;
                         driven_edge 12 200; edge_driver 14 50])))).
Proof.
  apply (stop_reply_lists_killed_names
           (table [edge_driver 11 200; ordinary_edge 13 200;
                   driven_edge 12 200; edge_driver 14 50])
           (session 100 None ∅)); reflexivity.
Defined.

(** * Properties of the routes over the captured files *)

#[local] Arguments String.eqb : simpl never.

(** ** Lists: removing and inserting *)

Lemma list_insert_at_length {A} (j : nat) (x : A) (m : list A) :
  length (list_insert_at j x m) = S (length m).
Proof.
  unfold list_insert_at. rewrite length_app. simpl.
  rewrite length_take, length_drop. lia.
Qed.

Lemma list_insert_at_lookup {A} (j : nat) (x : A) (m : list A) :
  (j <= length m)%nat -> list_insert_at j x m !! j = Some x.
Proof.
  revert m. induction j as [|j IH]; intros [|y m] Hj; simpl in *;
    try reflexivity; try lia.
  apply IH. lia.
Qed.

Lemma list_insert_at_delete {A} (j : nat) (x : A) (m : list A) :
  (j <= length m)%nat -> delete j (list_insert_at j x m) = m.
Proof.
  revert m. induction j as [|j IH]; intros [|y m] Hj; simpl in *;
    try reflexivity; try lia.
  f_equal. apply IH. lia.
Qed.

Lemma list_insert_at_perm {A} (j : nat) (x : A) (m : list A) :
  list_insert_at j x m ≡ₚ x :: m.
Proof.
  unfold list_insert_at. rewrite <- Permutation_middle.
  rewrite take_drop. reflexivity.
Qed.

Lemma list_insert_at_restore {A} (i : nat) (x : A) (l : list A) :
  l !! i = Some x -> list_insert_at i x (delete i l) = l.
Proof.
  unfold list_insert_at.
  revert i. induction l as [|y l IH]; intros [|i] Hi; simpl in *;
    try discriminate.
  - injection Hi as ->. reflexivity.
  - f_equal. apply IH. exact Hi.
Qed.

(** ** Running a route *)

Ltac run_route :=
  unfold fs_try, fs_bind, fs_call, fs_ret, fs_raise, read_json, write_json,
    entry_exists, os_remove.

Ltac split_route :=
  repeat (simpl;
          match goal with
          | |- context [match ?x with _ => _ end] =>
              lazymatch x with
              | context [match _ with _ => _ end] => fail
              | _ => destruct x eqn:?
              end
          end);
  simpl.

Lemma in_range_list (i : Z) (l : list pyval) :
  in_range (PInt i) (PList l) = FOk (bool_decide (0 <= i < Z.of_nat (length l))).
Proof.
  unfold in_range. simpl. destruct (0 <=? i) eqn:H0.
  - f_equal. destruct (i <? Z.of_nat (length l)) eqn:H1;
      symmetry; [apply bool_decide_eq_true | apply bool_decide_eq_false]; lia.
  - f_equal. symmetry. apply bool_decide_eq_false. lia.
Qed.

(** ** Documents that [json.dump] can write *)

Lemma dumpable_list l :
  dumpable (PList l) = true <-> forall x, x ∈ l -> dumpable x = true.
Proof.
  change (dumpable (PList l)) with (forallb dumpable l).
  rewrite forallb_forall. split; intros H x Hx; apply H.
  - apply list_elem_of_In, Hx.
  - apply list_elem_of_In, Hx.
Qed.

Lemma dumpable_perm l l' :
  l ≡ₚ l' -> dumpable (PList l) = true -> dumpable (PList l') = true.
Proof.
  intros Hperm. rewrite !dumpable_list. intros H x Hx. apply H.
  rewrite Hperm. exact Hx.
Qed.

Lemma dumpable_lookup l i x :
  dumpable (PList l) = true -> l !! i = Some x -> dumpable x = true.
Proof.
  rewrite dumpable_list. intros H Hx. apply H.
  eapply list_elem_of_lookup_2, Hx.
Qed.

Lemma dumpable_insert l i x :
  dumpable (PList l) = true -> dumpable x = true ->
  dumpable (PList (<[i := x]> l)) = true.
Proof.
  rewrite !dumpable_list. intros H Hx y Hy.
  apply list_elem_of_lookup in Hy as [k Hk].
  destruct (decide (k = i)) as [-> | Hne].
  - destruct (decide (i < length l)%nat) as [Hlt | Hge].
    + rewrite list_lookup_insert_eq in Hk by exact Hlt. congruence.
    + rewrite list_insert_ge in Hk by lia. apply H.
      eapply list_elem_of_lookup_2, Hk.
  - rewrite list_lookup_insert_ne in Hk by congruence. apply H.
    eapply list_elem_of_lookup_2, Hk.
Qed.

Lemma dumpable_members d :
  dumpable (PDict d) = true <->
  forall k v, (k, v) ∈ d -> encodable k = true /\ dumpable v = true.
Proof.
  change (dumpable (PDict d))
    with (forallb (fun kv => encodable (fst kv) && dumpable (snd kv)) d).
  rewrite forallb_forall. split.
  - intros H k v Hin. apply list_elem_of_In, H, andb_prop in Hin. exact Hin.
  - intros H [k v] Hin. apply list_elem_of_In, H in Hin as [Hk Hv].
    simpl. rewrite Hk, Hv. reflexivity.
Qed.

Lemma dict_set_members k v d k' v' :
  (k', v') ∈ dict_set k v d -> (k', v') = (k, v) \/ (k', v') ∈ d.
Proof.
  induction d as [|[k0 v0] d IH]; simpl.
  - intros Hin. apply list_elem_of_singleton in Hin. auto.
  - destruct (k0 =? k)%string.
    + intros Hin. apply elem_of_cons in Hin as [-> | Hin]; [auto |].
      right. apply list_elem_of_further, Hin.
    + intros Hin. apply elem_of_cons in Hin as [-> | Hin].
      * right. apply list_elem_of_here.
      * destruct (IH Hin) as [-> | Hin']; [auto |].
        right. apply list_elem_of_further, Hin'.
Qed.

Lemma dict_set_has k v d : (k, v) ∈ dict_set k v d.
Proof.
  induction d as [|[k0 v0] d IH]; simpl.
  - apply list_elem_of_here.
  - destruct (k0 =? k)%string.
    + apply list_elem_of_here.
    + apply list_elem_of_further, IH.
Qed.

Lemma dumpable_dict_set k v d :
  encodable k = true -> dumpable v = true -> dumpable (PDict d) = true ->
  dumpable (PDict (dict_set k v d)) = true.
Proof.
  rewrite !dumpable_members. intros Hk Hv H k' v' Hin.
  apply dict_set_members in Hin as [[= -> ->] | Hin]; auto.
Qed.

Lemma dumpable_dict_get k v d :
  dumpable (PDict d) = true -> dict_get k d = Some v -> dumpable v = true.
Proof.
  rewrite dumpable_members. unfold dict_get. intros H Hget.
  destruct (List.find _ d) as [[k' v']|] eqn:Hfind; [| discriminate].
  injection Hget as <-. apply find_some in Hfind as [Hin _].
  apply list_elem_of_In in Hin. apply (H k' v' Hin).
Qed.

#[local] Arguments dumpable : simpl never.

(** ** [api_reorder] *)

Lemma api_reorder_run rt request req page i j l x d :
  request_json request = FOk req ->
  subscript req "page" = FOk (PStr page) ->
  subscript req "oldIndex" = FOk (PInt i) ->
  subscript req "newIndex" = FOk (PInt j) ->
  plain rt page = true ->
  d !! page = Some (JsonFile (PList l)) ->
  dumpable (PList l) = true ->
  0 <= i < Z.of_nat (length l) ->
  0 <= j < Z.of_nat (length l) ->
  l !! Z.to_nat i = Some x ->
  api_reorder rt request d =
  (<[page := JsonFile (PList (list_insert_at (Z.to_nat j) x
                                (delete (Z.to_nat i) l)))]> d,
   FOk success).
Proof.
  intros Hreq Hpage Hold Hnew Hplain Hfile Hdump Hi Hj Hx.
  assert (Hdump' : dumpable (PList (list_insert_at (Z.to_nat j) x
                                      (delete (Z.to_nat i) l))) = true).
  { eapply dumpable_perm; [| exact Hdump].
    rewrite list_insert_at_perm. apply delete_Permutation, Hx. }
  unfold api_reorder, both_in_range, move_item. run_route.
  rewrite Hreq, Hpage, Hold, Hnew. simpl. rewrite Hplain, Hfile.
  rewrite !in_range_list.
  rewrite !bool_decide_eq_true_2 by assumption. simpl.
  rewrite Hx, Hdump'. reflexivity.
Qed.

(** X12.  [api_reorder] with a plain page name whose file holds a JSON
    list that [json.dump] can write, and two indices in range, rewrites
    that file only, with the item of [oldIndex] now at [newIndex] and
    the other items in their former order (the new list is a
    permutation of the old one), and answers [{success: true}]. *)
Theorem api_reorder_moves_item rt request req page i j l d :
  request_json request = FOk req ->
  subscript req "page" = FOk (PStr page) ->
  subscript req "oldIndex" = FOk (PInt i) ->
  subscript req "newIndex" = FOk (PInt j) ->
  plain rt page = true ->
  d !! page = Some (JsonFile (PList l)) ->
  dumpable (PList l) = true ->
  0 <= i < Z.of_nat (length l) ->
  0 <= j < Z.of_nat (length l) ->
  exists l',
    api_reorder rt request d = (<[page := JsonFile (PList l')]> d, FOk success) /\
    l' !! Z.to_nat j = l !! Z.to_nat i /\
    delete (Z.to_nat j) l' = delete (Z.to_nat i) l /\
    l' ≡ₚ l.
Proof.
  intros Hreq Hpage Hold Hnew Hplain Hfile Hdump Hi Hj.
  destruct (lookup_lt_is_Some_2 l (Z.to_nat i)) as [x Hx]; [lia |].
  assert (Hlen : (Z.to_nat j <= length (delete (Z.to_nat i) l))%nat).
  { rewrite length_delete by eauto. lia. }
  eexists. split; [eapply api_reorder_run; eassumption |].
  repeat split.
  - rewrite Hx. apply list_insert_at_lookup, Hlen.
  - apply list_insert_at_delete, Hlen.
  - rewrite list_insert_at_perm. symmetry. apply delete_Permutation, Hx.
Qed.

Lemma api_reorder_moves_item_witness :
  exists l',
    api_reorder plain_runtime
      (post [("page", PStr "login.json"); ("oldIndex", PInt 0); ("newIndex", PInt 2)])
      sample_dir =
    (<["login.json" := JsonFile (PList l')]> sample_dir, FOk success) /\
    l' !! Z.to_nat 2 = login_fields !! Z.to_nat 0 /\
    delete (Z.to_nat 2) l' = delete (Z.to_nat 0) login_fields /\
    l' ≡ₚ login_fields.
Proof.
  apply (api_reorder_moves_item plain_runtime
           (post [("page", PStr "login.json"); ("oldIndex", PInt 0);
                  ("newIndex", PInt 2)])
           (PDict [("page", PStr "login.json"); ("oldIndex", PInt 0);
                   ("newIndex", PInt 2)])
           "login.json" 0 2 login_fields sample_dir);
    try reflexivity; simpl; lia.
Defined.

(** X13.  Moving an item from [i] to [j] and then from [j] to [i]
    restores the document of the file, and so the directory (files
    being known by the documents they decode to): the second
    [api_reorder] undoes the first. *)
Theorem api_reorder_undo rt request back req req' page i j l d :
  request_json request = FOk req ->
  subscript req "page" = FOk (PStr page) ->
  subscript req "oldIndex" = FOk (PInt i) ->
  subscript req "newIndex" = FOk (PInt j) ->
  request_json back = FOk req' ->
  subscript req' "page" = FOk (PStr page) ->
  subscript req' "oldIndex" = FOk (PInt j) ->
  subscript req' "newIndex" = FOk (PInt i) ->
  plain rt page = true ->
  d !! page = Some (JsonFile (PList l)) ->
  dumpable (PList l) = true ->
  0 <= i < Z.of_nat (length l) ->
  0 <= j < Z.of_nat (length l) ->
  exists d1,
    api_reorder rt request d = (d1, FOk success) /\
    api_reorder rt back d1 = (d, FOk success).
Proof.
  intros Hreq Hpage Hold Hnew Hreq' Hpage' Hold' Hnew' Hplain Hfile Hdump Hi Hj.
  destruct (lookup_lt_is_Some_2 l (Z.to_nat i)) as [x Hx]; [lia |].
  assert (Hlen : (Z.to_nat j <= length (delete (Z.to_nat i) l))%nat).
  { rewrite length_delete by eauto. lia. }
  set (l1 := list_insert_at (Z.to_nat j) x (delete (Z.to_nat i) l)).
  assert (Hlen1 : length l1 = length l).
  { unfold l1. rewrite list_insert_at_length, length_delete by eauto. lia. }
  assert (Hdump1 : dumpable (PList l1) = true).
  { eapply dumpable_perm; [| exact Hdump]. unfold l1.
    rewrite list_insert_at_perm. apply delete_Permutation, Hx. }
  exists (<[page := JsonFile (PList l1)]> d).
  split; [eapply api_reorder_run; eassumption |].
  rewrite (api_reorder_run rt back req' page j i l1 x
             (<[page := JsonFile (PList l1)]> d) Hreq' Hpage' Hold' Hnew' Hplain).
  - unfold Dir in *. rewrite insert_insert_eq. unfold l1.
    rewrite list_insert_at_delete by exact Hlen.
    rewrite list_insert_at_restore by exact Hx.
    rewrite insert_id by exact Hfile. reflexivity.
  - apply lookup_insert_eq.
  - exact Hdump1.
  - lia.
  - lia.
  - apply list_insert_at_lookup, Hlen.
Qed.

Lemma api_reorder_undo_witness :
  exists d1,
    api_reorder plain_runtime
      (post [("page", PStr "login.json"); ("oldIndex", PInt 0); ("newIndex", PInt 2)])
      sample_dir = (d1, FOk success) /\
    api_reorder plain_runtime
      (post [("page", PStr "login.json"); ("oldIndex", PInt 2); ("newIndex", PInt 0)])
      d1 = (sample_dir, FOk success).
Proof.
  apply (api_reorder_undo plain_runtime
           (post [("page", PStr "login.json"); ("oldIndex", PInt 0);
                  ("newIndex", PInt 2)])
           (post [("page", PStr "login.json"); ("oldIndex", PInt 2);
                  ("newIndex", PInt 0)])
           (PDict [("page", PStr "login.json"); ("oldIndex", PInt 0);
                   ("newIndex", PInt 2)])
           (PDict [("page", PStr "login.json"); ("oldIndex", PInt 2);
                   ("newIndex", PInt 0)])
           "login.json" 0 2 login_fields sample_dir);
    try reflexivity; simpl; lia.
Defined.

(** ** Routes whose whole body is inside [try] *)

Ltac use_plain :=
  match goal with
  | Hn : names_plain ?rt _ _, Hp : plain ?rt ?s = false |- _ =>
      rewrite (Hn _ s ltac:(eassumption) ltac:(subst; eassumption)) in Hp;
      discriminate Hp
  end.

Ltac kept :=
  first [ left; reflexivity
        | right; eexists; split; [| reflexivity]; eauto ].

Ltac answered :=
  unfold answers_or_keeps; eexists; split; [reflexivity |];
  simpl; intros Hreply;
  first [ reflexivity | kept | exfalso; apply Hreply; reflexivity ].

(** X14.  [api_update_name], [api_reorder], [api_delete_field] and
    [api_delete_json], on a request whose page or file name is plain,
    never raise: they always answer.  Unless the answer is
    [{success: true}], the directory is the one before the call, except
    that the three routes that rewrite a page may leave that one file
    cut short (the file is truncated before [json.dump] has written
    it); [api_delete_json] leaves the directory as it was. *)
Theorem enclosed_routes_answer_or_keep rt request d :
  names_plain rt request "page" ->
  names_plain rt request "file" ->
  answers_or_keeps d (api_update_name rt request d) /\
  answers_or_keeps d (api_reorder rt request d) /\
  answers_or_keeps d (api_delete_field rt request d) /\
  exists reply,
    (api_delete_json rt request d).2 = FOk reply /\
    (reply <> success -> (api_delete_json rt request d).1 = d).
Proof.
  intros Hpage Hfile. repeat split.
  - unfold api_update_name, entry_name. run_route.
    split_route; try use_plain; answered.
  - unfold api_reorder, entry_name. run_route.
    split_route; try use_plain; answered.
  - unfold api_delete_field, entry_name. run_route.
    split_route; try use_plain; answered.
  - unfold api_delete_json, entry_name. run_route.
    split_route; try use_plain; answered.
Qed.

Lemma enclosed_routes_answer_or_keep_witness :
  answers_or_keeps sample_dir
    (api_update_name plain_runtime
       (post [("page", PStr "login.json"); ("index", PInt 0);
              ("name", PStr lone_surrogate)]) sample_dir) /\
  answers_or_keeps sample_dir
    (api_reorder plain_runtime
       (post [("page", PStr "login.json"); ("index", PInt 0);
              ("name", PStr lone_surrogate)]) sample_dir) /\
  answers_or_keeps sample_dir
    (api_delete_field plain_runtime
       (post [("page", PStr "login.json"); ("index", PInt 0);
              ("name", PStr lone_surrogate)]) sample_dir) /\
  exists reply,
    (api_delete_json plain_runtime
       (post [("page", PStr "login.json"); ("index", PInt 0);
              ("name", PStr lone_surrogate)]) sample_dir).2 = FOk reply /\
    (reply <> success ->
     (api_delete_json plain_runtime
        (post [("page", PStr "login.json"); ("index", PInt 0);
               ("name", PStr lone_surrogate)]) sample_dir).1 = sample_dir).
Proof.
  apply (enclosed_routes_answer_or_keep plain_runtime
           (post [("page", PStr "login.json"); ("index", PInt 0);
                  ("name", PStr lone_surrogate)]) sample_dir).
  - intros req name [= <-] [= <-]. reflexivity.
  - intros req name [= <-] [=].
Defined.

(** ** Objects: reading a member after writing one *)

Lemma dict_get_set_eq k v d : dict_get k (dict_set k v d) = Some v.
Proof.
  unfold dict_get. induction d as [|[k' v'] d IH]; simpl.
  - rewrite String.eqb_refl. reflexivity.
  - destruct (k' =? k)%string eqn:Hk; simpl.
    + rewrite String.eqb_refl. reflexivity.
    + rewrite Hk. exact IH.
Qed.

Lemma dict_get_set_ne k k' v d :
  k' <> k -> dict_get k' (dict_set k v d) = dict_get k' d.
Proof.
  intros Hne. unfold dict_get. induction d as [|[k0 v0] d IH]; simpl.
  - destruct (k =? k')%string eqn:Hk; [| reflexivity].
    apply String.eqb_eq in Hk. congruence.
  - destruct (k0 =? k)%string eqn:Hk0; simpl.
    + apply String.eqb_eq in Hk0. subst k0.
      destruct (k =? k')%string eqn:Hk; [| reflexivity].
      apply String.eqb_eq in Hk. congruence.
    + destruct (k0 =? k')%string; [reflexivity | exact IH].
Qed.

Lemma subscript_has v key x :
  subscript v key = FOk x -> lacks key v = FOk false /\ has_key key v = FOk true.
Proof.
  unfold subscript, lacks, has_key. destruct v as [| | | |l|d]; try discriminate.
  destruct (dict_get key d) as [y|] eqn:Hget; [|discriminate]. intros _.
  assert (Hd : truthy (PDict d) = true).
  { destruct d; [discriminate Hget | reflexivity]. }
  rewrite Hd. simpl. rewrite ?bool_decide_eq_true_2 by eauto. auto.
Qed.

(** ** [api_update_name] *)

Lemma api_update_name_run rt request req page i v l m d :
  request_json request = FOk req ->
  subscript req "page" = FOk (PStr page) ->
  subscript req "index" = FOk (PInt i) ->
  subscript req "name" = FOk v ->
  plain rt page = true ->
  d !! page = Some (JsonFile (PList l)) ->
  0 <= i ->
  l !! Z.to_nat i = Some (PDict m) ->
  api_update_name rt request d =
  let arr := PList (<[Z.to_nat i := PDict (dict_set "name" v m)]> l) in
  if dumpable arr then (<[page := JsonFile arr]> d, FOk success)
  else (<[page := Unreadable]> d, FOk (failure (str_exc rt EncodeErr))).
Proof.
  intros Hreq Hpage Hidx Hname Hplain Hfile Hi Hitem.
  assert (Hlt : (Z.to_nat i < length l)%nat)
    by (eapply lookup_lt_Some; eassumption).
  unfold api_update_name, set_member. run_route.
  rewrite Hreq, Hpage, Hidx, Hname. simpl. rewrite Hplain, Hfile.
  rewrite in_range_list, bool_decide_eq_true_2 by lia. simpl.
  rewrite Hitem.
  destruct (dumpable _); reflexivity.
Qed.

(** X15.  [api_update_name] with a plain page name whose file holds a
    JSON list that [json.dump] can write, an index in range whose item
    is an object, and a new value that can be written, rewrites that
    file only: the item gets the new value under ["name"] and keeps its
    other members, the other items and the length of the list are
    unchanged, and the answer is [{success: true}]. *)
Theorem api_update_name_sets_name rt request req page i v l m d :
  request_json request = FOk req ->
  subscript req "page" = FOk (PStr page) ->
  subscript req "index" = FOk (PInt i) ->
  subscript req "name" = FOk v ->
  plain rt page = true ->
  d !! page = Some (JsonFile (PList l)) ->
  dumpable (PList l) = true ->
  dumpable v = true ->
  0 <= i ->
  l !! Z.to_nat i = Some (PDict m) ->
  exists l' m',
    api_update_name rt request d =
    (<[page := JsonFile (PList l')]> d, FOk success) /\
    length l' = length l /\
    l' !! Z.to_nat i = Some (PDict m') /\
    (forall k, k <> Z.to_nat i -> l' !! k = l !! k) /\
    dict_get "name" m' = Some v /\
    (forall key, key <> "name" -> dict_get key m' = dict_get key m).
Proof.
  intros Hreq Hpage Hidx Hname Hplain Hfile Hdump Hv Hi Hitem.
  assert (Hlt : (Z.to_nat i < length l)%nat)
    by (eapply lookup_lt_Some; eassumption).
  exists (<[Z.to_nat i := PDict (dict_set "name" v m)]> l),
         (dict_set "name" v m).
  repeat split.
  - rewrite (api_update_name_run rt request req page i v l m d) by assumption.
    cbv zeta. rewrite dumpable_insert; [reflexivity | exact Hdump |].
    apply dumpable_dict_set; [reflexivity | exact Hv |].
    eapply dumpable_lookup; eassumption.
  - apply length_insert.
  - apply list_lookup_insert_eq, Hlt.
  - intros k Hk. apply list_lookup_insert_ne. congruence.
  - apply dict_get_set_eq.
  - intros key Hkey. apply dict_get_set_ne, Hkey.
Qed.

Lemma api_update_name_sets_name_witness :
  exists l' m',
    api_update_name plain_runtime
      (post [("page", PStr "login.json"); ("index", PInt 1);
             ("name", PStr "secret")])
      sample_dir =
    (<["login.json" := JsonFile (PList l')]> sample_dir, FOk success) /\
    length l' = length login_fields /\
    l' !! Z.to_nat 1 = Some (PDict m') /\
    (forall k, k <> Z.to_nat 1 -> l' !! k = login_fields !! k) /\
    dict_get "name" m' = Some (PStr "secret") /\
    (forall key, key <> "name" ->
       dict_get key m' =
       dict_get key [("name", PStr "password");
                     ("selectors", PDict [("xpath", PStr "//input[2]")])]).
Proof.
  apply (api_update_name_sets_name plain_runtime
           (post [("page", PStr "login.json"); ("index", PInt 1);
                  ("name", PStr "secret")])
           (PDict [("page", PStr "login.json"); ("index", PInt 1);
                   ("name", PStr "secret")])
           "login.json" 1 (PStr "secret") login_fields
           [("name", PStr "password");
            ("selectors", PDict [("xpath", PStr "//input[2]")])]
           sample_dir);
    try reflexivity. lia.
Defined.

Lemma not_dumpable_insert l i x :
  (i < length l)%nat -> dumpable x = false ->
  dumpable (PList (<[i := x]> l)) = false.
Proof.
  intros Hlt Hx. apply not_true_is_false. intros H.
  rewrite dumpable_list in H.
  rewrite H in Hx; [discriminate |].
  eapply list_elem_of_lookup_2, list_lookup_insert_eq, Hlt.
Qed.

Lemma not_dumpable_dict_set k v d :
  dumpable v = false -> dumpable (PDict (dict_set k v d)) = false.
Proof.
  intros Hv. apply not_true_is_false. intros H.
  rewrite dumpable_members in H.
  destruct (H k v (dict_set_has k v d)) as [_ Hv']. congruence.
Qed.

(** X24.  A new name that [json.dump] cannot write (it holds a string
    with a lone surrogate, which a JSON request can carry as an escape)
    makes [api_update_name] destroy the page: the file was truncated
    when it was opened for writing, the dump stops, the route answers
    with the error, and the file no longer decodes. *)
Theorem api_update_name_cuts_file rt request req page i v l m d :
  request_json request = FOk req ->
  subscript req "page" = FOk (PStr page) ->
  subscript req "index" = FOk (PInt i) ->
  subscript req "name" = FOk v ->
  plain rt page = true ->
  d !! page = Some (JsonFile (PList l)) ->
  0 <= i ->
  l !! Z.to_nat i = Some (PDict m) ->
  dumpable v = false ->
  api_update_name rt request d =
  (<[page := Unreadable]> d, FOk (failure (str_exc rt EncodeErr))).
Proof.
  intros Hreq Hpage Hidx Hname Hplain Hfile Hi Hitem Hv.
  assert (Hlt : (Z.to_nat i < length l)%nat)
    by (eapply lookup_lt_Some; eassumption).
  rewrite (api_update_name_run rt request req page i v l m d) by assumption.
  cbv zeta. rewrite not_dumpable_insert; [reflexivity | exact Hlt |].
  apply not_dumpable_dict_set, Hv.
Qed.

Lemma api_update_name_cuts_file_witness :
  api_update_name plain_runtime
    (post [("page", PStr "login.json"); ("index", PInt 0);
           ("name", PStr lone_surrogate)])
    sample_dir =
  (<["login.json" := Unreadable]> sample_dir,
   FOk (failure (str_exc plain_runtime EncodeErr))).
Proof.
  apply (api_update_name_cuts_file plain_runtime
           (post [("page", PStr "login.json"); ("index", PInt 0);
                  ("name", PStr lone_surrogate)])
           (PDict [("page", PStr "login.json"); ("index", PInt 0);
                   ("name", PStr lone_surrogate)])
           "login.json" 0 (PStr lone_surrogate) login_fields
           [("name", PStr "user");
            ("selectors", PDict [("xpath", PStr "//input[1]")])]
           sample_dir);
    first [reflexivity | lia].
Defined.

(** ** [api_update_xpath] *)

(** X16.  [api_update_xpath] with a plain page name whose file holds a
    JSON list that [json.dump] can write, on an item that is an object,
    with a new value that can be written, sets ["xpath"] inside the
    ["selectors"] object of the item, creating that object when the
    item has none; the other selectors, the other members of the item,
    the other items and the length of the list are unchanged. *)
Theorem api_update_xpath_sets_selector rt request req page i v l m d :
  request_json request = FOk req ->
  subscript req "page" = FOk (PStr page) ->
  subscript req "index" = FOk (PInt i) ->
  subscript req "xpath" = FOk v ->
  plain rt page = true ->
  d !! page = Some (JsonFile (PList l)) ->
  dumpable (PList l) = true ->
  dumpable v = true ->
  0 <= i ->
  l !! Z.to_nat i = Some (PDict m) ->
  (dict_get "selectors" m = None \/
   exists sel, dict_get "selectors" m = Some (PDict sel)) ->
  exists l' m' sel',
    api_update_xpath rt request d =
    (<[page := JsonFile (PList l')]> d, FOk success) /\
    length l' = length l /\
    l' !! Z.to_nat i = Some (PDict m') /\
    (forall k, k <> Z.to_nat i -> l' !! k = l !! k) /\
    dict_get "selectors" m' = Some (PDict sel') /\
    (forall key, key <> "selectors" -> dict_get key m' = dict_get key m) /\
    dict_get "xpath" sel' = Some v /\
    (forall key, key <> "xpath" ->
       dict_get key sel' =
       match dict_get "selectors" m with
       | Some (PDict sel) => dict_get key sel
       | _ => None
       end).
Proof.
  intros Hreq Hpage Hidx Hxpath Hplain Hfile Hdump Hv Hi Hitem Hsel.
  assert (Hlt : (Z.to_nat i < length l)%nat)
    by (eapply lookup_lt_Some; eassumption).
  assert (Hm : dumpable (PDict m) = true)
    by (eapply dumpable_lookup; eassumption).
  assert (Hrun : forall sel',
             match dict_get "selectors" m with
             | None => sel' = dict_set "xpath" v []
             | Some (PDict sel) => sel' = dict_set "xpath" v sel
             | Some _ => False
             end ->
             dumpable (PDict sel') = true ->
             api_update_xpath rt request d =
             (<[page := JsonFile
                          (PList (<[Z.to_nat i :=
                                      PDict (dict_set "selectors" (PDict sel') m)]> l))]> d,
              FOk success)).
  { intros sel' Hsel' Hdump'.
    assert (Hall : dumpable (PList (<[Z.to_nat i :=
                      PDict (dict_set "selectors" (PDict sel') m)]> l)) = true).
    { apply dumpable_insert; [exact Hdump |].
      apply dumpable_dict_set; [reflexivity | exact Hdump' | exact Hm]. }
    unfold api_update_xpath, set_selector. run_route.
    rewrite Hreq, Hpage, Hidx, Hxpath. simpl. rewrite Hplain, Hfile.
    rewrite in_range_list, bool_decide_eq_true_2 by lia. simpl.
    rewrite Hitem.
    destruct (dict_get "selectors" m) as [[| | | | |sel]|];
      try contradiction; subst sel'; simpl in Hall |- *; rewrite Hall;
      reflexivity. }
  destruct Hsel as [Hnone | [sel Hsome]].
  - exists (<[Z.to_nat i := PDict (dict_set "selectors" (PDict [("xpath", v)]) m)]> l),
           (dict_set "selectors" (PDict [("xpath", v)]) m), [("xpath", v)].
    repeat split.
    + apply Hrun; [rewrite Hnone; reflexivity |].
      apply (dumpable_dict_set "xpath" v []); [reflexivity | exact Hv | reflexivity].
    + apply length_insert.
    + apply list_lookup_insert_eq, Hlt.
    + intros k Hk. apply list_lookup_insert_ne. congruence.
    + apply dict_get_set_eq.
    + intros key Hkey. apply dict_get_set_ne, Hkey.
    + intros key Hkey. rewrite Hnone. unfold dict_get. simpl.
      destruct ("xpath" =? key)%string eqn:Hk; [| reflexivity].
      apply String.eqb_eq in Hk. congruence.
  - exists (<[Z.to_nat i := PDict (dict_set "selectors"
                                      (PDict (dict_set "xpath" v sel)) m)]> l),
           (dict_set "selectors" (PDict (dict_set "xpath" v sel)) m),
           (dict_set "xpath" v sel).
    repeat split.
    + apply Hrun; [rewrite Hsome; reflexivity |].
      apply dumpable_dict_set; [reflexivity | exact Hv |].
      eapply dumpable_dict_get; eassumption.
    + apply length_insert.
    + apply list_lookup_insert_eq, Hlt.
    + intros k Hk. apply list_lookup_insert_ne. congruence.
    + apply dict_get_set_eq.
    + intros key Hkey. apply dict_get_set_ne, Hkey.
    + apply dict_get_set_eq.
    + intros key Hkey. rewrite Hsome. apply dict_get_set_ne, Hkey.
Qed.

Lemma api_update_xpath_sets_selector_witness :
  exists l' m' sel',
    api_update_xpath plain_runtime
      (post [("page", PStr "home.json"); ("index", PInt 0);
             ("xpath", PStr "//header/nav")])
      (<["home.json" := JsonFile (PList [PDict [("name", PStr "menu")]])]> sample_dir) =
    (<["home.json" := JsonFile (PList l')]>
       (<["home.json" := JsonFile (PList [PDict [("name", PStr "menu")]])]> sample_dir),
     FOk success) /\
    length l' = length [PDict [("name", PStr "menu")]] /\
    l' !! Z.to_nat 0 = Some (PDict m') /\
    (forall k, k <> Z.to_nat 0 -> l' !! k = [PDict [("name", PStr "menu")]] !! k) /\
    dict_get "selectors" m' = Some (PDict sel') /\
    (forall key, key <> "selectors" ->
       dict_get key m' = dict_get key [("name", PStr "menu")]) /\
    dict_get "xpath" sel' = Some (PStr "//header/nav") /\
    (forall key, key <> "xpath" ->
       dict_get key sel' =
       match dict_get "selectors" [("name", PStr "menu")] with
       | Some (PDict sel) => dict_get key sel
       | _ => None
       end).
Proof.
  apply (api_update_xpath_sets_selector plain_runtime
           (post [("page", PStr "home.json"); ("index", PInt 0);
                  ("xpath", PStr "//header/nav")])
           (PDict [("page", PStr "home.json"); ("index", PInt 0);
                   ("xpath", PStr "//header/nav")])
           "home.json" 0 (PStr "//header/nav")
           [PDict [("name", PStr "menu")]] [("name", PStr "menu")]);
    first [reflexivity | lia | left; reflexivity | vm_compute; reflexivity].
Defined.

(** X17.  The first statements of [api_update_xpath] are outside its
    [try]: the route answers exactly when the request body decodes, has
    the members ["page"], ["index"] and ["xpath"], and ["page"] is a
    string; otherwise the exception leaves the route (the request gets
    no JSON answer), and the directory is untouched. *)
Theorem api_update_xpath_answers_iff rt request d :
  ((exists reply, (api_update_xpath rt request d).2 = FOk reply) <->
   (exists req page idx xpath,
      request_json request = FOk req /\
      subscript req "page" = FOk (PStr page) /\
      subscript req "index" = FOk idx /\
      subscript req "xpath" = FOk xpath)) /\
  (forall e, (api_update_xpath rt request d).2 = FRaise e ->
             (api_update_xpath rt request d).1 = d).
Proof.
  unfold api_update_xpath, entry_name. run_route.
  destruct (request_json request) as [req|e0] eqn:Hreq; simpl.
  2:{ split; [split |]; [intros [? [=]] | | auto].
      intros (r & p & i & xp & H1 & H2 & H3 & H4). congruence. }
  destruct (subscript req "page") as [page|e0] eqn:Hpage; simpl.
  2:{ split; [split |]; [intros [? [=]] | | auto].
      intros (r & p & i & xp & H1 & H2 & H3 & H4). congruence. }
  destruct (subscript req "index") as [idx|e0] eqn:Hidx; simpl.
  2:{ split; [split |]; [intros [? [=]] | | auto].
      intros (r & p & i & xp & H1 & H2 & H3 & H4). congruence. }
  destruct (subscript req "xpath") as [xpath|e0] eqn:Hxpath; simpl.
  2:{ split; [split |]; [intros [? [=]] | | auto].
      intros (r & p & i & xp & H1 & H2 & H3 & H4). congruence. }
  destruct page as [| | |page| |]; simpl;
    try (split; [split |]; [intros [? [=]] | | auto];
         intros (r & p & i & xp & H1 & H2 & H3 & H4); congruence).
  split; [split |].
  - intros _. eauto 10.
  - intros _. split_route; eauto.
  - split_route; intros e' [=].
Qed.


Lemma api_update_xpath_answers_iff_witness :
  (api_update_xpath plain_runtime
     (post [("page", PStr "login.json"); ("index", PInt 0)]) sample_dir).1 =
  sample_dir.
Proof.
  apply (proj2 (api_update_xpath_answers_iff plain_runtime
                  (post [("page", PStr "login.json"); ("index", PInt 0)])
                  sample_dir)
           (KeyErr (PStr "xpath"))).
  reflexivity.
Defined.

(** ** [api_rename_json] *)

Lemma api_rename_json_cases rt request d :
  rename_names_plain rt request ->
  (api_rename_json rt request d).1 = d \/
  exists o n f,
    o <> n /\ d !! o = Some f /\ d !! n = None /\
    api_rename_json rt request d = (<[n := f]> (delete o d), FOk success).
Proof.
  intros Hplain. unfold api_rename_json, entry_name. run_route.
  destruct (request_json request) as [req|e] eqn:Hreq; simpl; [| auto].
  destruct (dict_get_method req "old") as [old|e] eqn:Hold; simpl; [| auto].
  destruct (dict_get_method req "new") as [new|e] eqn:Hnew; simpl; [| auto].
  destruct (negb (truthy old) || negb (truthy new) || py_eq old new);
    simpl; [auto |].
  destruct old as [| | |o| |]; simpl; auto.
  destruct new as [| | |n| |]; simpl; auto.
  rewrite (Hplain req "old" o (or_introl eq_refl) Hreq Hold).
  rewrite (Hplain req "new" n (or_intror eq_refl) Hreq Hnew).
  unfold os_rename.
  rewrite (Hplain req "old" o (or_introl eq_refl) Hreq Hold).
  rewrite (Hplain req "new" n (or_intror eq_refl) Hreq Hnew).
  split_route; auto.
  right.
  match goal with
  | Hf : d !! ?o = Some ?f, Hn : bool_decide (is_Some (d !! ?n)) = false,
    Hne : (?o =? ?n)%string = false |- _ =>
      exists o, n, f; repeat split; [| exact Hf |]
  end.
  - intros ->. rewrite String.eqb_refl in *. discriminate.
  - match goal with
    | Hn : bool_decide (is_Some (d !! ?n)) = false |- _ =>
        apply bool_decide_eq_false in Hn;
        destruct (d !! n) eqn:Hlookup; [exfalso; apply Hn; eauto | reflexivity]
    end.
Qed.

(** X18.  When the names a request gives are plain, [api_rename_json]
    never replaces the content of an existing entry and never loses or
    invents a content, whatever else the request holds and whichever
    way the platform renames: an entry still present under its name
    holds what it held, and every content of the directory before the
    call is still in it after (under the same name or, after a
    successful rename, under the new one). *)
Theorem api_rename_json_keeps_contents rt request d :
  rename_names_plain rt request ->
  (forall k f f', d !! k = Some f ->
                  (api_rename_json rt request d).1 !! k = Some f' -> f' = f) /\
  (forall k f, d !! k = Some f ->
               exists k', (api_rename_json rt request d).1 !! k' = Some f) /\
  (forall k f, (api_rename_json rt request d).1 !! k = Some f ->
               exists k', d !! k' = Some f).
Proof.
  intros Hplain.
  destruct (api_rename_json_cases rt request d Hplain)
    as [-> | (o & n & f & Hne & Ho & Hn & ->)]; simpl.
  { repeat split; [congruence | eauto | eauto]. }
  unfold Dir in *. repeat split.
  - intros k f0 f' Hk Hk'.
    destruct (decide (k = n)) as [-> | Hkn]; [congruence |].
    rewrite lookup_insert_ne in Hk' by congruence.
    destruct (decide (k = o)) as [-> | Hko].
    + rewrite lookup_delete_eq in Hk'. discriminate.
    + rewrite lookup_delete_ne in Hk' by congruence. congruence.
  - intros k f0 Hk. destruct (decide (k = o)) as [-> | Hko].
    + exists n. rewrite lookup_insert_eq. congruence.
    + exists k. rewrite lookup_insert_ne by congruence.
      rewrite lookup_delete_ne by congruence. exact Hk.
  - intros k f0 Hk. destruct (decide (k = n)) as [-> | Hkn].
    + rewrite lookup_insert_eq in Hk. exists o. congruence.
    + rewrite lookup_insert_ne in Hk by congruence.
      destruct (decide (k = o)) as [-> | Hko].
      * rewrite lookup_delete_eq in Hk. discriminate.
      * rewrite lookup_delete_ne in Hk by congruence. eauto.
Qed.

Lemma api_rename_json_keeps_contents_witness :
  let request := post [("old", PStr "login.json"); ("new", PStr "home.json")] in
  (forall k f f', sample_dir !! k = Some f ->
     (api_rename_json plain_runtime request sample_dir).1 !! k = Some f' -> f' = f) /\
  (forall k f, sample_dir !! k = Some f ->
     exists k', (api_rename_json plain_runtime request sample_dir).1 !! k' = Some f) /\
  (forall k f, (api_rename_json plain_runtime request sample_dir).1 !! k = Some f ->
     exists k', sample_dir !! k' = Some f).
Proof.
  intros request.
  apply (api_rename_json_keeps_contents plain_runtime request sample_dir).
  intros req key name [-> | ->] [= <-] [= <-]; reflexivity.
Defined.

(** X19.  [api_rename_json] with two different plain names, the old one
    present and the new one absent, moves the entry: afterwards the new
    name holds the content, the old name is gone, every other entry is
    unchanged, and the answer is [{success: true}], whichever way the
    platform treats a rename over an existing name. *)
Theorem api_rename_json_moves rt request req o n f d :
  request_json request = FOk req ->
  dict_get_method req "old" = FOk (PStr o) ->
  dict_get_method req "new" = FOk (PStr n) ->
  plain rt o = true -> plain rt n = true ->
  o <> "" -> n <> "" -> o <> n ->
  d !! o = Some f ->
  d !! n = None ->
  exists d',
    api_rename_json rt request d = (d', FOk success) /\
    d' !! n = Some f /\
    d' !! o = None /\
    (forall k, k <> o -> k <> n -> d' !! k = d !! k).
Proof.
  intros Hreq Hold Hnew Hpo Hpn Ho Hn Hne Hfile Hfree.
  exists (<[n := f]> (delete o d)). split.
  - unfold api_rename_json, entry_name, os_rename. run_route.
    assert (Htruthy : forall s, s <> "" -> truthy (PStr s) = true)
      by (intros [|c s] H; [congruence | reflexivity]).
    assert (Heqb : (o =? n)%string = false) by (apply String.eqb_neq, Hne).
    assert (Hcond : negb (truthy (PStr o)) || negb (truthy (PStr n))
                    || py_eq (PStr o) (PStr n) = false).
    { rewrite (Htruthy o Ho), (Htruthy n Hn). simpl. exact Heqb. }
    rewrite Hreq, Hold, Hnew. cbv beta iota. rewrite Hcond. simpl.
    repeat (progress (rewrite ?Hpo, ?Hpn, ?Hfile, ?Hfree, ?Heqb; simpl)).
    reflexivity.
  - unfold Dir in *. repeat split.
    + apply lookup_insert_eq.
    + rewrite lookup_insert_ne by congruence. apply lookup_delete_eq.
    + intros k Hko Hkn. rewrite lookup_insert_ne by congruence.
      apply lookup_delete_ne. congruence.
Qed.

Lemma api_rename_json_moves_witness :
  exists d',
    api_rename_json plain_runtime
      (post [("old", PStr "login.json"); ("new", PStr "signin.json")])
      sample_dir = (d', FOk success) /\
    d' !! "signin.json" = Some (JsonFile (PList login_fields)) /\
    d' !! "login.json" = None /\
    (forall k, k <> "login.json" -> k <> "signin.json" ->
               d' !! k = sample_dir !! k).
Proof.
  apply (api_rename_json_moves plain_runtime
           (post [("old", PStr "login.json"); ("new", PStr "signin.json")])
           (PDict [("old", PStr "login.json"); ("new", PStr "signin.json")])
           "login.json" "signin.json" (JsonFile (PList login_fields)) sample_dir);
    first [reflexivity | discriminate | vm_compute; reflexivity].
Defined.

(** ** [api_delete_json] *)

(** X20.  [api_delete_json] with a JSON body whose ["file"] is a plain
    name: when that entry exists it is removed, every other entry is
    unchanged and the answer is [{success: true}]; when it does not
    exist the directory is unchanged and the answer is the error
    "File not found". *)
Theorem api_delete_json_removes rt request data name d :
  is_json request = true ->
  request_json request = FOk data ->
  subscript data "file" = FOk (PStr name) ->
  plain rt name = true ->
  (is_Some (d !! name) ->
   exists d',
     api_delete_json rt request d = (d', FOk success) /\
     d' !! name = None /\
     (forall k, k <> name -> d' !! k = d !! k)) /\
  (d !! name = None ->
   api_delete_json rt request d = (d, FOk (failure "File not found"))).
Proof.
  intros Hjson Hreq Hfile Hplain.
  destruct (subscript_has data "file" _ Hfile) as [Hlacks _].
  assert (Hrun : api_delete_json rt request d =
                 match d !! name with
                 | Some _ => (delete name d, FOk success)
                 | None => (d, FOk (failure "File not found"))
                 end).
  { unfold api_delete_json, entry_name. run_route.
    rewrite Hjson, Hreq. simpl. rewrite Hlacks, Hfile. simpl.
    rewrite Hplain.
    destruct (d !! name) as [f|] eqn:Hlookup.
    - rewrite bool_decide_eq_true_2 by eauto. simpl. rewrite Hlookup.
      reflexivity.
    - rewrite bool_decide_eq_false_2 by (intros [? [=]]). reflexivity. }
  split.
  - intros [f Hf]. rewrite Hrun, Hf. exists (delete name d).
    unfold Dir in *. repeat split.
    + apply lookup_delete_eq.
    + intros k Hk. apply lookup_delete_ne. congruence.
  - intros Hnone. rewrite Hrun, Hnone. reflexivity.
Qed.

Lemma api_delete_json_removes_witness :
  (is_Some (sample_dir !! "home.json") ->
   exists d',
     api_delete_json plain_runtime (post [("file", PStr "home.json")]) sample_dir =
     (d', FOk success) /\
     d' !! "home.json" = None /\
     (forall k, k <> "home.json" -> d' !! k = sample_dir !! k)) /\
  (sample_dir !! "home.json" = None ->
   api_delete_json plain_runtime (post [("file", PStr "home.json")]) sample_dir =
   (sample_dir, FOk (failure "File not found"))).
Proof.
  apply (api_delete_json_removes plain_runtime (post [("file", PStr "home.json")])
           (PDict [("file", PStr "home.json")]) "home.json" sample_dir);
    reflexivity.
Defined.

(** ** [api_delete_field] *)

(** X21.  [api_delete_field] with a JSON body whose ["page"] is a plain
    name of a file holding a JSON list and whose ["index"] converts
    with [int()] to an index in range, when [json.dump] can write the
    items that remain, rewrites that file only, with the list minus the
    item at that index (the other items in their order), and answers
    [{success: true}]; the index may be sent as a number or as a
    numeric string. *)
Theorem api_delete_field_removes_item rt request data page index i l d :
  is_json request = true ->
  request_json request = FOk data ->
  subscript data "page" = FOk (PStr page) ->
  subscript data "index" = FOk index ->
  py_int rt index = FOk i ->
  plain rt page = true ->
  d !! page = Some (JsonFile (PList l)) ->
  0 <= i < Z.of_nat (length l) ->
  dumpable (PList (delete (Z.to_nat i) l)) = true ->
  api_delete_field rt request d =
  (<[page := JsonFile (PList (delete (Z.to_nat i) l))]> d, FOk success) /\
  length (delete (Z.to_nat i) l) = pred (length l) /\
  (forall k, (k < Z.to_nat i)%nat -> delete (Z.to_nat i) l !! k = l !! k) /\
  (forall k, (Z.to_nat i <= k)%nat -> delete (Z.to_nat i) l !! k = l !! S k).
Proof.
  intros Hjson Hreq Hpage Hindex Hint Hplain Hfile Hi Hdump.
  destruct (subscript_has data "page" _ Hpage) as [Hlacks _].
  destruct (subscript_has data "index" _ Hindex) as [_ Hhas].
  destruct (lookup_lt_is_Some_2 l (Z.to_nat i)) as [x Hx]; [lia |].
  repeat split.
  - unfold api_delete_field, lacks_page_or_index, entry_name, pop_item.
    run_route. rewrite Hjson, Hreq. simpl.
    rewrite Hlacks, Hhas, Hpage, Hindex. simpl. rewrite Hint. simpl.
    repeat (progress (rewrite ?Hplain, ?Hfile, ?in_range_list, ?Hx, ?Hdump;
                      rewrite ?(bool_decide_eq_true_2 (0 <= i < _)) by lia;
                      simpl)).
    reflexivity.
  - rewrite length_delete by eauto. lia.
  - intros k Hk. apply list_lookup_delete_lt. exact Hk.
  - intros k Hk. apply list_lookup_delete_ge. exact Hk.
Qed.

Lemma api_delete_field_removes_item_witness :
  let rt := runtime_with (fun s => if (s =? "1")%string then Some 1 else None) in
  api_delete_field rt
    (post [("page", PStr "login.json"); ("index", PStr "1")]) sample_dir =
  (<["login.json" := JsonFile (PList (delete (Z.to_nat 1) login_fields))]> sample_dir,
   FOk success) /\
  length (delete (Z.to_nat 1) login_fields) = pred (length login_fields) /\
  (forall k, (k < Z.to_nat 1)%nat ->
             delete (Z.to_nat 1) login_fields !! k = login_fields !! k) /\
  (forall k, (Z.to_nat 1 <= k)%nat ->
             delete (Z.to_nat 1) login_fields !! k = login_fields !! S k).
Proof.
  intros rt.
  apply (api_delete_field_removes_item rt
           (post [("page", PStr "login.json"); ("index", PStr "1")])
           (PDict [("page", PStr "login.json"); ("index", PStr "1")])
           "login.json" (PStr "1") 1 login_fields sample_dir);
    first [reflexivity | simpl; lia | vm_compute; reflexivity].
Defined.

(** ** [get_all_json_data] *)

(** X22.  [get_all_json_data] returns one member for every entry whose
    name ends in [.json] and whose content decodes, under the name of
    the entry, and nothing else: entries with another extension and
    entries that cannot be read or decoded are left out, and none of
    them makes the function fail. *)
Theorem get_all_json_data_lookup d name :
  get_all_json_data d !! name =
  match d !! name with
  | Some (JsonFile doc) => if ends_with ".json" name then Some doc else None
  | _ => None
  end.
Proof.
  unfold get_all_json_data. revert name.
  apply (map_fold_weak_ind
           (fun (r : gmap string pyval) (m : gmap string file) =>
              forall name,
                r !! name =
                match m !! name with
                | Some (JsonFile doc) =>
                    if ends_with ".json" name then Some doc else None
                | _ => None
                end)).
  - intros name. rewrite !lookup_empty. reflexivity.
  - intros i x m r Hfresh IH name. unfold collect_json.
    destruct (decide (name = i)) as [-> | Hne].
    + rewrite lookup_insert_eq. specialize (IH i). rewrite Hfresh in IH.
      destruct (ends_with ".json" i); [| destruct x; exact IH].
      destruct x as [doc|]; [apply lookup_insert_eq | exact IH].
    + rewrite (lookup_insert_ne m) by congruence. rewrite <- IH.
      destruct (ends_with ".json" i); [| reflexivity].
      destruct x as [doc|]; [| reflexivity].
      apply lookup_insert_ne. congruence.
Qed.

(** ** Temporary names *)

#[local] Arguments String.append : simpl nomatch.

Lemma pretty_N_go_digits (x : N) (s : string) :
  all_digits s = true -> all_digits (pretty_N_go x s) = true.
Proof.
  revert s. induction (N.lt_wf_0 x) as [x _ IH]; intros s Hs.
  destruct (decide (x = 0)%N) as [-> | Hx].
  - rewrite pretty_N_go_0. exact Hs.
  - rewrite pretty_N_go_step by lia. apply IH.
    + apply N.div_lt; lia.
    + assert (Hmod : (x `mod` 10 < 10)%N) by (apply N.mod_lt; lia).
      simpl. rewrite Hs, andb_true_r.
      destruct (x `mod` 10)%N as [|p]; [reflexivity |].
      do 4 (destruct p as [p|p|]; try reflexivity; try lia).
Qed.

Lemma pretty_nat_digits (i : nat) : all_digits (pretty i) = true.
Proof.
  unfold pretty, pretty_nat, pretty, pretty_N.
  destruct (decide (N.of_nat i = 0%N)); [reflexivity |].
  apply pretty_N_go_digits. reflexivity.
Qed.

Lemma digits_then_underscore p q f g :
  all_digits p = true -> all_digits q = true ->
  String.append p (String.append "_" f) = String.append q (String.append "_" g) ->
  p = q.
Proof.
  revert q. induction p as [|c p IH]; intros [|c' q] Hp Hq Heq;
    simpl in Heq.
  - reflexivity.
  - injection Heq as Hc _. subst c'. vm_compute in Hq.
    destruct (all_digits q); discriminate Hq.
  - injection Heq as Hc _. subst c. vm_compute in Hp.
    destruct (all_digits p); discriminate Hp.
  - injection Heq as Hc Heq. subst c'.
    simpl in Hp, Hq.
    apply andb_prop in Hp as [_ Hp]. apply andb_prop in Hq as [_ Hq].
    f_equal. eapply IH; eassumption.
Qed.

Lemma temp_name_index i f j g : temp_name i f = temp_name j g -> i = j.
Proof.
  unfold temp_name. intros Heq. simpl in Heq.
  repeat (injection Heq as Heq).
  apply digits_then_underscore in Heq; try apply pretty_nat_digits.
  exact (pretty_nat_inj _ _ Heq).
Qed.


(** ** Renaming a batch of entries *)

Lemma os_rename_fresh rt a b f (d : Dir) :
  plain rt a = true -> plain rt b = true ->
  d !! a = Some f -> d !! b = None -> a <> b ->
  os_rename rt a b d = (<[b := f]> (delete a d), FOk tt).
Proof.
  intros Hpa Hpb Ha Hb Hne. unfold os_rename. rewrite Hpa, Hpb, Ha, Hb.
  rewrite (proj2 (String.eqb_neq a b) Hne).
  rewrite bool_decide_eq_false_2 by (intros [? [=]]). reflexivity.
Qed.

Lemma rename_back_run rt (ps : list (string * string)) (d : Dir) :
  NoDup (ps.*1 ++ ps.*2) ->
  (forall a b, (a, b) ∈ ps -> plain rt a = true /\ plain rt b = true) ->
  (forall a b, (a, b) ∈ ps -> is_Some (d !! a) /\ d !! b = None) ->
  exists d' : Dir,
    rename_back rt ps d = (d', FOk tt) /\
    (forall a b, (a, b) ∈ ps -> d' !! b = d !! a /\ d' !! a = None) /\
    (forall k, k ∉ ps.*1 -> k ∉ ps.*2 -> d' !! k = d !! k).
Proof.
  revert d. induction ps as [|[a b] ps IH]; intros d Hnodup Hplain Hps.
  - exists d. split; [reflexivity | split]; [| auto].
    intros a b Hin. apply elem_of_nil in Hin. destruct Hin.
  - simpl in Hnodup. apply NoDup_cons in Hnodup as [Ha Hnodup].
    assert (Hab : a <> b).
    { intros ->. apply Ha, elem_of_app. right. apply list_elem_of_here. }
    assert (Ha1 : a ∉ ps.*1).
    { intros Hin. apply Ha, elem_of_app. left. exact Hin. }
    assert (Ha2 : a ∉ ps.*2).
    { intros Hin. apply Ha, elem_of_app. right.
      apply list_elem_of_further, Hin. }
    apply NoDup_app in Hnodup as (Hn1 & Hdisj & Hn2).
    apply NoDup_cons in Hn2 as [Hb2 Hn2].
    assert (Hb1 : b ∉ ps.*1).
    { intros Hin. apply (Hdisj b Hin), list_elem_of_here. }
    assert (Hnodup' : NoDup (ps.*1 ++ ps.*2)).
    { apply NoDup_app. repeat split; [exact Hn1 | | exact Hn2].
      intros x Hx Hx'. apply (Hdisj x Hx), list_elem_of_further, Hx'. }
    destruct (Hps a b) as [[f Hf] Hfree]; [apply list_elem_of_here |].
    destruct (Hplain a b) as [Hpa Hpb]; [apply list_elem_of_here |].
    assert (Hin1 : forall a' b', (a', b') ∈ ps -> a' ∈ ps.*1 /\ b' ∈ ps.*2).
    { intros a' b' Hin. split.
      - apply list_elem_of_fmap. exists (a', b'). auto.
      - apply list_elem_of_fmap. exists (a', b'). auto. }
    destruct (IH (<[b := f]> (delete a d)) Hnodup') as (d' & Hrun & Hmoved & Hrest).
    { intros a' b' Hin. apply Hplain, list_elem_of_further, Hin. }
    { intros a' b' Hin. destruct (Hin1 a' b' Hin) as [Ha' Hb'].
      destruct (Hps a' b') as [Hsome Hnone];
        [apply list_elem_of_further, Hin |].
      unfold Dir in *.
      rewrite !lookup_insert_ne by (intros ->; contradiction).
      rewrite !lookup_delete_ne by (intros ->; contradiction).
      auto. }
    exists d'. split; [| split].
    + simpl. unfold fs_bind.
      rewrite (os_rename_fresh rt a b f d Hpa Hpb Hf Hfree Hab).
      exact Hrun.
    + intros a' b' Hin. apply elem_of_cons in Hin as [[= -> ->] | Hin].
      * unfold Dir in *. rewrite !Hrest by assumption.
        rewrite lookup_insert_eq.
        rewrite lookup_insert_ne by congruence.
        rewrite lookup_delete_eq. auto.
      * destruct (Hin1 a' b' Hin) as [Ha' Hb'].
        destruct (Hmoved a' b' Hin) as [Hb'' Ha''].
        split; [| exact Ha''].
        rewrite Hb''. unfold Dir in *.
        rewrite lookup_insert_ne by (intros ->; contradiction).
        apply lookup_delete_ne. intros ->. contradiction.
    + intros k Hk1 Hk2. simpl in Hk1, Hk2.
      apply not_elem_of_cons in Hk1 as [Hka Hk1].
      apply not_elem_of_cons in Hk2 as [Hkb Hk2].
      rewrite Hrest by assumption. unfold Dir in *.
      rewrite lookup_insert_ne by congruence.
      apply lookup_delete_ne. congruence.
Qed.

Lemma rename_to_temp_as_pairs rt i files acc (d : Dir) :
  rename_to_temp rt i files acc d =
  match rename_back rt (combine files (temp_names_from i files)) d with
  | (d', FOk _) => (d', FOk (acc ++ temp_names_from i files))
  | (d', FRaise e) => (d', FRaise e)
  end.
Proof.
  revert i acc d. induction files as [|f files IH]; intros i acc d; simpl.
  - unfold fs_ret. rewrite app_nil_r. reflexivity.
  - unfold fs_bind. destruct (os_rename rt f (temp_name i f) d) as [d1 [[]|e]];
      [| reflexivity].
    rewrite IH. rewrite <- app_assoc. reflexivity.
Qed.


Lemma temp_names_from_length i files :
  length (temp_names_from i files) = length files.
Proof. revert i. induction files; intros i; simpl; auto. Qed.

Lemma temp_names_from_elem i files t :
  t ∈ temp_names_from i files ->
  exists k f, t = temp_name k f /\ (i <= k < i + length files)%nat /\ f ∈ files.
Proof.
  revert i. induction files as [|f files IH]; intros i Hin; simpl in Hin.
  - apply elem_of_nil in Hin. destruct Hin.
  - apply elem_of_cons in Hin as [-> | Hin].
    + exists i, f. repeat split; [lia | simpl; lia | apply list_elem_of_here].
    + destruct (IH _ Hin) as (k & g & -> & Hk & Hg). exists k, g.
      repeat split; [lia | simpl; lia | apply list_elem_of_further, Hg].
Qed.

Lemma temp_names_from_NoDup i files : NoDup (temp_names_from i files).
Proof.
  revert i. induction files as [|f files IH]; intros i; simpl.
  - apply NoDup_nil_2.
  - apply NoDup_cons. split; [| apply IH].
    intros Hin. apply temp_names_from_elem in Hin as (k & g & Heq & Hk & _).
    apply temp_name_index in Heq. lia.
Qed.

Lemma combine_fst {A B} (l : list A) (k : list B) :
  length l = length k -> (combine l k).*1 = l.
Proof.
  revert k. induction l as [|x l IH]; intros [|y k] Hlen; simpl in *;
    try discriminate; [reflexivity |].
  f_equal. apply IH. lia.
Qed.

Lemma combine_snd {A B} (l : list A) (k : list B) :
  length l = length k -> (combine l k).*2 = k.
Proof.
  revert k. induction l as [|x l IH]; intros [|y k] Hlen; simpl in *;
    try discriminate; [reflexivity |].
  f_equal. apply IH. lia.
Qed.

Lemma combine_swap {A B} (l : list A) (k : list B) a b :
  (a, b) ∈ combine l k <-> (b, a) ∈ combine k l.
Proof.
  revert k. induction l as [|x l IH]; intros [|y k]; simpl;
    try (split; intros H; apply elem_of_nil in H; destruct H).
  rewrite !elem_of_cons, IH. split; intros [[= -> ->] | H]; auto.
Qed.

Lemma combine_elem {A B} (l : list A) (k : list B) a b :
  (a, b) ∈ combine l k -> a ∈ l /\ b ∈ k.
Proof.
  revert k. induction l as [|x l IH]; intros [|y k] Hin; simpl in Hin;
    try (apply elem_of_nil in Hin; destruct Hin).
  apply elem_of_cons in Hin as [[= -> ->] | Hin].
  - split; apply list_elem_of_here.
  - destruct (IH _ Hin). split; apply list_elem_of_further; assumption.
Qed.

Lemma combine_partner {A B} (l : list A) (k : list B) a :
  length l = length k -> a ∈ l -> exists b, (a, b) ∈ combine l k.
Proof.
  revert k. induction l as [|x l IH]; intros [|y k] Hlen Hin; simpl in *;
    try discriminate.
  - apply elem_of_nil in Hin. destruct Hin.
  - apply elem_of_cons in Hin as [-> | Hin].
    + exists y. apply list_elem_of_here.
    + destruct (IH k) as [b Hb]; [lia | exact Hin |].
      exists b. apply list_elem_of_further, Hb.
Qed.

(** ** The list of files the route works on *)

Lemma insert_sorted_perm x l : insert_sorted x l ≡ₚ x :: l.
Proof.
  induction l as [|y l IH]; simpl; [reflexivity |].
  destruct (String.leb x y); [reflexivity |].
  rewrite IH. apply Permutation_swap.
Qed.

Lemma sort_names_perm l : sort_names l ≡ₚ l.
Proof.
  unfold sort_names. induction l as [|x l IH]; simpl; [reflexivity |].
  rewrite insert_sorted_perm, IH. reflexivity.
Qed.

Lemma remove_first_perm x l : x ∈ l -> x :: remove_first x l ≡ₚ l.
Proof.
  induction l as [|y l IH]; intros Hin; simpl.
  - apply elem_of_nil in Hin. destruct Hin.
  - destruct (String.eqb_spec y x) as [-> | Hne]; [reflexivity |].
    apply elem_of_cons in Hin as [-> | Hin]; [congruence |].
    rewrite Permutation_swap, (IH Hin). reflexivity.
Qed.

Lemma json_files_present (d : Dir) f :
  f ∈ List.filter (ends_with ".json") (listdir d) -> is_Some (d !! f).
Proof.
  intros Hin. apply list_elem_of_In, filter_In in Hin as [Hin _].
  apply list_elem_of_In in Hin. unfold listdir in Hin.
  apply list_elem_of_fmap in Hin as ([k x] & -> & Hin).
  apply elem_of_map_to_list in Hin. simpl. eauto.
Qed.

Lemma json_files_NoDup (d : Dir) :
  NoDup (List.filter (ends_with ".json") (listdir d)).
Proof.
  apply NoDup_ListNoDup, List.NoDup_filter, NoDup_ListNoDup.
  unfold listdir. apply NoDup_fst_map_to_list.
Qed.


(** The two loops together: every file goes to its temporary name and
    comes back under its own. *)
Lemma there_and_back rt files (d : Dir) :
  NoDup files ->
  (forall f, f ∈ files -> is_Some (d !! f)) ->
  no_temp_entries d ->
  (forall f, f ∈ files -> plain rt f = true) ->
  (forall k f, f ∈ files -> (k < length files)%nat ->
               plain rt (temp_name k f) = true) ->
  exists d1 : Dir,
    rename_to_temp rt 0 files [] d = (d1, FOk (temp_names_from 0 files)) /\
    rename_back rt (combine (temp_names_from 0 files) files) d1 = (d, FOk tt).
Proof.
  intros Hnodup Hfiles Htemp Hpf Hpt.
  set (T := temp_names_from 0 files).
  assert (Hlen : length files = length T)
    by (symmetry; apply temp_names_from_length).
  assert (HT : forall t, t ∈ T -> d !! t = None).
  { intros t Hin. apply temp_names_from_elem in Hin as (k & f & -> & _).
    apply Htemp. }
  assert (HTp : forall t, t ∈ T -> plain rt t = true).
  { intros t Hin. apply temp_names_from_elem in Hin as (k & f & -> & Hk & Hf).
    apply Hpt; [exact Hf | lia]. }
  assert (Hdisj : forall x, x ∈ files -> x ∉ T).
  { intros x Hx Hx'. destruct (Hfiles x Hx) as [f Hf].
    rewrite (HT x Hx') in Hf. discriminate. }
  destruct (rename_back_run rt (combine files T) d) as (d1 & Hrun1 & Hmoved1 & Hrest1).
  { rewrite combine_fst, combine_snd by exact Hlen.
    apply NoDup_app. repeat split;
      [exact Hnodup | exact Hdisj | apply temp_names_from_NoDup]. }
  { intros a b Hin. apply combine_elem in Hin as [Ha Hb]. auto. }
  { intros a b Hin. apply combine_elem in Hin as [Ha Hb]. auto. }
  rewrite combine_fst, combine_snd in Hrest1 by exact Hlen.
  destruct (rename_back_run rt (combine T files) d1) as (d2 & Hrun2 & Hmoved2 & Hrest2).
  { rewrite combine_fst, combine_snd by (symmetry; exact Hlen).
    apply NoDup_app. repeat split;
      [apply temp_names_from_NoDup | | exact Hnodup].
    intros x Hx Hx'. exact (Hdisj x Hx' Hx). }
  { intros a b Hin. apply combine_elem in Hin as [Ha Hb]. auto. }
  { intros t f Hin. apply combine_swap in Hin.
    destruct (Hmoved1 f t Hin) as [Ht Hf]. rewrite Ht, Hf.
    apply combine_elem in Hin as [Hin _]. auto. }
  rewrite combine_fst, combine_snd in Hrest2 by (symmetry; exact Hlen).
  exists d1. split.
  - rewrite rename_to_temp_as_pairs. fold T. rewrite Hrun1. reflexivity.
  - rewrite Hrun2. f_equal. apply map_eq. intros k.
    destruct (decide (k ∈ files)) as [Hk | Hk].
    + destruct (combine_partner files T k Hlen Hk) as [t Hpair].
      destruct (Hmoved1 k t Hpair) as [Ht _].
      apply combine_swap in Hpair.
      destruct (Hmoved2 t k Hpair) as [Hback _]. exact (eq_trans Hback Ht).
    + destruct (decide (k ∈ T)) as [Hk' | Hk'].
      * destruct (combine_partner T files k (eq_sym Hlen) Hk') as [f Hpair].
        destruct (Hmoved2 k f Hpair) as [_ Hgone].
        exact (eq_trans Hgone (eq_sym (HT k Hk'))).
      * exact (eq_trans (Hrest2 k Hk' Hk) (Hrest1 k Hk Hk')).
Qed.

(** ** [api_reorder_files] *)

Lemma reordered_files_perm (d : Dir) (x : string) (j : nat) :
  x ∈ sort_names (json_files d) ->
  list_insert_at j x (remove_first x (sort_names (json_files d)))
  ≡ₚ json_files d.
Proof.
  intros Hx. rewrite list_insert_at_perm, (remove_first_perm x _ Hx).
  apply sort_names_perm.
Qed.

Lemma api_reorder_files_run rt request (d : Dir) :
  no_temp_entries d ->
  renames_plain rt d ->
  api_reorder_files rt request d =
  (d,
   FOk match request_json request with
       | FRaise e => failure (str_exc rt e)
       | FOk req =>
           match subscript req "oldIndex" with
           | FRaise e => failure (str_exc rt e)
           | FOk old_index =>
               match subscript req "newIndex" with
               | FRaise e => failure (str_exc rt e)
               | FOk new_index =>
                   let files := sort_names (json_files d) in
                   match both_in_range old_index new_index (PList (PStr <$> files)) with
                   | FRaise e => failure (str_exc rt e)
                   | FOk false => failure "Invalid indices"
                   | FOk true =>
                       match files !! Z.to_nat (default 0 (as_int old_index)) with
                       | Some _ => success
                       | None => failure (str_exc rt IndexErr)
                       end
                   end
               end
           end
       end).
Proof.
  intros Htemp Hplain. unfold api_reorder_files. run_route.
  fold (json_files d).
  destruct (request_json request) as [req|e]; simpl; [| reflexivity].
  destruct (subscript req "oldIndex") as [old_index|e]; simpl; [| reflexivity].
  destruct (subscript req "newIndex") as [new_index|e]; simpl; [| reflexivity].
  destruct (both_in_range _ _ _) as [[|]|e]; simpl; try reflexivity.
  destruct (_ !! Z.to_nat (default 0 (as_int old_index))) as [x|] eqn:Hx;
    simpl; [| reflexivity].
  apply list_elem_of_lookup_2 in Hx.
  pose proof (reordered_files_perm d x
                (Z.to_nat (default 0 (as_int new_index))) Hx) as Hperm.
  destruct (there_and_back rt
              (list_insert_at (Z.to_nat (default 0 (as_int new_index))) x
                 (remove_first x (sort_names (json_files d)))) d)
    as (d1 & Hthere & Hback).
  - rewrite Hperm. apply json_files_NoDup.
  - intros f Hf. rewrite Hperm in Hf. apply json_files_present, Hf.
  - exact Htemp.
  - intros f Hf. rewrite Hperm in Hf.
    destruct (json_files d) as [|f0 l0] eqn:Hfiles;
      [apply elem_of_nil in Hf; destruct Hf |].
    rewrite <- Hfiles in Hf.
    apply (Hplain 0%nat f Hf). rewrite Hfiles. simpl. lia.
  - intros k f Hf Hk. rewrite Hperm in Hf.
    rewrite (Permutation_length Hperm) in Hk.
    apply (Hplain k f Hf Hk).
  - unfold fs_bind in *. rewrite Hthere, Hback. reflexivity.
Qed.

Lemma in_range_names (i : Z) (files : list string) :
  in_range (PInt i) (PList (PStr <$> files)) =
  FOk (bool_decide (0 <= i < Z.of_nat (length files))).
Proof. rewrite in_range_list, length_fmap. reflexivity. Qed.

(** X23.  As long as no entry of the directory is named like one of its
    temporaries ([temp_<number>_<name>]) and the platform takes the
    names of the [.json] entries and their temporary names for plain
    entry names, [api_reorder_files] leaves the directory exactly as it
    was, whatever the request: it always answers, and with two indices
    in range of the list of [.json] files it answers [{success: true}]
    although every file is back under its own name with its own content
    (the requested order is recorded nowhere). *)
Theorem api_reorder_files_changes_nothing rt request d :
  no_temp_entries d ->
  renames_plain rt d ->
  (exists reply, api_reorder_files rt request d = (d, FOk reply)) /\
  (forall req i j,
     request_json request = FOk req ->
     subscript req "oldIndex" = FOk (PInt i) ->
     subscript req "newIndex" = FOk (PInt j) ->
     0 <= i < Z.of_nat (length (json_files d)) ->
     0 <= j < Z.of_nat (length (json_files d)) ->
     api_reorder_files rt request d = (d, FOk success)).
Proof.
  intros Htemp Hplain. split.
  - eexists. apply api_reorder_files_run; assumption.
  - intros req i j Hreq Hold Hnew Hi Hj.
    rewrite api_reorder_files_run by assumption.
    rewrite Hreq, Hold, Hnew. cbv zeta.
    assert (Hlen : length (sort_names (json_files d)) = length (json_files d))
      by (apply Permutation_length, sort_names_perm).
    unfold both_in_range. rewrite !in_range_names, Hlen.
    rewrite !bool_decide_eq_true_2 by assumption.
    destruct (lookup_lt_is_Some_2 (sort_names (json_files d)) (Z.to_nat i))
      as [x Hx]; [simpl; lia |].
    simpl. rewrite Hx. reflexivity.
Qed.

Lemma sample_dir_no_temp : no_temp_entries sample_dir.
Proof.
  intros i fname. unfold sample_dir, Dir.
  rewrite !lookup_insert_ne by (unfold temp_name; simpl; discriminate).
  apply lookup_singleton_ne. unfold temp_name. simpl. discriminate.
Qed.

Lemma sample_dir_renames_plain : renames_plain plain_runtime sample_dir.
Proof.
  assert (Hfiles : json_files sample_dir ≡ₚ ["login.json"; "home.json"]).
  { apply NoDup_Permutation.
    - apply json_files_NoDup.
    - apply NoDup_cons. split; [| apply NoDup_singleton].
      intros Hin. apply list_elem_of_singleton in Hin. discriminate Hin.
    - intros f. vm_compute json_files. set_solver. }
  intros i f Hf Hi. rewrite Hfiles in Hf. rewrite (Permutation_length Hfiles) in Hi.
  simpl in Hi.
  assert (Hi' : i = 0%nat \/ i = 1%nat) by lia.
  apply elem_of_cons in Hf as [-> | Hf];
    [| apply list_elem_of_singleton in Hf as ->];
    destruct Hi' as [-> | ->]; split; reflexivity.
Qed.

Lemma api_reorder_files_changes_nothing_witness :
  (exists reply,
     api_reorder_files plain_runtime
       (post [("oldIndex", PInt 0); ("newIndex", PInt 1)]) sample_dir =
     (sample_dir, FOk reply)) /\
  (forall req i j,
     request_json (post [("oldIndex", PInt 0); ("newIndex", PInt 1)]) = FOk req ->
     subscript req "oldIndex" = FOk (PInt i) ->
     subscript req "newIndex" = FOk (PInt j) ->
     0 <= i < Z.of_nat (length (json_files sample_dir)) ->
     0 <= j < Z.of_nat (length (json_files sample_dir)) ->
     api_reorder_files plain_runtime
       (post [("oldIndex", PInt 0); ("newIndex", PInt 1)]) sample_dir =
     (sample_dir, FOk success)).
Proof.
  apply (api_reorder_files_changes_nothing plain_runtime
           (post [("oldIndex", PInt 0); ("newIndex", PInt 1)]) sample_dir).
  - exact sample_dir_no_temp.
  - exact sample_dir_renames_plain.
Defined.
